(** * The global configuration of the LZA upgrade tool: loader and reconciler

    A shallow embedding of
    [reference-artifacts/Custom-Scripts/lza-upgrade/src/config/global-config.ts]:
    the schema of the configuration document ([GlobalConfigTypes]), the
    default-valued classes, the three loaders of [GlobalConfig] and the
    methods that reconcile the configuration with the external landing zone
    ([loadExternalMapping], [setTemplateMap], [loadLzaResources],
    [getParametersByPath]).

    The first part holds the definitions, the second part the lemmas. *)

From Stdlib Require Import ZArith String Ascii List Bool Lia.
From stdpp Require Import base option list gmap strings pretty fin_maps.

Set Warnings "-register-all".

Local Open Scope string_scope.
Local Open Scope Z_scope.
Local Open Scope list_scope.

(* ===================================================================== *)
(** * Part I: definitions                                                  *)
(* ===================================================================== *)

(** ** JavaScript values, exceptions and strings *)

Module Js.

(** The numbers the loader and the reconciler compute with: integral
    values and [NaN]. *)
Inductive number :=
| Int (z : Z)
| NaN.

(** The exceptions that travel through the code. [Error] is the plain
    [new Error(message)]; [AWSError] carries the [code] the storage client
    reports; [SystemError] is what [fs] throws ([ENOENT], [EEXIST]). *)
Inductive exn :=
| Error (message : string)
| TypeError (message : string)
| SyntaxError (message : string)
| YAMLException (message : string)
| SchemaValidationError (fieldPath : list string) (expected : string)
| SystemError (code : string)
| AWSError (code : string) (message : string).

(** [e.code]: [undefined] on the exceptions that have no such property. *)
Definition code (e : exn) : option string :=
  match e with
  | SystemError c => Some c
  | AWSError c _ => Some c
  | _ => None
  end.

(** [e.message] *)
Definition message (e : exn) : string :=
  match e with
  | Error m | TypeError m | SyntaxError m | YAMLException m => m
  | SchemaValidationError p expected =>
      "Invalid value at " +:+ String.concat "/" p +:+ ", expected " +:+ expected
  | SystemError c => c
  | AWSError _ m => m
  end.

(** [e.name] *)
Definition name (e : exn) : string :=
  match e with
  | Error _ => "Error"
  | TypeError _ => "TypeError"
  | SyntaxError _ => "SyntaxError"
  | YAMLException _ => "YAMLException"
  | SchemaValidationError _ _ => "Error"
  | SystemError _ => "Error"
  | AWSError c _ => c
  end.

(** The string a template literal makes of an exception. *)
Definition toString (e : exn) : string := name e +:+ ": " +:+ message e.

(** The outcome of a call: a value or a thrown exception. *)
Inductive result (A : Type) :=
| Ok (a : A)
| Throw (e : exn).
Arguments Ok {A} a.
Arguments Throw {A} e.

(** Truthiness of an optional string ([undefined] and [''] are falsy). *)
Definition truthy (s : option string) : bool :=
  match s with
  | Some s => negb (String.eqb s "")
  | None => false
  end.

(** Strings are sequences of one-byte characters; the stack names,
    identifiers and paths that the code handles are ASCII.

    [s.indexOf(needle)]: the first index at which [needle] starts, [-1]
    when there is none. *)
Fixpoint indexOf_from (needle s : string) (i : Z) : Z :=
  if String.prefix needle s then i
  else match s with
       | EmptyString => -1
       | String _ s' => indexOf_from needle s' (i + 1)
       end.

Definition indexOf (needle s : string) : Z := indexOf_from needle s 0.

(** [s.includes(needle)] *)
Definition includes (needle s : string) : bool := 0 <=? indexOf needle s.

(** [s[i]]: the character at index [i], [undefined] out of range. *)
Definition charAt (s : string) (i : Z) : option ascii :=
  if i <? 0 then None else String.get (Z.to_nat i) s.

(** [Number(c)] for a one-character string: a decimal digit is its
    value, a white space character trims to the empty string, which is
    [0], and anything else is [NaN]. *)
Definition isWhiteSpace (c : ascii) : bool :=
  let n := nat_of_ascii c in
  ((9 <=? n)%nat && (n <=? 13)%nat) || (n =? 32)%nat || (n =? 160)%nat.

Definition Number_char (c : ascii) : number :=
  let n := Z.of_nat (nat_of_ascii c) in
  if (48 <=? n) && (n <=? 57) then Int (n - 48)
  else if isWhiteSpace c then Int 0
  else NaN.

End Js.
Import Js.

(** ** The state and error monad of the effectful methods

    A computation reads and writes a state [S] and ends with a value or a
    thrown exception. The state survives a throw: nothing is rolled back. *)

Definition M (S A : Type) : Type := S -> result A * S.

Definition ret {S A} (a : A) : M S A := fun s => (Ok a, s).

Definition throw {S A} (e : exn) : M S A := fun s => (Throw e, s).

Definition bind {S A B} (m : M S A) (k : A -> M S B) : M S B :=
  fun s =>
    match m s with
    | (Ok a, s') => k a s'
    | (Throw e, s') => (Throw e, s')
    end.

(** [try { m } catch (e) { handler e }] *)
Definition try_catch {S A} (m : M S A) (handler : exn -> M S A) : M S A :=
  fun s =>
    match m s with
    | (Ok a, s') => (Ok a, s')
    | (Throw e, s') => handler e s'
    end.

Definition gets {S A} (f : S -> A) : M S A := fun s => (Ok (f s), s).

Definition modify {S} (f : S -> S) : M S unit := fun s => (Ok tt, f s).

(** A call that has no state of its own. *)
Definition lift {S A} (r : result A) : M S A := fun s => (r, s).

Declare Scope monad_scope.
Delimit Scope monad_scope with monad.
Notation "x <- m ;; k" := (bind m (fun x => k))
  (at level 100, m at next level, right associativity) : monad_scope.
Notation "m ;;; k" := (bind m (fun _ => k))
  (at level 100, right associativity) : monad_scope.

(** A [for ... of] loop over [l] whose body threads an accumulator. *)
Fixpoint forM {S A B} (l : list A) (acc : B) (body : B -> A -> M S B) : M S B :=
  match l with
  | [] => ret acc
  | x :: l' => bind (body acc x) (fun acc' => forM l' acc' body)
  end.

(** ** Documents

    What [yaml.load] and [JSON.parse] return and what the loaders build: a
    tree of JavaScript values. An object keeps its properties in insertion
    order. *)

Inductive value :=
| VUndefined
| VNull
| VBool (b : bool)
| VNumber (n : number)
| VString (s : string)
| VArray (items : list value)
| VObject (props : list (string * value)).

(** [o[k]] on the property list of an object: [undefined] when absent. *)
Fixpoint lookupProp (k : string) (props : list (string * value)) : value :=
  match props with
  | [] => VUndefined
  | (k', v) :: rest => if String.eqb k k' then v else lookupProp k rest
  end.

(** [o[k] = v] on the property list of an object: an existing property
    keeps its place, a new one goes last. *)
Fixpoint setProp (k : string) (v : value) (props : list (string * value))
  : list (string * value) :=
  match props with
  | [] => [(k, v)]
  | (k', v') :: rest =>
      if String.eqb k k' then (k, v) :: rest else (k', v') :: setProp k v rest
  end.

(** [v.k] in an expression that is known not to throw: [undefined] on
    whatever has no such property. *)
Definition field (v : value) (k : string) : value :=
  match v with
  | VObject props => lookupProp k props
  | _ => VUndefined
  end.

(** [v.k] as JavaScript evaluates it: reading a property of [undefined]
    or [null] throws. *)
Definition get (v : value) (k : string) : result value :=
  match v with
  | VUndefined => Throw (TypeError ("Cannot read properties of undefined (reading '" +:+ k +:+ "')"))
  | VNull => Throw (TypeError ("Cannot read properties of null (reading '" +:+ k +:+ "')"))
  | _ => Ok (field v k)
  end.

(** Truthiness of a value. *)
Definition truthyValue (v : value) : bool :=
  match v with
  | VUndefined | VNull => false
  | VBool b => b
  | VNumber (Int z) => negb (z =? 0)
  | VNumber NaN => false
  | VString s => negb (String.eqb s "")
  | VArray _ | VObject _ => true
  end.

(** The own enumerable properties that [Object.assign] and the spread
    syntax copy. Only objects reach these two places in the loaders; the
    index properties of arrays and strings are left out. *)
Definition ownProps (v : value) : list (string * value) :=
  match v with
  | VObject props => props
  | _ => []
  end.

(** [Object.assign(target, source)]: every own key of [source], in order,
    is read from [source] and written to [target]. *)
Definition Object_assign (target : list (string * value)) (source : value)
  : list (string * value) :=
  fold_left (fun t k => setProp k (field source k) t) (map fst (ownProps source)) target.

(** [{ ...source, k: v }] *)
Definition spreadWith (source : value) (k : string) (v : value) : value :=
  VObject (setProp k v (Object_assign [] source)).

(** ** Schema nodes

    The validators and combinators of [./common-types] ([t.string],
    [t.interface], [t.optional], ...) as a tree. *)

Inductive schema :=
| TString
| TNonEmptyString
| TNumber
| TBoolean
| TEnums (name : string) (literals : list string)
| TInterface (props : list (string * schema))
| TArray (item : schema)
| TOptional (item : schema).

(** The first error of a list of checks. *)
Fixpoint firstError {A} (check : A -> option exn) (l : list A) : option exn :=
  match l with
  | [] => None
  | x :: l' =>
      match check x with
      | Some e => Some e
      | None => firstError check l'
      end
  end.

(** The items of an array with their indices, as path components. *)
Fixpoint indexed {A} (i : nat) (l : list A) : list (string * A) :=
  match l with
  | [] => []
  | x :: l' => (pretty i, x) :: indexed (S i) l'
  end.

(** Modelled from the spec: the structural validation behind [t.parse] of
    [./common-types], which is not among the sources at hand. A value is
    checked against a schema node; the first mismatch is reported with the
    path of the offending field and the expected shape. An optional node
    accepts [undefined], so a property that is present but undefined and a
    property that is absent are treated alike. Nothing is coerced. *)
Fixpoint validate (path : list string) (s : schema) (v : value) {struct s} : option exn :=
  match s with
  | TString =>
      match v with
      | VString _ => None
      | _ => Some (SchemaValidationError path "string")
      end
  | TNonEmptyString =>
      match v with
      | VString s' =>
          if String.eqb s' "" then Some (SchemaValidationError path "non-empty string")
          else None
      | _ => Some (SchemaValidationError path "non-empty string")
      end
  | TNumber =>
      match v with
      | VNumber _ => None
      | _ => Some (SchemaValidationError path "number")
      end
  | TBoolean =>
      match v with
      | VBool _ => None
      | _ => Some (SchemaValidationError path "boolean")
      end
  | TEnums name literals =>
      match v with
      | VString s' =>
          if existsb (String.eqb s') literals then None
          else Some (SchemaValidationError path name)
      | _ => Some (SchemaValidationError path name)
      end
  | TInterface props =>
      match v with
      | VObject _ =>
          firstError (fun '(k, sk) => validate (path ++ [k]) sk (field v k)) props
      | _ => Some (SchemaValidationError path "object")
      end
  | TArray item =>
      match v with
      | VArray items =>
          firstError (fun '(i, x) => validate (path ++ [i]) item x) (indexed 0 items)
      | _ => Some (SchemaValidationError path "array")
      end
  | TOptional item =>
      match v with
      | VUndefined => None
      | _ => validate path item v
      end
  end.

(** Modelled from the spec: [t.parse(schema, rawValue)] of [./common-types]
    validates the raw value against the schema and returns it, or fails
    with the validation error. The spec calls the result normalized and
    does not say how; the model returns the value as it is, with the
    properties that the document has and no others. *)
Definition parse (s : schema) (content : value) : result value :=
  match validate [] s content with
  | None => Ok content
  | Some e => Throw e
  end.

(** The schema nodes and constants that [global-config.ts] takes from
    [./common-types]. *)
Class CommonTypes := {
  t_region : schema;
  t_tag : schema;
  t_deploymentTargets : schema;
  t_lifecycleRuleConfig : schema;
  t_resourcePolicyStatement : schema;
  t_importedS3ManagedEncryptionKeyBucketConfig : schema;
  t_importedCustomerManagedEncryptionKeyBucketConfig : schema;
  t_customS3ResourcePolicyOverridesConfig : schema;
  t_customS3ResourceAndKmsPolicyOverridesConfig : schema;
  (** the members of the enumeration [AseaResourceTypePaths] *)
  AseaResourceTypePaths_IAM : string;
  AseaResourceTypePaths_VPC : string;
  AseaResourceTypePaths_TRANSIT_GATEWAY : string;
  AseaResourceTypePaths_VPC_PEERING : string
}.

(** ** [GlobalConfigTypes]: the schema of the configuration document *)

Module GlobalConfigTypes.
Section Schemas.
Context `{CommonTypes}.

Definition controlTowerControlConfig : schema := TInterface [
  ("identifier", TNonEmptyString);
  ("enable", TBoolean);
  ("deploymentTargets", t_deploymentTargets) ].

Definition controlTowerConfig : schema := TInterface [
  ("enable", TBoolean);
  ("controls", TOptional (TArray controlTowerControlConfig)) ].

Definition cloudTrailSettingsConfig : schema := TInterface [
  ("multiRegionTrail", TBoolean);
  ("globalServiceEvents", TBoolean);
  ("managementEvents", TBoolean);
  ("s3DataEvents", TBoolean);
  ("lambdaDataEvents", TBoolean);
  ("sendToCloudWatchLogs", TBoolean);
  ("apiErrorRateInsight", TBoolean);
  ("apiCallRateInsight", TBoolean) ].

Definition accountCloudTrailConfig : schema := TInterface [
  ("name", TString);
  ("regions", TArray TNonEmptyString);
  ("deploymentTargets", t_deploymentTargets);
  ("settings", cloudTrailSettingsConfig) ].

Definition cloudTrailConfig : schema := TInterface [
  ("enable", TBoolean);
  ("organizationTrail", TBoolean);
  ("organizationTrailSettings", TOptional cloudTrailSettingsConfig);
  ("accountTrails", TOptional (TArray accountCloudTrailConfig));
  ("lifecycleRules", TOptional (TArray t_lifecycleRuleConfig)) ].

Definition centralizeCdkBucketsConfig : schema := TInterface [
  ("enable", TBoolean) ].

Definition cdkOptionsConfig : schema := TInterface [
  ("centralizeBuckets", TBoolean);
  ("useManagementAccessRole", TBoolean);
  ("customDeploymentRole", TOptional TString);
  ("forceBootstrap", TOptional TBoolean) ].

Definition externalLandingZoneResourcesConfig : schema := TInterface [
  ("importExternalLandingZoneResources", TBoolean);
  ("mappingFileBucket", TOptional TString);
  ("acceleratorPrefix", TNonEmptyString);
  ("acceleratorName", TNonEmptyString) ].

Definition sessionManagerConfig : schema := TInterface [
  ("sendToCloudWatchLogs", TBoolean);
  ("sendToS3", TBoolean);
  ("excludeRegions", TOptional (TArray t_region));
  ("excludeAccounts", TOptional (TArray TString));
  ("lifecycleRules", TOptional (TArray t_lifecycleRuleConfig));
  ("attachPolicyToIamRoles", TOptional (TArray TString)) ].

Definition accessLogBucketConfig : schema := TInterface [
  ("lifecycleRules", TOptional (TArray t_lifecycleRuleConfig));
  ("s3ResourcePolicyAttachments", TOptional (TArray t_resourcePolicyStatement));
  ("importedBucket", TOptional t_importedS3ManagedEncryptionKeyBucketConfig);
  ("customPolicyOverrides", TOptional t_customS3ResourcePolicyOverridesConfig) ].

Definition centralLogBucketConfig : schema := TInterface [
  ("lifecycleRules", TOptional (TArray t_lifecycleRuleConfig));
  ("s3ResourcePolicyAttachments", TOptional (TArray t_resourcePolicyStatement));
  ("kmsResourcePolicyAttachments", TOptional (TArray t_resourcePolicyStatement));
  ("importedBucket", TOptional t_importedCustomerManagedEncryptionKeyBucketConfig);
  ("customPolicyOverrides", TOptional t_customS3ResourceAndKmsPolicyOverridesConfig) ].

Definition elbLogBucketConfig : schema := TInterface [
  ("lifecycleRules", TOptional (TArray t_lifecycleRuleConfig));
  ("s3ResourcePolicyAttachments", TOptional (TArray t_resourcePolicyStatement));
  ("importedBucket", TOptional t_importedS3ManagedEncryptionKeyBucketConfig);
  ("customPolicyOverrides", TOptional t_customS3ResourcePolicyOverridesConfig) ].

Definition cloudWatchLogsExclusionConfig : schema := TInterface [
  ("organizationalUnits", TOptional (TArray TNonEmptyString));
  ("regions", TOptional (TArray t_region));
  ("accounts", TOptional (TArray TNonEmptyString));
  ("excludeAll", TOptional TBoolean);
  ("logGroupNames", TOptional (TArray TNonEmptyString)) ].

Definition cloudwatchLogsConfig : schema := TInterface [
  ("dynamicPartitioning", TOptional TNonEmptyString);
  ("enable", TOptional TBoolean);
  ("exclusions", TOptional (TArray cloudWatchLogsExclusionConfig));
  ("replaceLogDestinationArn", TOptional TNonEmptyString) ].

Definition loggingConfig : schema := TInterface [
  ("account", TNonEmptyString);
  ("centralizedLoggingRegion", TOptional TNonEmptyString);
  ("cloudtrail", cloudTrailConfig);
  ("sessionManager", sessionManagerConfig);
  ("accessLogBucket", TOptional accessLogBucketConfig);
  ("centralLogBucket", TOptional centralLogBucketConfig);
  ("elbLogBucket", TOptional elbLogBucketConfig);
  ("cloudwatchLogs", TOptional cloudwatchLogsConfig) ].

Definition artifactTypeEnum : schema :=
  TEnums "ArtifactType" ["REDSHIFT"; "QUICKSIGHT"; "ATHENA"].

Definition costAndUsageReportConfig : schema := TInterface [
  ("additionalSchemaElements", TOptional (TArray TNonEmptyString));
  ("compression", TEnums "CompressionType" ["ZIP"; "GZIP"; "Parquet"]);
  ("format", TEnums "FormatType" ["textORcsv"; "Parquet"]);
  ("reportName", TNonEmptyString);
  ("s3Prefix", TNonEmptyString);
  ("timeUnit", TEnums "TimeCoverageType" ["HOURLY"; "DAILY"; "MONTHLY"]);
  ("additionalArtifacts", TOptional (TArray artifactTypeEnum));
  ("refreshClosedReports", TBoolean);
  ("reportVersioning", TEnums "VersioningType" ["CREATE_NEW_REPORT"; "OVERWRITE_REPORT"]);
  ("lifecycleRules", TOptional (TArray t_lifecycleRuleConfig)) ].

Definition notificationConfig : schema := TInterface [
  ("type", TEnums "NotificationType" ["ACTUAL"; "FORECASTED"]);
  ("thresholdType", TEnums "ThresholdType" ["PERCENTAGE"; "ABSOLUTE_VALUE"]);
  ("comparisonOperator", TEnums "ComparisonType" ["GREATER_THAN"; "LESS_THAN"; "EQUAL_TO"]);
  ("threshold", TOptional TNumber);
  ("address", TOptional TNonEmptyString);
  ("subscriptionType", TEnums "SubscriptionType" ["EMAIL"; "SNS"]) ].

Definition budgetConfig : schema := TInterface [
  ("amount", TNumber);
  ("name", TNonEmptyString);
  ("type", TEnums "NotificationType"
     ["USAGE"; "COST"; "RI_UTILIZATION"; "RI_COVERAGE";
      "SAVINGS_PLANS_UTILIZATION"; "SAVINGS_PLANS_COVERAGE"]);
  ("timeUnit", TEnums "TimeUnitType" ["DAILY"; "MONTHLY"; "QUARTERLY"; "ANNUALLY"]);
  ("includeUpfront", TOptional TBoolean);
  ("includeTax", TOptional TBoolean);
  ("includeSupport", TOptional TBoolean);
  ("includeSubscription", TOptional TBoolean);
  ("includeRecurring", TOptional TBoolean);
  ("includeOtherSubscription", TOptional TBoolean);
  ("includeCredit", TOptional TBoolean);
  ("includeDiscount", TOptional TBoolean);
  ("includeRefund", TOptional TBoolean);
  ("useAmortized", TOptional TBoolean);
  ("useBlended", TOptional TBoolean);
  ("unit", TOptional TNonEmptyString);
  ("notifications", TOptional (TArray notificationConfig));
  ("deploymentTargets", TOptional t_deploymentTargets) ].

Definition serviceQuotaLimitsConfig : schema := TInterface [
  ("serviceCode", TString);
  ("quotaCode", TString);
  ("desiredValue", TNumber);
  ("deploymentTargets", t_deploymentTargets) ].

Definition reportConfig : schema := TInterface [
  ("costAndUsageReport", TOptional costAndUsageReportConfig);
  ("budgets", TOptional (TArray budgetConfig)) ].

Definition vaultConfig : schema := TInterface [
  ("name", TNonEmptyString);
  ("deploymentTargets", t_deploymentTargets);
  ("policy", TOptional TNonEmptyString) ].

Definition backupConfig : schema := TInterface [
  ("vaults", TArray vaultConfig) ].

Definition snsTopicConfig : schema := TInterface [
  ("name", TNonEmptyString);
  ("emailAddresses", TArray TNonEmptyString) ].

Definition snsConfig : schema := TInterface [
  ("deploymentTargets", TOptional t_deploymentTargets);
  ("topics", TOptional (TArray snsTopicConfig)) ].

Definition ssmInventoryConfig : schema := TInterface [
  ("enable", TBoolean);
  ("deploymentTargets", t_deploymentTargets) ].

Definition ssmParameterConfig : schema := TInterface [
  ("name", TNonEmptyString);
  ("path", TNonEmptyString);
  ("value", TNonEmptyString) ].

Definition ssmParametersConfig : schema := TInterface [
  ("parameters", TArray ssmParameterConfig);
  ("deploymentTargets", t_deploymentTargets) ].

Definition acceleratorMetadataConfig : schema := TInterface [
  ("enable", TBoolean);
  ("account", TString);
  ("readOnlyAccessRoleArns", TOptional (TArray TString)) ].

Definition acceleratorSettingsConfig : schema := TInterface [
  ("maxConcurrentStacks", TOptional TNumber) ].

(** The fields of the root schema. *)
Definition globalConfigProps : list (string * schema) := [
  ("homeRegion", TNonEmptyString);
  ("enabledRegions", TArray t_region);
  ("managementAccountAccessRole", TNonEmptyString);
  ("cloudwatchLogRetentionInDays", TNumber);
  ("terminationProtection", TOptional TBoolean);
  ("controlTower", controlTowerConfig);
  ("centralizeCdkBuckets", TOptional centralizeCdkBucketsConfig);
  ("cdkOptions", TOptional cdkOptionsConfig);
  ("externalLandingZoneResources", TOptional externalLandingZoneResourcesConfig);
  ("logging", loggingConfig);
  ("reports", TOptional reportConfig);
  ("backup", TOptional backupConfig);
  ("snsTopics", TOptional snsConfig);
  ("ssmInventory", TOptional ssmInventoryConfig);
  ("tags", TOptional (TArray t_tag));
  ("ssmParameters", TOptional (TArray ssmParametersConfig));
  ("limits", TOptional (TArray serviceQuotaLimitsConfig));
  ("acceleratorMetadata", TOptional acceleratorMetadataConfig);
  ("acceleratorSettings", TOptional acceleratorSettingsConfig) ].

Definition globalConfig : schema := TInterface globalConfigProps.

End Schemas.
End GlobalConfigTypes.

(** ** The world outside: files, console, temporary names

    A file is addressed by its directory and its name, which is what
    [path.join(dir, name)] denotes; [files] maps every existing directory to
    the files it holds. [tmpnames] are the random suffixes that [mkdtemp]
    will draw, [console] the lines written by [console.error] and
    [s3Requests] the [getObject] requests sent so far. *)

Record path := { dirname : string; basename : string }.

(** [path.join(dir, name)] for a [name] that is a plain file name. The
    model does not normalise a path: what is stated about the files that
    [setTemplateMap] writes is stated for stack names without a path
    separator. *)
Definition path_join (dir name : string) : path :=
  {| dirname := dir; basename := name |}.

Record GetObjectRequest := { Bucket : string; Key : string }.

Record World := {
  tmpdir : string;
  files : gmap string (gmap string string);
  tmpnames : list string;
  console : list string;
  s3Requests : list GetObjectRequest
}.

Definition setFiles (f : gmap string (gmap string string)) (w : World) : World :=
  {| tmpdir := tmpdir w; files := f; tmpnames := tmpnames w;
     console := console w; s3Requests := s3Requests w |}.

Definition setTmpnames (l : list string) (w : World) : World :=
  {| tmpdir := tmpdir w; files := files w; tmpnames := l;
     console := console w; s3Requests := s3Requests w |}.

Definition console_error (line : string) : M World unit :=
  modify (fun w =>
    {| tmpdir := tmpdir w; files := files w; tmpnames := tmpnames w;
       console := (console w ++ [line])%list; s3Requests := s3Requests w |}).

Definition recordRequest (r : GetObjectRequest) : M World unit :=
  modify (fun w =>
    {| tmpdir := tmpdir w; files := files w; tmpnames := tmpnames w;
       console := console w; s3Requests := (s3Requests w ++ [r])%list |}).

(** [fs.existsSync(p)] *)
Definition existsSync (p : path) (w : World) : bool :=
  match files w !! dirname p with
  | Some d => bool_decide (is_Some (d !! basename p))
  | None => false
  end.

(** [fs.readFileSync(p).toString()] *)
Definition readFileSync (p : path) : M World string :=
  fun w =>
    match files w !! dirname p ≫= (fun d => d !! basename p) with
    | Some content => (Ok content, w)
    | None => (Throw (SystemError "ENOENT"), w)
    end.

(** [fs.writeFileSync(p, content)]: the directory has to exist. *)
Definition writeFile (p : path) (content : string) : M World unit :=
  fun w =>
    match files w !! dirname p with
    | Some d => (Ok tt, setFiles (<[dirname p := <[basename p := content]> d]> (files w)) w)
    | None => (Throw (SystemError "ENOENT"), w)
    end.

(** The suffixes that [mkdtemp] draws until one gives a name that is not
    in use: the directory name found, if any, and the suffixes left. *)
Fixpoint drawName (prefix : string) (used : gmap string (gmap string string))
    (suffixes : list string) : option string * list string :=
  match suffixes with
  | [] => (None, [])
  | x :: rest =>
      match used !! (prefix +:+ x) with
      | None => (Some (prefix +:+ x), rest)
      | Some _ => drawName prefix used rest
      end
  end.

(** [fs.promises.mkdtemp(prefix)]: creates a directory that did not exist,
    named [prefix] followed by random characters, and returns its name. *)
Definition mkdtemp (prefix : string) : M World string :=
  fun w =>
    match drawName prefix (files w) (tmpnames w) with
    | (Some dir, rest) => (Ok dir, setTmpnames rest (setFiles (<[dir := ∅]> (files w)) w))
    | (None, rest) => (Throw (SystemError "EEXIST"), setTmpnames rest w)
    end.

(** ** The external manifest

    [mapping.json] is an array of accounts, each with the stacks deployed in
    it; a stack lists its resources and, when it is a nested stack, its
    parent. *)

Record CfnResourceType := {
  resourceType : string;
  physicalResourceId : string
}.

Record StackAndResourceMap := {
  stackName : string;
  region : string;
  template : value;
  resourceMap : list CfnResourceType;
  parentStack : option string
}.

Record AccountMapping := {
  accountId : string;
  accountKey : string;
  stacksAndResourceMapList : list StackAndResourceMap
}.

(** ** The libraries and the services the code calls *)

(** [yaml.load] and [JSON]. A [mapping.json] document is read as the
    records of the external manifest; the text [''] is no JSON document. *)
Class Libraries := {
  yaml_load : string -> result value;
  JSON_parse : string -> result value;
  JSON_stringify : value -> string;
  JSON_parse_mapping : string -> result (list AccountMapping);
  JSON_stringify_mapping : list AccountMapping -> string;
  JSON_stringify_error : exn -> string;
  JSON_parse_mapping_empty : exists m, JSON_parse_mapping "" = Throw (SyntaxError m);
  JSON_parse_empty : exists m, JSON_parse "" = Throw (SyntaxError m)
}.

(** ** The default-valued classes *)

Definition new_ControlTowerConfig : value := VObject [
  ("enable", VBool true);
  ("controls", VArray []) ].

Definition new_cdkOptionsConfig : value := VObject [
  ("centralizeBuckets", VBool true);
  ("useManagementAccessRole", VBool true);
  ("customDeploymentRole", VUndefined);
  ("forceBootstrap", VUndefined) ].

Definition new_CloudTrailSettingsConfig : value := VObject [
  ("multiRegionTrail", VBool true);
  ("globalServiceEvents", VBool true);
  ("managementEvents", VBool true);
  ("s3DataEvents", VBool true);
  ("lambdaDataEvents", VBool true);
  ("sendToCloudWatchLogs", VBool true);
  ("apiErrorRateInsight", VBool false);
  ("apiCallRateInsight", VBool false) ].

Definition new_CloudTrailConfig : value := VObject [
  ("enable", VBool false);
  ("organizationTrail", VBool false);
  ("organizationTrailSettings", new_CloudTrailSettingsConfig);
  ("accountTrails", VArray []);
  ("lifecycleRules", VArray []) ].

Definition new_SessionManagerConfig : value := VObject [
  ("sendToCloudWatchLogs", VBool false);
  ("sendToS3", VBool false);
  ("excludeRegions", VArray []);
  ("excludeAccounts", VArray []);
  ("lifecycleRules", VArray []);
  ("attachPolicyToIamRoles", VArray []) ].

Definition new_LoggingConfig : value := VObject [
  ("account", VString "LogArchive");
  ("centralizedLoggingRegion", VUndefined);
  ("cloudtrail", new_CloudTrailConfig);
  ("sessionManager", new_SessionManagerConfig);
  ("accessLogBucket", VUndefined);
  ("centralLogBucket", VUndefined);
  ("elbLogBucket", VUndefined);
  ("cloudwatchLogs", VUndefined) ].

(** ** [GlobalConfig]: the loaders *)

Module GlobalConfig.

Definition FILENAME : string := "global-config.yaml".

(** The field initialisers of the class, in the order of declaration.
    [ssmParameters] is declared without an initialiser and reads as
    [undefined]. *)
Definition fieldDefaults : list (string * value) := [
  ("homeRegion", VString "");
  ("enabledRegions", VArray []);
  ("managementAccountAccessRole", VString "");
  ("cloudwatchLogRetentionInDays", VNumber (Int 3653));
  ("centralizeCdkBuckets", VUndefined);
  ("cdkOptions", new_cdkOptionsConfig);
  ("terminationProtection", VBool true);
  ("externalLandingZoneResources", VUndefined);
  ("controlTower", new_ControlTowerConfig);
  ("logging", new_LoggingConfig);
  ("reports", VUndefined);
  ("limits", VUndefined);
  ("backup", VUndefined);
  ("snsTopics", VUndefined);
  ("ssmInventory", VUndefined);
  ("tags", VArray []);
  ("acceleratorMetadata", VUndefined);
  ("acceleratorSettings", VUndefined) ].

(** [new GlobalConfig(props, values)]; [values] is [VUndefined] when the
    caller leaves it out. *)
Definition constructor (props values : value) : result value :=
  if truthyValue values then
    Ok (VObject (Object_assign fieldDefaults values))
  else
    match get props "homeRegion" with
    | Throw e => Throw e
    | Ok homeRegion =>
        let this := setProp "homeRegion" homeRegion fieldDefaults in
        let this := setProp "enabledRegions" (VArray [homeRegion]) this in
        match get props "controlTower" with
        | Throw e => Throw e
        | Ok controlTower =>
            let this :=
              setProp "controlTower" (spreadWith controlTower "controls" (VArray [])) this in
            match get props "managementAccountAccessRole" with
            | Throw e => Throw e
            | Ok role => Ok (VObject (setProp "managementAccountAccessRole" role this))
            end
        end
    end.

(** The object literal
    [{ homeRegion, controlTower, managementAccountAccessRole }] that [load]
    and [fromObject] build from the parsed values. *)
Definition requiredProps (values : value) : result value :=
  match get values "homeRegion" with
  | Throw e => Throw e
  | Ok homeRegion =>
      match get values "controlTower" with
      | Throw e => Throw e
      | Ok controlTower =>
          match get values "managementAccountAccessRole" with
          | Throw e => Throw e
          | Ok role =>
              Ok (VObject [ ("homeRegion", homeRegion);
                            ("controlTower", controlTower);
                            ("managementAccountAccessRole", role) ])
          end
      end
  end.

Section Loaders.
Context `{CommonTypes} `{Libraries}.

(** [GlobalConfig.load(dir)] *)
Definition load (dir : string) : M World value :=
  (buffer <- readFileSync (path_join dir FILENAME);;
   content <- lift (yaml_load buffer);;
   values <- lift (parse GlobalConfigTypes.globalConfig content);;
   props <- lift (requiredProps values);;
   lift (constructor props values))%monad.

(** [GlobalConfig.loadFromString(content)] *)
Definition loadFromString (content : string) : M World value :=
  try_catch
    (doc <- lift (yaml_load content);;
     values <- lift (parse GlobalConfigTypes.globalConfig doc);;
     lift (constructor values VUndefined))%monad
    (fun e =>
       console_error "Error parsing input, global config undefined";;;
       console_error (toString e);;;
       throw (Error "Could not load global configuration"))%monad.

(** [GlobalConfig.fromObject(content)] *)
Definition fromObject (content : value) : result value :=
  match parse GlobalConfigTypes.globalConfig content with
  | Throw e => Throw e
  | Ok values =>
      match requiredProps values with
      | Throw e => Throw e
      | Ok props => constructor props values
      end
  end.

End Loaders.

End GlobalConfig.

(** ** [GlobalConfig]: the names of the topics *)

(** [items.flatMap(f)]: the results of [f] on the items, in order, a
    result that is an array being spliced in. *)
Fixpoint flatMap (f : value -> result value) (items : list value) : result (list value) :=
  match items with
  | [] => Ok []
  | item :: rest =>
      match f item with
      | Throw e => Throw e
      | Ok y =>
          match flatMap f rest with
          | Throw e => Throw e
          | Ok ys =>
              Ok (match y with
                  | VArray inner => inner ++ ys
                  | _ => y :: ys
                  end)
          end
      end
  end.

(** [getSnsTopicNames()]:
    [this.snsTopics?.topics.flatMap(item => item.name) ?? []]. The optional
    chain ends at an [snsTopics] that is [undefined] or [null]; an
    [snsTopics] without [topics] makes the call of [flatMap] throw. *)
Definition getSnsTopicNames (this : value) : result value :=
  match field this "snsTopics" with
  | VUndefined | VNull => Ok (VArray [])
  | snsTopics =>
      match field snsTopics "topics" with
      | VArray items =>
          match flatMap (fun item => get item "name") items with
          | Ok names => Ok (VArray names)
          | Throw e => Throw e
          end
      | VUndefined =>
          Throw (TypeError "Cannot read properties of undefined (reading 'flatMap')")
      | VNull => Throw (TypeError "Cannot read properties of null (reading 'flatMap')")
      | _ => Throw (TypeError "this.snsTopics?.topics.flatMap is not a function")
      end
  end.

(** ** The services *)

Record S3Client := { s3Region : string }.

Record GetObjectOutput := { Body : option string }.

Record AssumeRoleCommandInput := {
  RoleArn : string;
  RoleSessionName : string;
  DurationSeconds : Z
}.

Record Credentials := {
  AccessKeyId : option string;
  SecretAccessKey : option string;
  SessionToken : option string
}.

Record AssumeRoleCommandOutput := { assumedCredentials : option Credentials }.

Record SSMClient := {
  accessKeyId : option string;
  secretAccessKey : option string;
  sessionToken : option string;
  ssmRegion : string
}.

Record SSMParameter := { Name : string; Value : string }.

Record GetParametersByPathCommand := {
  Path : string;
  MaxResults : Z;
  NextToken : option string;
  Recursive : bool
}.

Record GetParametersByPathOutput := {
  Parameters : option (list SSMParameter);
  outNextToken : option string
}.

(** What the three services answer. A request is a function of its
    arguments: the answer to a request does not change while the
    reconciler runs. *)
Class Aws := {
  s3_getObject : S3Client -> GetObjectRequest -> result GetObjectOutput;
  sts_send : string -> AssumeRoleCommandInput -> result (option AssumeRoleCommandOutput);
  ssm_send : SSMClient -> GetParametersByPathCommand -> result GetParametersByPathOutput
}.

(** Modelled from the spec: [throttlingBackOff] of [../common/aws/backoff],
    which is not among the sources at hand. A throttled call is retried
    behind the caller's back, so what the caller sees is the outcome of the
    call once the retries are over. *)
Definition throttlingBackOff {A} (call : result A) : result A := call.

(** What is known of a promise: settled with a value or an exception, or
    ([None]) never settled. *)
Abbreviation promise A := (option (result A)).

(** [Promise.all]: rejected as soon as one promise is rejected (the first
    one of the array stands for it), unsettled when none is rejected and one
    never settles, and otherwise fulfilled with all the values. *)
Fixpoint firstRejection {A} (l : list (promise A)) : option exn :=
  match l with
  | [] => None
  | Some (Throw e) :: _ => Some e
  | _ :: l' => firstRejection l'
  end.

Fixpoint allValues {A} (l : list (promise A)) : option (list A) :=
  match l with
  | [] => Some []
  | Some (Ok a) :: l' => cons a <$> allValues l'
  | _ :: _ => None
  end.

Definition Promise_all {A} (l : list (promise A)) : promise (list A) :=
  match firstRejection l with
  | Some e => Some (Throw e)
  | None => Ok <$> allValues l
  end.

(** ** Phase of a stack, as [setTemplateMap] derives it from the name *)

Definition derivePhase (stackName : string) : number :=
  let phaseIdentifierIndex := indexOf "Phase" stackName + 5 in
  match charAt stackName phaseIdentifierIndex with
  | None => NaN
  | Some c => if Ascii.eqb c "-"%char then Int (-1) else Number_char c
  end.

(** ** The configuration as the reconciler sees it *)

Module AseaStackInfo.
Record t := {
  accountId : string;
  accountKey : string;
  region : string;
  stackName : string;
  resources : list CfnResourceType;
  templatePath : path;
  phase : number;
  nestedStack : bool
}.
End AseaStackInfo.

(** The object behind [this.externalLandingZoneResources]. The four
    fields of the external landing zone state are optional: an object that
    comes from a parsed document has none of them until the reconciler
    writes them. *)
Record externalLandingZoneResourcesConfig := {
  importExternalLandingZoneResources : bool;
  mappingFileBucket : option string;
  acceleratorPrefix : string;
  acceleratorName : string;
  templateMap : option (list AseaStackInfo.t);
  resourceList : option value;
  accountsDeployedExternally : option (list string);
  resourceParameters : option (gmap string (gmap string string))
}.

(** The fields of a [GlobalConfig] that the reconciler reads or writes. *)
Record config := {
  homeRegion : string;
  enabledRegions : list string;
  managementAccountAccessRole : string;
  externalLandingZoneResources : option externalLandingZoneResourcesConfig
}.

(** The state of an instance method: the instance and the world. *)
Record System := { this : config; world : World }.

Definition liftW {A} (m : M World A) : M System A :=
  fun s =>
    let '(r, w) := m (world s) in
    (r, {| this := this s; world := w |}).

(** [this.externalLandingZoneResources = f(this.externalLandingZoneResources)] *)
Definition updateExternal
    (f : externalLandingZoneResourcesConfig -> externalLandingZoneResourcesConfig)
    (s : System) : System :=
  {| this := {| homeRegion := homeRegion (this s);
                enabledRegions := enabledRegions (this s);
                managementAccountAccessRole := managementAccountAccessRole (this s);
                externalLandingZoneResources := f <$> externalLandingZoneResources (this s) |};
     world := world s |}.

Definition setTemplateMapField (l : list AseaStackInfo.t)
    (e : externalLandingZoneResourcesConfig) : externalLandingZoneResourcesConfig :=
  {| importExternalLandingZoneResources := importExternalLandingZoneResources e;
     mappingFileBucket := mappingFileBucket e;
     acceleratorPrefix := acceleratorPrefix e;
     acceleratorName := acceleratorName e;
     templateMap := Some l;
     resourceList := resourceList e;
     accountsDeployedExternally := accountsDeployedExternally e;
     resourceParameters := resourceParameters e |}.

Definition setResourceList (v : value)
    (e : externalLandingZoneResourcesConfig) : externalLandingZoneResourcesConfig :=
  {| importExternalLandingZoneResources := importExternalLandingZoneResources e;
     mappingFileBucket := mappingFileBucket e;
     acceleratorPrefix := acceleratorPrefix e;
     acceleratorName := acceleratorName e;
     templateMap := templateMap e;
     resourceList := Some v;
     accountsDeployedExternally := accountsDeployedExternally e;
     resourceParameters := resourceParameters e |}.

Definition setAccountsDeployedExternally (l : list string)
    (e : externalLandingZoneResourcesConfig) : externalLandingZoneResourcesConfig :=
  {| importExternalLandingZoneResources := importExternalLandingZoneResources e;
     mappingFileBucket := mappingFileBucket e;
     acceleratorPrefix := acceleratorPrefix e;
     acceleratorName := acceleratorName e;
     templateMap := templateMap e;
     resourceList := resourceList e;
     accountsDeployedExternally := Some l;
     resourceParameters := resourceParameters e |}.

Definition setResourceParameters (m : gmap string (gmap string string))
    (e : externalLandingZoneResourcesConfig) : externalLandingZoneResourcesConfig :=
  {| importExternalLandingZoneResources := importExternalLandingZoneResources e;
     mappingFileBucket := mappingFileBucket e;
     acceleratorPrefix := acceleratorPrefix e;
     acceleratorName := acceleratorName e;
     templateMap := templateMap e;
     resourceList := resourceList e;
     accountsDeployedExternally := accountsDeployedExternally e;
     resourceParameters := Some m |}.

(** [this.externalLandingZoneResources?.importExternalLandingZoneResources] *)
Definition importEnabled (c : config) : bool :=
  match externalLandingZoneResources c with
  | Some e => importExternalLandingZoneResources e
  | None => false
  end.

(** [path.join(a, b)] where the result is used as the prefix of a name. *)
Definition joinNames (a b : string) : string := a +:+ "/" +:+ b.

(** ** Nested stacks *)

Definition markNested (d : AseaStackInfo.t) : AseaStackInfo.t :=
  {| AseaStackInfo.accountId := AseaStackInfo.accountId d;
     AseaStackInfo.accountKey := AseaStackInfo.accountKey d;
     AseaStackInfo.region := AseaStackInfo.region d;
     AseaStackInfo.stackName := AseaStackInfo.stackName d;
     AseaStackInfo.resources := AseaStackInfo.resources d;
     AseaStackInfo.templatePath := AseaStackInfo.templatePath d;
     AseaStackInfo.phase := AseaStackInfo.phase d;
     AseaStackInfo.nestedStack := true |}.

(** Whether [physicalId.includes(`:stack/${stackName}/`)] *)
Definition namedIn (physicalId stackName : string) : Prop :=
  includes (":stack/" +:+ stackName +:+ "/") physicalId = true.

#[global] Instance namedIn_dec physicalId stackName : Decision (namedIn physicalId stackName).
Proof. unfold namedIn. apply _. Defined.

Definition mentions (physicalId : string) (stack : AseaStackInfo.t) : Prop :=
  namedIn physicalId (AseaStackInfo.stackName stack).

#[global] Instance mentions_dec physicalId stack : Decision (mentions physicalId stack).
Proof. unfold mentions. apply _. Defined.

(** One round of the last loop of [setTemplateMap]: [findIndex] gives the
    first stack that the identifier mentions, and that one is marked. *)
Definition markNestedStack (aseaStacks : list AseaStackInfo.t) (physicalId : string)
  : list AseaStackInfo.t :=
  match list_find (mentions physicalId) aseaStacks with
  | Some (found, _) => alter markNested found aseaStacks
  | None => aseaStacks
  end.

(** The identifiers that the inner loop over [stack.resourceMap] pushes. *)
Definition nestedStackIdsOf (stack : StackAndResourceMap) : list string :=
  physicalResourceId <$>
    filter (fun r => resourceType r = "AWS::CloudFormation::Stack") (resourceMap stack).

Section Reconciler.
Context `{CommonTypes} `{Libraries} `{Aws}.

(** *** [setTemplateMap] *)

(** [this.externalLandingZoneResources?.accountsDeployedExternally.push(id)] *)
Definition pushAccount (id : string) : M System unit :=
  fun s =>
    match externalLandingZoneResources (this s) with
    | None => (Ok tt, s)
    | Some e =>
        match accountsDeployedExternally e with
        | None => (Throw (TypeError "Cannot read properties of undefined (reading 'push')"), s)
        | Some l => (Ok tt, updateExternal (setAccountsDeployedExternally (l ++ [id])%list) s)
        end
    end.

(** The body of the loop over the stacks of an account. The accumulator
    is [aseaStacks] with [nestedStackPhysicalIds]. *)
Definition processStack (account : AccountMapping)
    (acc : list AseaStackInfo.t * list string) (stack : StackAndResourceMap)
  : M System (list AseaStackInfo.t * list string) :=
  (let phase := derivePhase (stackName stack) in
   tmp <- gets (fun s => tmpdir (world s));;
   tempDirPath <- liftW (mkdtemp (joinNames tmp "asea-templates-"));;
   let templatePath := path_join tempDirPath (stackName stack +:+ ".json") in
   liftW (writeFile templatePath (JSON_stringify (template stack)));;;
   ret ((fst acc ++ [ {| AseaStackInfo.accountId := accountId account;
                        AseaStackInfo.accountKey := accountKey account;
                        AseaStackInfo.region := region stack;
                        AseaStackInfo.stackName := stackName stack;
                        AseaStackInfo.resources := resourceMap stack;
                        AseaStackInfo.templatePath := templatePath;
                        AseaStackInfo.phase := phase;
                        AseaStackInfo.nestedStack := truthy (parentStack stack) |} ])%list,
        (snd acc ++ nestedStackIdsOf stack)%list))%monad.

(** The body of the loop over the accounts. *)
Definition processAccount (aseaStacks : list AseaStackInfo.t) (account : AccountMapping)
  : M System (list AseaStackInfo.t) :=
  (pushAccount (accountId account);;;
   acc <- forM (stacksAndResourceMapList account) (aseaStacks, []) (processStack account);;
   ret (fold_left markNestedStack (snd acc) (fst acc)))%monad.

(** [setTemplateMap(mappingJson)]; [None] is [undefined], over which
    [for ... of] cannot iterate. *)
Definition setTemplateMap (mappingJson : option (list AccountMapping))
  : M System (list AseaStackInfo.t) :=
  match mappingJson with
  | None => throw (TypeError "mappingJson is not iterable")
  | Some accounts => forM accounts [] processAccount
  end.

(** *** Reading the manifest *)

Definition getObject (s3Client : S3Client) (request : GetObjectRequest)
  : M System GetObjectOutput :=
  (liftW (recordRequest request);;;
   lift (s3_getObject s3Client request))%monad.

Definition clientOr (s3Client : option S3Client) (c : config) : S3Client :=
  match s3Client with
  | Some client => client
  | None => {| s3Region := homeRegion c |}
  end.

(** [loadExternalMappingFromS3(s3Client)] *)
Definition loadExternalMappingFromS3 (s3Client : option S3Client)
  : M System (option (list AccountMapping)) :=
  (c <- gets this;;
   match externalLandingZoneResources c with
   | Some e =>
       if importExternalLandingZoneResources e && truthy (mappingFileBucket e) then
         let bucket := default "" (mappingFileBucket e) in
         mappingFile <- getObject (clientOr s3Client c)
                          {| Bucket := bucket; Key := "mapping.json" |};;
         match Body mappingFile with
         | None =>
             liftW (console_error
               ("Could not load mapping file from path s3://" +:+ bucket +:+ "/mapping.json"));;;
             throw (Error "Runtime error")
         | Some body =>
             mapping <- lift (JSON_parse_mapping body);;
             ret (Some mapping)
         end
       else ret None
   | None => ret None
   end)%monad.

(** [readJsonFromExternalS3(objectKey, s3Client)] *)
Definition readJsonFromExternalS3 (objectKey : string) (s3Client : option S3Client)
  : M System (option value) :=
  (c <- gets this;;
   match externalLandingZoneResources c with
   | Some e =>
       if importExternalLandingZoneResources e && truthy (mappingFileBucket e) then
         let bucket := default "" (mappingFileBucket e) in
         try_catch
           (response <- getObject (clientOr s3Client c)
                          {| Bucket := bucket; Key := objectKey |};;
            match Body response with
            | None =>
                liftW (console_error
                  ("Could not load mapping file from path s3://" +:+ bucket
                     +:+ "/" +:+ objectKey));;;
                ret None
            | Some body =>
                v <- lift (JSON_parse body);;
                ret (Some v)
            end)
           (fun e =>
              if bool_decide (code e = Some "NoSuchKey") then ret None else throw e)
       else
         throw (Error "readJsonFromExternalS3 can only be called when importExternalLandingZoneResources set as true and mappingFileBucket is provided")
   | None =>
       throw (Error "readJsonFromExternalS3 can only be called when importExternalLandingZoneResources set as true and mappingFileBucket is provided")
   end)%monad.

(** [readJsonFromDisk(mappingFilePath)], with the reader of the JSON
    text that the caller expects. *)
Definition readJsonFromDisk {A} (JSON_read : string -> result A) (mappingFilePath : path)
  : M System A :=
  (mappingFile <- liftW (readFileSync mappingFilePath);;
   lift (JSON_read mappingFile))%monad.

(** [x || []] on what [readJsonFromExternalS3] returns. *)
Definition orEmptyArray (v : option value) : value :=
  match v with
  | Some v => if truthyValue v then v else VArray []
  | None => VArray []
  end.

(** The branch of [loadExternalMapping] that reads the local cache. *)
Definition loadFromDisk (aseaMappingPath aseaResourceListPath : path) : M System unit :=
  (mapping <- readJsonFromDisk JSON_parse_mapping aseaMappingPath;;
   stacks <- setTemplateMap (Some mapping);;
   modify (updateExternal (setTemplateMapField stacks));;;
   list <- readJsonFromDisk JSON_parse aseaResourceListPath;;
   modify (updateExternal (setResourceList list)))%monad.

(** The branch of [loadExternalMapping] that fetches the manifest from the
    bucket and writes the local cache. [JSON.stringify(undefined)] is not
    a string and cannot be written. *)
Definition loadFromBucket (c : config) (aseaMappingPath aseaResourceListPath : path)
  : M System unit :=
  (let s3Client := Some {| s3Region := homeRegion c |} in
   mapping <- loadExternalMappingFromS3 s3Client;;
   stacks <- setTemplateMap mapping;;
   modify (updateExternal (setTemplateMapField stacks));;;
   fetched <- readJsonFromExternalS3 "aseaResources.json" s3Client;;
   let list := orEmptyArray fetched in
   modify (updateExternal (setResourceList list));;;
   match mapping with
   | None => throw (TypeError "The data argument must be of type string")
   | Some m => liftW (writeFile aseaMappingPath (JSON_stringify_mapping m))
   end;;;
   liftW (writeFile aseaResourceListPath (JSON_stringify list)))%monad.

(** [loadExternalMapping(loadFromCache)]. The second test of
    [this.externalLandingZoneResources], after the paths are made, cannot
    fail: the object has just been written to. *)
Definition loadExternalMapping (loadFromCache : bool) : M System unit :=
  (c <- gets this;;
   if negb (importEnabled c) then ret tt
   else
     modify (updateExternal (setAccountsDeployedExternally []));;;
     tmp <- gets (fun s => tmpdir (world s));;
     tempDirPath <- liftW (mkdtemp (joinNames tmp "asea-assets"));;
     let aseaMappingPath := path_join tempDirPath "aseaMapping.json" in
     let aseaResourceListPath := path_join tempDirPath "aseaResources.json" in
     cached <- gets (fun s => existsSync aseaMappingPath (world s));;
     if loadFromCache && cached
     then loadFromDisk aseaMappingPath aseaResourceListPath
     else loadFromBucket c aseaMappingPath aseaResourceListPath)%monad.

(** *** Parameters of the accounts *)

(** [parameters[parameter.Name] = parameter.Value] for a page. *)
Definition addParameters (parameters : gmap string string) (page : option (list SSMParameter))
  : gmap string string :=
  fold_left (fun m p => <[Name p := Value p]> m) (default [] page) parameters.

(** The [do ... while (nextToken)] loop of [getParametersByPath]. A
    round sends one request; [fuel] bounds the number of rounds, and the
    promise is not settled when the rounds run out. *)
Fixpoint getParametersByPath_loop (fuel : nat) (path : string) (ssmClient : SSMClient)
    (parameters : gmap string string) (nextToken : option string)
  : promise (gmap string string) :=
  match fuel with
  | O => None
  | S fuel' =>
      match throttlingBackOff
              (ssm_send ssmClient {| Path := path; MaxResults := 10;
                                     NextToken := nextToken; Recursive := true |}) with
      | Throw e => Some (Throw e)
      | Ok parametersOutput =>
          let nextToken := outNextToken parametersOutput in
          let parameters := addParameters parameters (Parameters parametersOutput) in
          if truthy nextToken
          then getParametersByPath_loop fuel' path ssmClient parameters nextToken
          else Some (Ok parameters)
      end
  end.

(** [getParametersByPath(path, ssmClient)] *)
Definition getParametersByPath (fuel : nat) (path : string) (ssmClient : SSMClient)
  : promise (gmap string string) :=
  getParametersByPath_loop fuel path ssmClient ∅ None.

(** [getCrossAccountCredentials(accountId, region, partition, role)] with
    the default session name. *)
Definition getCrossAccountCredentials
    (accountId region partition managementAccountAccessRole : string)
  : M System AssumeRoleCommandOutput :=
  let sessionName := "acceleratorResourceMapping" in
  let stsParams := {|
    RoleArn := "arn:" +:+ partition +:+ ":iam::" +:+ accountId +:+ ":role/"
                 +:+ managementAccountAccessRole;
    RoleSessionName := sessionName;
    DurationSeconds := 900 |} in
  try_catch
    (assumeRoleCredential <- lift (throttlingBackOff (sts_send region stsParams));;
     match assumeRoleCredential with
     | Some output => ret output
     | None =>
         throw (Error ("Error assuming role " +:+ managementAccountAccessRole
                         +:+ " in account " +:+ accountId +:+ " for bootstrap checks"))
     end)%monad
    (fun e =>
       liftW (console_error (JSON_stringify_error e));;;
       throw (Error (message e)))%monad.

(** [getCrossAccountSsmClient(region, assumeRoleCredential)]: reading
    [AccessKeyId] of missing credentials throws. *)
Definition getCrossAccountSsmClient (region : string)
    (assumeRoleCredential : AssumeRoleCommandOutput) : result SSMClient :=
  match assumedCredentials assumeRoleCredential with
  | None => Throw (TypeError "Cannot read properties of undefined (reading 'AccessKeyId')")
  | Some c =>
      Ok {| accessKeyId := AccessKeyId c;
            secretAccessKey := SecretAccessKey c;
            sessionToken := SessionToken c;
            ssmRegion := region |}
  end.

Definition getSsmPath (prefix resourceType : string) : string :=
  "/" +:+ prefix +:+ resourceType.

(** [{ ...resources, ...result }] folded over the four results. *)
Definition mergeResults (ssmResults : list (gmap string string)) : gmap string string :=
  fold_left (fun resources result => result ∪ resources) ssmResults ∅.

(** [this.externalLandingZoneResources.resourceParameters[key] = params] *)
Definition commitParameters (key : string) (params : gmap string string)
  : M System unit :=
  fun s =>
    match externalLandingZoneResources (this s) with
    | None => (Throw (TypeError "Cannot read properties of undefined (reading 'resourceParameters')"), s)
    | Some e =>
        match resourceParameters e with
        | None => (Throw (TypeError "Cannot set properties of undefined"), s)
        | Some m => (Ok tt, updateExternal (setResourceParameters (<[key := params]> m)) s)
        end
    end.

(** The body of the loop of [loadRegionLzaResources] for one account.
    The outcome is [None] when one of the four queries never settles. *)
Definition reconcileAccount (fuel : nat) (region partition prefix accountId : string)
    (s : System) : promise unit * System :=
  match getCrossAccountCredentials accountId region partition
          (managementAccountAccessRole (this s)) s with
  | (Throw e, s') => (Some (Throw e), s')
  | (Ok crossAccountCredentials, s') =>
      match getCrossAccountSsmClient region crossAccountCredentials with
      | Throw e => (Some (Throw e), s')
      | Ok ssmClient =>
          let ssmPromises := [
            getParametersByPath fuel (getSsmPath prefix AseaResourceTypePaths_IAM) ssmClient;
            getParametersByPath fuel (getSsmPath prefix AseaResourceTypePaths_VPC) ssmClient;
            getParametersByPath fuel (getSsmPath prefix AseaResourceTypePaths_TRANSIT_GATEWAY) ssmClient;
            getParametersByPath fuel (getSsmPath prefix AseaResourceTypePaths_VPC_PEERING) ssmClient ] in
          match Promise_all ssmPromises with
          | None => (None, s')
          | Some (Throw e) => (Some (Throw e), s')
          | Some (Ok ssmResults) =>
              let '(r, s'') :=
                commitParameters (accountId +:+ "-" +:+ region) (mergeResults ssmResults) s' in
              (Some r, s'')
          end
      end
  end.

(** The loop of [loadRegionLzaResources] over the accounts, run alone. *)
Fixpoint loadRegionLzaResources_loop (fuel : nat) (region partition prefix : string)
    (accounts : list string) (s : System) : promise unit * System :=
  match accounts with
  | [] => (Some (Ok tt), s)
  | accountId :: rest =>
      match reconcileAccount fuel region partition prefix accountId s with
      | (Some (Ok _), s') => loadRegionLzaResources_loop fuel region partition prefix rest s'
      | (other, s') => (other, s')
      end
  end.

(** [loadRegionLzaResources(region, partition, prefix, accounts)] *)
Definition loadRegionLzaResources (fuel : nat) (region partition prefix : string)
    (accounts : list string) (s : System) : promise unit * System :=
  if negb (importEnabled (this s)) then (Some (Ok tt), s)
  else loadRegionLzaResources_loop fuel region partition prefix accounts s.

(** *** The fan-out over the regions

    [loadLzaResources] starts one call of [loadRegionLzaResources] per
    enabled region and awaits them together. The calls share the
    instance and take turns at their [await]s; which one goes on next is
    not decided by the code. A task is a started call: its region and the
    accounts its loop has yet to visit. A schedule names, turn by turn,
    the task that runs its next round. *)

Record task := { taskRegion : string; pending : list string }.

(** What the caller of [loadLzaResources] sees. *)
Inductive outcome :=
| Resolved
| Rejected (e : exn)
| Unsettled.

(** The call [loadRegionLzaResources(region, ...)] up to its loop. *)
Definition startTask (accounts : list string) (s : System) (region : string) : task :=
  {| taskRegion := region;
     pending := if negb (importEnabled (this s)) then [] else accounts |}.

(** One turn of task [i]: the next round of its loop. The result is the
    exception of the round, if it threw one. *)
Definition turn (fuel : nat) (partition prefix : string) (i : nat)
    (tasks : list task) (s : System) : option exn * list task * System :=
  match tasks !! i with
  | Some {| taskRegion := region; pending := accountId :: rest |} =>
      match reconcileAccount fuel region partition prefix accountId s with
      | (Some (Ok _), s') =>
          (None, <[i := {| taskRegion := region; pending := rest |}]> tasks, s')
      | (Some (Throw e), s') => (Some e, tasks, s')
      | (None, s') => (None, tasks, s')
      end
  | _ => (None, tasks, s)
  end.

(** When the schedule is used up, the tasks run to their ends one after
    the other. [stuck] tells whether a task before has been found never to
    settle. *)
Fixpoint finish (fuel : nat) (partition prefix : string) (stuck : bool)
    (tasks : list task) (s : System) : outcome * System :=
  match tasks with
  | [] => (if stuck then Unsettled else Resolved, s)
  | t :: tasks' =>
      match loadRegionLzaResources_loop fuel (taskRegion t) partition prefix (pending t) s with
      | (Some (Ok _), s') => finish fuel partition prefix stuck tasks' s'
      | (Some (Throw e), s') => (Rejected e, s')
      | (None, s') => finish fuel partition prefix true tasks' s'
      end
  end.

(** [await Promise.all(lzaResourcesPromises)] under a schedule: the call
    is rejected at the first round that throws. *)
Fixpoint awaitAll (fuel : nat) (partition prefix : string) (schedule : list nat)
    (tasks : list task) (s : System) : outcome * System :=
  match schedule with
  | [] => finish fuel partition prefix false tasks s
  | i :: schedule' =>
      match turn fuel partition prefix i tasks s with
      | (Some e, _, s') => (Rejected e, s')
      | (None, tasks', s') => awaitAll fuel partition prefix schedule' tasks' s'
      end
  end.

(** [this.externalLandingZoneResources.resourceParameters ||= {}] *)
Definition ensureResourceParameters
    (e : externalLandingZoneResourcesConfig) : externalLandingZoneResourcesConfig :=
  match resourceParameters e with
  | Some _ => e
  | None => setResourceParameters ∅ e
  end.

(** [loadLzaResources(partition, prefix)] *)
Definition loadLzaResources (fuel : nat) (schedule : list nat) (partition prefix : string)
    (s : System) : outcome * System :=
  if negb (importEnabled (this s)) then (Resolved, s)
  else
    let s := updateExternal ensureResourceParameters s in
    let accounts :=
      default [] (externalLandingZoneResources (this s) ≫= accountsDeployedExternally) in
    let lzaResourcesPromises := map (startTask accounts s) (enabledRegions (this s)) in
    awaitAll fuel partition prefix schedule lzaResourcesPromises s.

End Reconciler.

(** ** [GlobalConfig]: saving the resource list *)

(** [s3Client.putObject(request)] *)
Record PutObjectRequest := {
  putBucket : string;
  putKey : string;
  putBody : string;
  ServerSideEncryption : string
}.

(** What the bucket answers to a [putObject]. *)
Class S3Writer := {
  s3_putObject : S3Client -> PutObjectRequest -> result unit
}.

Section Saving.
Context `{Libraries} `{S3Writer}.

(** [saveAseaResourceMapping(resources)] on the instance [c]; the state
    is the log of the [putObject] requests sent so far. *)
Definition saveAseaResourceMapping (resources : value) (c : config)
  : M (list (S3Client * PutObjectRequest)) unit :=
  match externalLandingZoneResources c with
  | Some e =>
      if importExternalLandingZoneResources e && truthy (mappingFileBucket e) then
        let s3Client := {| s3Region := homeRegion c |} in
        let request := {| putBucket := default "" (mappingFileBucket e);
                          putKey := "aseaResources.json";
                          putBody := JSON_stringify resources;
                          ServerSideEncryption := "AES256" |} in
        (modify (fun log => log ++ [(s3Client, request)]);;;
         lift (s3_putObject s3Client request))%monad
      else
        throw (Error "saveAseaResourceMapping can only be called when importExternalLandingZoneResources set as true and mappingFileBucket is provided")
  | None =>
      throw (Error "saveAseaResourceMapping can only be called when importExternalLandingZoneResources set as true and mappingFileBucket is provided")
  end.

End Saving.

(** ** Vocabulary of the statements *)

Section Conformance.
Context `{CommonTypes}.

(** A document that conforms to the root schema. *)
Definition conforms (D : value) : Prop :=
  validate [] GlobalConfigTypes.globalConfig D = None.

End Conformance.

(** The required top-level fields of a configuration are those of the
    document, and they are populated. *)
Definition requiredFieldsFrom (D cfg : value) : Prop :=
  field cfg "homeRegion" = field D "homeRegion" /\
  field cfg "managementAccountAccessRole" = field D "managementAccountAccessRole" /\
  field (field cfg "controlTower") "enable" = field (field D "controlTower") "enable" /\
  (exists r, field cfg "homeRegion" = VString r /\ r <> "") /\
  (exists r, field cfg "managementAccountAccessRole" = VString r /\ r <> "") /\
  (exists b, field (field cfg "controlTower") "enable" = VBool b).

(** [homeRegion] is an element of [enabledRegions]. *)
Definition homeRegionEnabled (cfg : value) : Prop :=
  exists regions, field cfg "enabledRegions" = VArray regions /\
                  field cfg "homeRegion" ∈ regions.

(** The bucket that the configuration names for the manifest. *)
Definition configuredBucket (c : config) : option string :=
  externalLandingZoneResources c ≫= mappingFileBucket.

(** The stacks of a manifest, in the order in which [setTemplateMap]
    visits them. *)
Definition manifestStacks (accounts : list AccountMapping) : list StackAndResourceMap :=
  concat (map stacksAndResourceMapList accounts).

(** The identifiers of nested stacks that [setTemplateMap] collects for an
    account. *)
Definition nestedStackPhysicalIds (account : AccountMapping) : list string :=
  concat (map nestedStackIdsOf (stacksAndResourceMapList account)).

(** The entries of a sequence of pages, in the order of arrival. *)
Definition pageEntries (pages : list GetParametersByPathOutput) : list SSMParameter :=
  concat (map (fun page => default [] (Parameters page)) pages).

(** The value that was seen last for a name, if the name was seen. *)
Definition lastValue (k : string) (entries : list SSMParameter) : option string :=
  Value <$> last (filter (fun p => Name p = k) entries).

Section Served.
Context `{Aws}.

(** [served ssmClient path token pages]: asked for [path] with [token],
    and then with the token of each page in turn, the parameter store
    answers with [pages]; every page but the last carries a token. *)
Inductive served (ssmClient : SSMClient) (path : string)
  : option string -> list GetParametersByPathOutput -> Prop :=
| served_last token page :
    ssm_send ssmClient {| Path := path; MaxResults := 10;
                          NextToken := token; Recursive := true |} = Ok page ->
    truthy (outNextToken page) = false ->
    served ssmClient path token [page]
| served_next token page pages :
    ssm_send ssmClient {| Path := path; MaxResults := 10;
                          NextToken := token; Recursive := true |} = Ok page ->
    truthy (outNextToken page) = true ->
    served ssmClient path (outNextToken page) pages ->
    served ssmClient path token (page :: pages).

End Served.

(** What relates a descriptor to the stack of the manifest it stands for. *)
Definition describes (d : AseaStackInfo.t) (stack : StackAndResourceMap) : Prop :=
  AseaStackInfo.stackName d = stackName stack /\
  (truthy (parentStack stack) = true -> AseaStackInfo.nestedStack d = true).

(** What holds of [aseaStacks] when the accounts [done] have been
    visited. *)
Definition visited (done : list AccountMapping) (aseaStacks : list AseaStackInfo.t)
  : Prop :=
  Forall2 describes aseaStacks (manifestStacks done) /\
  forall (m : nat) account physicalId (j : nat) n,
    done !! m = Some account ->
    physicalId ∈ nestedStackPhysicalIds account ->
    list_find (namedIn physicalId) (stackName <$> manifestStacks (take (S m) done))
      = Some (j, n) ->
    exists d, aseaStacks !! j = Some d /\ AseaStackInfo.nestedStack d = true.

(** [stable R m]: the states before and after [m] are related by [R],
    whatever the outcome. *)
Definition stable {S A} (R : S -> S -> Prop) (m : M S A) : Prop :=
  forall s r s', m s = (r, s') -> R s s'.

(** [follows s s']: the requests sent before [s] are still the first ones
    of the log of [s'], and the settings of the instance are the same. *)
Definition follows (s s' : System) : Prop :=
  s3Requests (world s) `prefix_of` s3Requests (world s') /\
  importEnabled (this s') = importEnabled (this s) /\
  configuredBucket (this s') = configuredBucket (this s) /\
  homeRegion (this s') = homeRegion (this s).

(** [quiet s s']: no request has been sent to the bucket from [s] to [s']. *)
Definition quiet (s s' : System) : Prop :=
  s3Requests (world s') = s3Requests (world s).

(** A setter of the external landing zone state leaves the settings. *)
Definition keepsSettings
    (f : externalLandingZoneResourcesConfig -> externalLandingZoneResourcesConfig) : Prop :=
  forall e,
    importExternalLandingZoneResources (f e) = importExternalLandingZoneResources e /\
    mappingFileBucket (f e) = mappingFileBucket e.

(** [this.externalLandingZoneResources.resourceParameters] *)
Definition parametersOf (s : System) : option (gmap string (gmap string string)) :=
  externalLandingZoneResources (this s) ≫= resourceParameters.

(** [kept regions accounts s s']: from [s] to [s'] the reconciler has
    at most written entries for the given accounts and regions. The role and
    the import setting are the same; if [resourceParameters] was there, it
    is still there, every key that was bound is still bound, and the entries
    under the keys of other pairs are the same. *)
Definition kept (regions accounts : list string) (s s' : System) : Prop :=
  managementAccountAccessRole (this s') = managementAccountAccessRole (this s) /\
  importEnabled (this s') = importEnabled (this s) /\
  forall m, parametersOf s = Some m ->
    exists m', parametersOf s' = Some m' /\
      dom m ⊆ dom m' /\
      forall key : string,
        (forall a r, a ∈ accounts -> r ∈ regions -> key <> a +:+ "-" +:+ r) ->
        m' !! key = m !! key.

(** The state in which the tasks run: the import is on and
    [resourceParameters] is there. *)
Definition ready (s : System) : Prop :=
  importEnabled (this s) = true /\ is_Some (parametersOf s).

(** The tasks of a pool work on the given regions and accounts. *)
Definition poolOk (regions accounts : list string) (tasks : list task) : Prop :=
  Forall (fun t => taskRegion t ∈ regions /\ pending t ⊆ accounts) tasks.

(** The object that the constructor builds from [props] alone. *)
Definition builtFrom (D : value) : value :=
  VObject
    (setProp "managementAccountAccessRole" (field D "managementAccountAccessRole")
       (setProp "controlTower" (spreadWith (field D "controlTower") "controls" (VArray []))
          (setProp "enabledRegions" (VArray [field D "homeRegion"])
             (setProp "homeRegion" (field D "homeRegion") GlobalConfig.fieldDefaults)))).

(** The object that the constructor builds by [Object.assign]. *)
Definition assignedFrom (D : value) : value :=
  VObject (Object_assign GlobalConfig.fieldDefaults D).

Section Failing.
Context `{CommonTypes} `{Libraries} `{Aws}.

(** A task that, run alone from [s], ends with an exception. *)
Definition fails (fuel : nat) (partition prefix : string) (s : System) (t : task) : Prop :=
  exists e,
    fst (loadRegionLzaResources_loop fuel (taskRegion t) partition prefix (pending t) s)
      = Some (Throw e).

End Failing.

(** ** More vocabulary *)

Section Refused.
Context `{Aws}.

(** [refusedAfter ssmClient path token n e]: asked for [path] with
    [token], the parameter store answers [n] pages that each carry a token,
    and then fails with [e]. *)
Inductive refusedAfter (ssmClient : SSMClient) (path : string)
  : option string -> nat -> exn -> Prop :=
| refused_now token e :
    ssm_send ssmClient {| Path := path; MaxResults := 10;
                          NextToken := token; Recursive := true |} = Throw e ->
    refusedAfter ssmClient path token 0 e
| refused_later token page n e :
    ssm_send ssmClient {| Path := path; MaxResults := 10;
                          NextToken := token; Recursive := true |} = Ok page ->
    truthy (outNextToken page) = true ->
    refusedAfter ssmClient path (outNextToken page) n e ->
    refusedAfter ssmClient path token (S n) e.

End Refused.

(** The stacks of a manifest with the accounts that own them, in the
    order in which [setTemplateMap] visits them. *)
Definition manifestEntries (accounts : list AccountMapping)
  : list (AccountMapping * StackAndResourceMap) :=
  concat (map (fun account => pair account <$> stacksAndResourceMapList account) accounts).

(** The descriptor that [setTemplateMap] pushes for a stack whose
    template goes to the directory [dir]. *)
Definition descriptorOf (entry : AccountMapping * StackAndResourceMap) (dir : string)
  : AseaStackInfo.t :=
  {| AseaStackInfo.accountId := accountId (fst entry);
     AseaStackInfo.accountKey := accountKey (fst entry);
     AseaStackInfo.region := region (snd entry);
     AseaStackInfo.stackName := stackName (snd entry);
     AseaStackInfo.resources := resourceMap (snd entry);
     AseaStackInfo.templatePath := path_join dir (stackName (snd entry) +:+ ".json");
     AseaStackInfo.phase := derivePhase (stackName (snd entry));
     AseaStackInfo.nestedStack := truthy (parentStack (snd entry)) |}.

Section TemplateFile.
Context `{Libraries}.

(** The directory that [setTemplateMap] makes for a stack: one file,
    the template of the stack. *)
Definition templateFile (stack : StackAndResourceMap) : gmap string string :=
  {[ stackName stack +:+ ".json" := JSON_stringify (template stack) ]}.

End TemplateFile.

(** A stack that [setTemplateMap] can write as the file system is
    modelled: its name has no path separator, so that
    [path.join(dir, name + '.json')] is a file of [dir], and it has a
    template to print. *)
Definition writable (stack : StackAndResourceMap) : Prop :=
  includes "/" (stackName stack) = false /\ template stack <> VUndefined.

(** [onlyAddsFiles s s']: from [s] to [s'] directories have been added to
    the file system and nothing else has happened in the world: what
    [s] holds is in [s'] as it was, and nothing went to the console or to
    the bucket. *)
Definition onlyAddsFiles (s s' : System) : Prop :=
  files (world s) ⊆ files (world s') /\
  tmpdir (world s') = tmpdir (world s) /\
  console (world s') = console (world s) /\
  s3Requests (world s') = s3Requests (world s).

(** Two descriptors that differ at most in the mark of a nested stack. *)
Definition sameButNested (d d' : AseaStackInfo.t) : Prop := markNested d = markNested d'.

(** [markedBy done j]: the stack at index [j] is the first one, among
    the stacks of the accounts up to some account of [done], that an
    identifier collected for that account names. *)
Definition markedBy (done : list AccountMapping) (j : nat) : Prop :=
  exists (m : nat) account physicalId n,
    done !! m = Some account /\
    physicalId ∈ nestedStackPhysicalIds account /\
    list_find (namedIn physicalId) (stackName <$> manifestStacks (take (S m) done))
      = Some (j, n).

(** [asksBucket requests s s']: from [s] to [s'] the requests have been
    sent to the bucket and nothing else has changed, but for lines that
    may have gone to the console. *)
Definition asksBucket (requests : list GetObjectRequest) (s s' : System) : Prop :=
  this s' = this s /\
  files (world s') = files (world s) /\
  tmpdir (world s') = tmpdir (world s) /\
  tmpnames (world s') = tmpnames (world s) /\
  s3Requests (world s') = s3Requests (world s) ++ requests.

(** The three fields that [loadExternalMapping] writes. *)
Definition setMapping (accounts : list string) (stacks : list AseaStackInfo.t) (list : value)
    (e : externalLandingZoneResourcesConfig) : externalLandingZoneResourcesConfig :=
  setResourceList list (setTemplateMapField stacks (setAccountsDeployedExternally accounts e)).

Section ResourceList.
Context `{Libraries}.

(** The resource list that [loadExternalMapping] makes of an answer of
    the bucket for [aseaResources.json]. *)
Definition resourceListOf (answer : result GetObjectOutput) : value :=
  match answer with
  | Ok {| Body := Some body |} =>
      match JSON_parse body with
      | Ok v => orEmptyArray (Some v)
      | Throw _ => VArray []
      end
  | _ => VArray []
  end.

End ResourceList.

Section Read.
Context `{CommonTypes} `{Aws}.

(** What the reconciler reads for an account in a region: the
    credentials of the role in the account, the client made of them and
    the parameters under the four paths, merged. [None] when a step fails
    or does not settle. *)
Definition parametersRead (fuel : nat) (partition prefix role accountId region : string)
  : option (gmap string string) :=
  match throttlingBackOff
          (sts_send region
             {| RoleArn := "arn:" +:+ partition +:+ ":iam::" +:+ accountId +:+ ":role/"
                             +:+ role;
                RoleSessionName := "acceleratorResourceMapping";
                DurationSeconds := 900 |}) with
  | Ok (Some crossAccountCredentials) =>
      match getCrossAccountSsmClient region crossAccountCredentials with
      | Ok ssmClient =>
          match Promise_all [
            getParametersByPath fuel (getSsmPath prefix AseaResourceTypePaths_IAM) ssmClient;
            getParametersByPath fuel (getSsmPath prefix AseaResourceTypePaths_VPC) ssmClient;
            getParametersByPath fuel (getSsmPath prefix AseaResourceTypePaths_TRANSIT_GATEWAY)
              ssmClient;
            getParametersByPath fuel (getSsmPath prefix AseaResourceTypePaths_VPC_PEERING)
              ssmClient ] with
          | Some (Ok ssmResults) => Some (mergeResults ssmResults)
          | _ => None
          end
      | Throw _ => None
      end
  | _ => None
  end.

End Read.

(** [this.externalLandingZoneResources.resourceParameters[`${accountId}-${region}`]] *)
Definition entryOf (s : System) (accountId region : string) : option (gmap string string) :=
  parametersOf s ≫= (fun m => m !! (accountId +:+ "-" +:+ region)).

(** The keys of the pairs of an account and a region are pairwise
    different. *)
Definition distinctKeys (accounts regions : list string) : Prop :=
  forall a a' r r',
    a ∈ accounts -> a' ∈ accounts -> r ∈ regions -> r' ∈ regions ->
    a +:+ "-" +:+ r = a' +:+ "-" +:+ r' -> a = a' /\ r = r'.

(** The state in which a round of a task runs: the import is on,
    [resourceParameters] is there, and the role is [role]. *)
Definition goodFor (role : string) (s : System) : Prop :=
  ready s /\ managementAccountAccessRole (this s) = role.

Section Grows.
Context `{CommonTypes} `{Aws}.

(** The entry of the pair is the one that the reconciler reads for it. *)
Definition written (fuel : nat) (partition prefix role : string) (s : System)
    (accountId region : string) : Prop :=
  entryOf s accountId region = parametersRead fuel partition prefix role accountId region.

(** From [s] to [s'] the reconciler has written entries of the pairs and
    has kept the ones that were written. *)
Definition grows (fuel : nat) (partition prefix role : string)
    (regions accounts : list string) (s s' : System) : Prop :=
  kept regions accounts s s' /\
  forall a r, a ∈ accounts -> r ∈ regions ->
    written fuel partition prefix role s a r -> written fuel partition prefix role s' a r.

(** Every pair is written, or its account is pending in a task of its
    region. *)
Definition covered (fuel : nat) (partition prefix role : string)
    (regions accounts : list string) (tasks : list task) (s : System) : Prop :=
  forall a r, a ∈ accounts -> r ∈ regions ->
    written fuel partition prefix role s a r \/
    exists t, t ∈ tasks /\ taskRegion t = r /\ a ∈ pending t.

End Grows.

(** The world after [mkdtemp] has made a directory for each of the
    prefixes, in order; [None] when one of the calls finds no name. *)
Fixpoint makeDirs (prefixes : list string) (w : World) : option World :=
  match prefixes with
  | [] => Some w
  | prefix :: rest =>
      match mkdtemp prefix w with
      | (Ok _, w') => makeDirs rest w'
      | (Throw _, _) => None
      end
  end.

(** The temporary directory has room for a run of [loadExternalMapping]
    on the manifest: the call of [mkdtemp] for the directory of the run
    and, after it, one call for each stack of the manifest all find a
    name. *)
Definition roomFor (manifest : list AccountMapping) (w : World) : Prop :=
  is_Some (makeDirs (joinNames (tmpdir w) "asea-assets"
                       :: replicate (length (manifestStacks manifest))
                            (joinNames (tmpdir w) "asea-templates-")) w).

(** Two worlds in which [mkdtemp] draws the same names: the directories
    have the same names, whatever they hold, and the suffixes in stock are
    the same. *)
Definition sameDirs (w w' : World) : Prop :=
  tmpdir w' = tmpdir w /\ tmpnames w' = tmpnames w /\
  forall dir, files w' !! dir = None <-> files w !! dir = None.

Section Rounds.
Context `{CommonTypes} `{Libraries} `{Aws}.

(** The pairs of an account and a region that a task reconciles when it
    runs alone, in order, up to the round that does not return. *)
Fixpoint loopRounds (fuel : nat) (region partition prefix : string)
    (accounts : list string) (s : System) : list (string * string) :=
  match accounts with
  | [] => []
  | accountId :: rest =>
      match reconcileAccount fuel region partition prefix accountId s with
      | (Some (Ok _), s') =>
          (accountId, region) :: loopRounds fuel region partition prefix rest s'
      | _ => []
      end
  end.

(** The pair that a turn of task [i] reconciles, if its round returns. *)
Definition turnRounds (fuel : nat) (partition prefix : string) (i : nat)
    (tasks : list task) (s : System) : list (string * string) :=
  match tasks !! i with
  | Some {| taskRegion := region; pending := accountId :: _ |} =>
      match reconcileAccount fuel region partition prefix accountId s with
      | (Some (Ok _), _) => [(accountId, region)]
      | _ => []
      end
  | _ => []
  end.

(** The pairs reconciled while the tasks run to their ends, up to the
    task that throws. *)
Fixpoint finishRounds (fuel : nat) (partition prefix : string)
    (tasks : list task) (s : System) : list (string * string) :=
  match tasks with
  | [] => []
  | t :: tasks' =>
      loopRounds fuel (taskRegion t) partition prefix (pending t) s ++
      match loadRegionLzaResources_loop fuel (taskRegion t) partition prefix (pending t) s with
      | (Some (Throw _), _) => []
      | (_, s') => finishRounds fuel partition prefix tasks' s'
      end
  end.

(** The pairs reconciled under a schedule, in the order in which their
    rounds return, up to the round that rejects the call. *)
Fixpoint awaitRounds (fuel : nat) (partition prefix : string) (schedule : list nat)
    (tasks : list task) (s : System) : list (string * string) :=
  match schedule with
  | [] => finishRounds fuel partition prefix tasks s
  | i :: schedule' =>
      turnRounds fuel partition prefix i tasks s ++
      match turn fuel partition prefix i tasks s with
      | (Some _, _, _) => []
      | (None, tasks', s') => awaitRounds fuel partition prefix schedule' tasks' s'
      end
  end.

(** The reconciliations of an account in a region that a call of
    [loadLzaResources] completes before it is settled. *)
Definition completedRounds (fuel : nat) (schedule : list nat) (partition prefix : string)
    (s : System) : list (string * string) :=
  if negb (importEnabled (this s)) then []
  else
    let s := updateExternal ensureResourceParameters s in
    let accounts :=
      default [] (externalLandingZoneResources (this s) ≫= accountsDeployedExternally) in
    awaitRounds fuel partition prefix schedule
      (map (startTask accounts s) (enabledRegions (this s))) s.

(** [holdsRounds rounds m]: under the key of each of the rounds, [m] holds
    the parameters that a round with this key has read. *)
Definition holdsRounds (fuel : nat) (partition prefix role : string)
    (rounds : list (string * string)) (m : gmap string (gmap string string)) : Prop :=
  forall a r, (a, r) ∈ rounds ->
    exists a' r',
      (a', r') ∈ rounds /\ a' +:+ "-" +:+ r' = a +:+ "-" +:+ r /\
      is_Some (m !! (a +:+ "-" +:+ r)) /\
      m !! (a +:+ "-" +:+ r) = parametersRead fuel partition prefix role a' r'.

End Rounds.

(** ** A sample deployment

    Concrete libraries, services, documents and states on which the
    statements of the second part are tried. *)

Module Sample.

(** Stand-ins for the schema nodes of [./common-types]. *)
Definition commonTypes : CommonTypes := {|
  t_region := TEnums "Region"
    ["us-east-1"; "us-east-2"; "us-west-1"; "us-west-2"; "ca-central-1";
     "eu-west-1"; "eu-central-1"; "ap-southeast-2"];
  t_tag := TInterface [("key", TNonEmptyString); ("value", TNonEmptyString)];
  t_deploymentTargets := TInterface [
    ("organizationalUnits", TOptional (TArray TNonEmptyString));
    ("accounts", TOptional (TArray TNonEmptyString));
    ("excludedRegions", TOptional (TArray TNonEmptyString));
    ("excludedAccounts", TOptional (TArray TNonEmptyString)) ];
  t_lifecycleRuleConfig := TInterface [
    ("enabled", TOptional TBoolean);
    ("expiration", TOptional TNumber) ];
  t_resourcePolicyStatement := TInterface [("policy", TNonEmptyString)];
  t_importedS3ManagedEncryptionKeyBucketConfig := TInterface [("name", TNonEmptyString)];
  t_importedCustomerManagedEncryptionKeyBucketConfig := TInterface [("name", TNonEmptyString)];
  t_customS3ResourcePolicyOverridesConfig := TInterface [("policy", TOptional TNonEmptyString)];
  t_customS3ResourceAndKmsPolicyOverridesConfig := TInterface [
    ("s3Policy", TOptional TNonEmptyString);
    ("kmsPolicy", TOptional TNonEmptyString) ];
  AseaResourceTypePaths_IAM := "/iam/";
  AseaResourceTypePaths_VPC := "/network/vpc/";
  AseaResourceTypePaths_TRANSIT_GATEWAY := "/network/transitGateways/";
  AseaResourceTypePaths_VPC_PEERING := "/network/vpcPeering/"
|}.

(** A configuration file and the document it holds. The document names
    two regions, turns the termination protection off and has tags. *)
Definition configText : string :=
  "homeRegion: ca-central-1
enabledRegions: [ca-central-1, us-east-1]
managementAccountAccessRole: OrganizationAccountAccessRole
cloudwatchLogRetentionInDays: 731
terminationProtection: false
controlTower: {enable: false}
logging: {account: LogArchive, cloudtrail: {enable: true, organizationTrail: true}, sessionManager: {sendToCloudWatchLogs: false, sendToS3: true}}
tags: [{key: Environment, value: Dev}]".

Definition loggingDocument : value := VObject [
  ("account", VString "LogArchive");
  ("cloudtrail", VObject [("enable", VBool true); ("organizationTrail", VBool true)]);
  ("sessionManager", VObject [("sendToCloudWatchLogs", VBool false);
                              ("sendToS3", VBool true)]) ].

Definition configDocument : value := VObject [
  ("homeRegion", VString "ca-central-1");
  ("enabledRegions", VArray [VString "ca-central-1"; VString "us-east-1"]);
  ("managementAccountAccessRole", VString "OrganizationAccountAccessRole");
  ("cloudwatchLogRetentionInDays", VNumber (Int 731));
  ("terminationProtection", VBool false);
  ("controlTower", VObject [("enable", VBool false)]);
  ("logging", loggingDocument);
  ("tags", VArray [VObject [("key", VString "Environment"); ("value", VString "Dev")]]) ].

(** A document whose home region is not among its enabled regions. *)
Definition strayText : string :=
  "homeRegion: us-east-1
enabledRegions: [us-west-2]
managementAccountAccessRole: AWSControlTowerExecution
cloudwatchLogRetentionInDays: 3653
controlTower: {enable: true}
logging: {account: LogArchive, cloudtrail: {enable: false, organizationTrail: false}, sessionManager: {sendToCloudWatchLogs: false, sendToS3: false}}".

Definition strayDocument : value := VObject [
  ("homeRegion", VString "us-east-1");
  ("enabledRegions", VArray [VString "us-west-2"]);
  ("managementAccountAccessRole", VString "AWSControlTowerExecution");
  ("cloudwatchLogRetentionInDays", VNumber (Int 3653));
  ("controlTower", VObject [("enable", VBool true)]);
  ("logging", VObject [
     ("account", VString "LogArchive");
     ("cloudtrail", VObject [("enable", VBool false); ("organizationTrail", VBool false)]);
     ("sessionManager", VObject [("sendToCloudWatchLogs", VBool false);
                                 ("sendToS3", VBool false)]) ]) ].

(** A text that is no YAML document. *)
Definition brokenText : string := "homeRegion: [ca-central-1".

(** The manifest of one account with one stack. *)
Definition manifest : list AccountMapping := [
  {| accountId := "111111111111";
     accountKey := "shared-network";
     stacksAndResourceMapList := [
       {| stackName := "ASEA-SharedNetwork-Phase1";
          region := "ca-central-1";
          template := VObject [("Resources", VObject [])];
          resourceMap := [ {| resourceType := "AWS::EC2::VPC";
                              physicalResourceId := "vpc-0a1b2c3d" |} ];
          parentStack := None |} ] |} ].

Definition manifestText : string := "[{accountId: 111111111111, stacks: 1}]".

(** The manifest of an account that has the same pair of stacks, a
    parent and the stack nested in it, in two regions. *)
Definition twoRegionManifest : list AccountMapping := [
  {| accountId := "111111111111";
     accountKey := "perimeter";
     stacksAndResourceMapList := [
       {| stackName := "ASEA-Perimeter-Phase2";
          region := "ca-central-1";
          template := VObject [];
          resourceMap := [
            {| resourceType := "AWS::CloudFormation::Stack";
               physicalResourceId :=
                 "arn:aws:cloudformation:ca-central-1:111111111111:stack/ASEA-Perimeter-Phase2-Alb/0a1" |} ];
          parentStack := None |};
       {| stackName := "ASEA-Perimeter-Phase2-Alb";
          region := "ca-central-1";
          template := VObject [];
          resourceMap := [];
          parentStack := None |};
       {| stackName := "ASEA-Perimeter-Phase2";
          region := "us-east-1";
          template := VObject [];
          resourceMap := [
            {| resourceType := "AWS::CloudFormation::Stack";
               physicalResourceId :=
                 "arn:aws:cloudformation:us-east-1:111111111111:stack/ASEA-Perimeter-Phase2-Alb/0b2" |} ];
          parentStack := None |};
       {| stackName := "ASEA-Perimeter-Phase2-Alb";
          region := "us-east-1";
          template := VObject [];
          resourceMap := [];
          parentStack := None |} ] |} ].

(** A printer of documents that stands for [JSON.stringify]. *)
Fixpoint print (v : value) : string :=
  match v with
  | VUndefined => "undefined"
  | VNull => "null"
  | VBool true => "true"
  | VBool false => "false"
  | VNumber (Int z) => pretty z
  | VNumber NaN => "null"
  | VString r => r
  | VArray items => "[" +:+ String.concat "," (map print items) +:+ "]"
  | VObject props =>
      "{" +:+ String.concat "," (map (fun '(k, x) => k +:+ ":" +:+ print x) props) +:+ "}"
  end.

Definition readYaml (text : string) : result value :=
  if String.eqb text configText then Ok configDocument
  else if String.eqb text strayText then Ok strayDocument
  else Throw (YAMLException "unexpected end of the stream within a flow collection").

Definition readJson (text : string) : result value :=
  if String.eqb text "[]" then Ok (VArray [])
  else Throw (SyntaxError "Unexpected end of JSON input").

Definition readManifest (text : string) : result (list AccountMapping) :=
  if String.eqb text manifestText then Ok manifest
  else Throw (SyntaxError "Unexpected end of JSON input").

Definition printManifest (m : list AccountMapping) : string :=
  "[" +:+ String.concat ","
    (map (fun a => "{accountId: " +:+ accountId a +:+ ", stacks: "
                     +:+ pretty (length (stacksAndResourceMapList a)) +:+ "}") m)
  +:+ "]".

Definition libraries : Libraries.
Proof.
  refine {| yaml_load := readYaml;
            JSON_parse := readJson;
            JSON_stringify := print;
            JSON_parse_mapping := readManifest;
            JSON_stringify_mapping := printManifest;
            JSON_stringify_error := fun e => "{}" |}.
  - eexists. reflexivity.
  - eexists. reflexivity.
Defined.

(** The bucket holds [mapping.json] and no [aseaResources.json]. *)
Definition bucket : string := "asea-mapping-bucket".

Definition answerS3 (client : S3Client) (request : GetObjectRequest)
  : result GetObjectOutput :=
  if String.eqb (Bucket request) bucket then
    if String.eqb (Key request) "mapping.json" then Ok {| Body := Some manifestText |}
    else Throw (AWSError "NoSuchKey" "The specified key does not exist.")
  else Throw (AWSError "NoSuchBucket" "The specified bucket does not exist").

(** The role can be assumed in every account but [222222222222]. *)
Definition answerSts (region : string) (input : AssumeRoleCommandInput)
  : result (option AssumeRoleCommandOutput) :=
  if includes ":222222222222:" (RoleArn input)
  then Throw (AWSError "AccessDenied" "User is not authorized to perform sts:AssumeRole")
  else Ok (Some {| assumedCredentials :=
                     Some {| AccessKeyId := Some "ASIAEXAMPLE";
                             SecretAccessKey := Some "secret";
                             SessionToken := Some (RoleArn input) |} |}).

(** The parameters under [/ASEA/iam/] come in three pages; the other
    namespaces are empty. *)
Definition iamPage1 : GetParametersByPathOutput :=
  {| Parameters := Some [ {| Name := "/ASEA/iam/role/Admin"; Value := "arn:role/Admin" |};
                          {| Name := "/ASEA/iam/role/Ops"; Value := "arn:role/Ops-v1" |} ];
     outNextToken := Some "page-2" |}.

Definition iamPage2 : GetParametersByPathOutput :=
  {| Parameters := Some [ {| Name := "/ASEA/iam/role/Ops"; Value := "arn:role/Ops-v2" |} ];
     outNextToken := Some "page-3" |}.

Definition iamPage3 : GetParametersByPathOutput :=
  {| Parameters := Some [ {| Name := "/ASEA/iam/policy/Deny"; Value := "arn:policy/Deny" |} ];
     outNextToken := None |}.

Definition answerSsm (client : SSMClient) (command : GetParametersByPathCommand)
  : result GetParametersByPathOutput :=
  if String.eqb (Path command) "/ASEA/iam/" then
    match NextToken command with
    | None => Ok iamPage1
    | Some token =>
        if String.eqb token "page-2" then Ok iamPage2
        else if String.eqb token "page-3" then Ok iamPage3
        else Throw (AWSError "InvalidNextToken" "The specified token is not valid.")
    end
  else Ok {| Parameters := None; outNextToken := None |}.

Definition aws : Aws := {|
  s3_getObject := answerS3;
  sts_send := answerSts;
  ssm_send := answerSsm
|}.

Definition ssmClient : SSMClient :=
  {| accessKeyId := Some "ASIAEXAMPLE"; secretAccessKey := Some "secret";
     sessionToken := None; ssmRegion := "ca-central-1" |}.

(** The world: the configuration file in [/config], an empty [/tmp]. *)
Definition earth : World := {|
  tmpdir := "/tmp";
  files := {[ "/tmp" := ∅; "/config" := {[ "global-config.yaml" := configText ]} ]};
  tmpnames := ["3fK9aZ"; "Qx81Lm"; "b7TnE2"; "Zp40Wc"; "m1YdR8"; "Hs6vJ3"];
  console := [];
  s3Requests := []
|}.

(** An instance whose external landing zone comes from the document: the
    import is on, and the state of the reconciler is not there yet. *)
Definition imported : config := {|
  homeRegion := "ca-central-1";
  enabledRegions := ["ca-central-1"];
  managementAccountAccessRole := "OrganizationAccountAccessRole";
  externalLandingZoneResources := Some {|
    importExternalLandingZoneResources := true;
    mappingFileBucket := Some bucket;
    acceleratorPrefix := "ASEA";
    acceleratorName := "ASEA";
    templateMap := None;
    resourceList := None;
    accountsDeployedExternally := None;
    resourceParameters := None |}
|}.

Definition start : System := {| this := imported; world := earth |}.

(** The same instance once two accounts are known to be deployed
    externally and an entry of an earlier run is in place. *)
Definition twoAccounts : System := {|
  this := {|
    homeRegion := "ca-central-1";
    enabledRegions := ["ca-central-1"];
    managementAccountAccessRole := "OrganizationAccountAccessRole";
    externalLandingZoneResources := Some {|
      importExternalLandingZoneResources := true;
      mappingFileBucket := Some bucket;
      acceleratorPrefix := "ASEA";
      acceleratorName := "ASEA";
      templateMap := Some [];
      resourceList := Some (VArray []);
      accountsDeployedExternally := Some ["111111111111"; "222222222222"];
      resourceParameters := Some {[ "999999999999-eu-west-1" := ∅ ]} |} |};
  world := earth
|}.

End Sample.

(** ** Runs on the sample deployment *)

(** The state in which a first run of [loadExternalMapping] leaves the
    sample: the manifest and the resource list are in the directory that
    this run made. *)
Definition afterFirstRun : System :=
  snd (@loadExternalMapping Sample.libraries Sample.aws false Sample.start).

(** The sample instance once [loadExternalMapping] has emptied the list
    of the accounts. *)
Definition reset : System :=
  updateExternal (setAccountsDeployedExternally []) Sample.start.

(** The outcome and the last state of [loadLzaResources] on the sample
    with two accounts, when the tasks run one after the other. *)
Definition sampleFanOut : outcome * System :=
  @loadLzaResources Sample.commonTypes Sample.libraries Sample.aws
    5 [] "aws" "ASEA" Sample.twoAccounts.

(** The entry of [resourceParameters] for the first account. *)
Definition firstEntry (s : System) : option (gmap string string) :=
  parametersOf s ≫= (fun m => m !! "111111111111-ca-central-1").

(** ** More of the sample deployment *)

Module Cases.

(** A parameter store that fails on the second page of [/ASEA/iam/]. *)
Definition flakySsm (client : SSMClient) (command : GetParametersByPathCommand)
  : result GetParametersByPathOutput :=
  match NextToken command with
  | None => Ok Sample.iamPage1
  | Some _ => Throw (AWSError "ThrottlingException" "Rate exceeded")
  end.

Definition flakyAws : Aws := {|
  s3_getObject := Sample.answerS3;
  sts_send := Sample.answerSts;
  ssm_send := flakySsm
|}.

(** A parameter store whose every answer carries a token. *)
Definition endlessSsm (client : SSMClient) (command : GetParametersByPathCommand)
  : result GetParametersByPathOutput :=
  Ok {| Parameters := Some [ {| Name := "/ASEA/iam/role/Admin"; Value := "arn:role/Admin" |} ];
        outNextToken := Some "more" |}.

Definition endlessAws : Aws := {|
  s3_getObject := Sample.answerS3;
  sts_send := Sample.answerSts;
  ssm_send := endlessSsm
|}.

(** A bucket that has the manifest and refuses every other object. *)
Definition deniedS3 (client : S3Client) (request : GetObjectRequest)
  : result GetObjectOutput :=
  if String.eqb (Key request) "mapping.json" then Ok {| Body := Some Sample.manifestText |}
  else Throw (AWSError "AccessDenied" "Access Denied").

Definition deniedAws : Aws := {|
  s3_getObject := deniedS3;
  sts_send := Sample.answerSts;
  ssm_send := Sample.answerSsm
|}.

(** A bucket that takes every object. *)
Definition writer : S3Writer := {| s3_putObject := fun _ _ => Ok tt |}.

(** The sample instance with the import on and no bucket named. *)
Definition noBucket : System := {|
  this := {|
    homeRegion := "ca-central-1";
    enabledRegions := ["ca-central-1"];
    managementAccountAccessRole := "OrganizationAccountAccessRole";
    externalLandingZoneResources := Some {|
      importExternalLandingZoneResources := true;
      mappingFileBucket := None;
      acceleratorPrefix := "ASEA";
      acceleratorName := "ASEA";
      templateMap := None;
      resourceList := None;
      accountsDeployedExternally := Some ["999999999999"];
      resourceParameters := None |} |};
  world := Sample.earth
|}.

(** The sample instance with two regions and two accounts in which the
    role can be assumed; an entry of an earlier run is in place. *)
Definition twoRegions : System := {|
  this := {|
    homeRegion := "ca-central-1";
    enabledRegions := ["ca-central-1"; "us-east-1"];
    managementAccountAccessRole := "OrganizationAccountAccessRole";
    externalLandingZoneResources := Some {|
      importExternalLandingZoneResources := true;
      mappingFileBucket := Some Sample.bucket;
      acceleratorPrefix := "ASEA";
      acceleratorName := "ASEA";
      templateMap := Some [];
      resourceList := Some (VArray []);
      accountsDeployedExternally := Some ["111111111111"; "333333333333"];
      resourceParameters := Some {[ "999999999999-eu-west-1" := ∅ ]} |} |};
  world := Sample.earth
|}.

(** The sample document with two topics, and with a section [snsTopics]
    that names no topic. *)
Definition withTopics (snsTopics : value) : value :=
  VObject (ownProps Sample.configDocument ++ [("snsTopics", snsTopics)]).

Definition topics : list value := [
  VObject [("name", VString "Security"); ("emailAddresses", VArray [VString "sec@example.com"])];
  VObject [("name", VString "Operations"); ("emailAddresses", VArray [])] ].

Definition topicsDocument : value := withTopics (VObject [("topics", VArray topics)]).

Definition bareTopicsDocument : value := withTopics (VObject []).

End Cases.

(** The run of [setTemplateMap] on the manifest with two regions. *)
Definition twoRegionRun : result (list AseaStackInfo.t) * System :=
  @setTemplateMap Sample.libraries (Some Sample.twoRegionManifest) reset.

(* ===================================================================== *)
(** * Part II: lemmas                                                      *)
(* ===================================================================== *)

(** ** Strings *)

Lemma prefix_split (needle s : string) :
  String.prefix needle s = true -> exists rest, s = needle +:+ rest.
Proof.
  revert s. induction needle as [|c needle IH]; intros s Hp.
  - exists s. reflexivity.
  - destruct s as [|c' s]; simpl in Hp; [discriminate|].
    destruct (ascii_dec c c') as [->|]; [|discriminate].
    destruct (IH _ Hp) as [rest ->]. exists rest. reflexivity.
Qed.

Lemma indexOf_from_range (needle s : string) (k : Z) :
  indexOf_from needle s k = -1 \/ k <= indexOf_from needle s k.
Proof.
  revert k. induction s as [|c s IH]; intros k; cbn [indexOf_from].
  - destruct (String.prefix needle ""); [right; lia|left; reflexivity].
  - destruct (String.prefix needle (String c s)); [right; lia|].
    destruct (IH (k + 1)) as [Hl|Hr]; [left; exact Hl|right; lia].
Qed.

(** Where [indexOf] finds the needle, the string splits around it. *)
Lemma indexOf_from_found (needle s : string) (k : Z) :
  0 <= indexOf_from needle s k ->
  exists pre rest,
    s = pre +:+ needle +:+ rest /\
    Z.of_nat (String.length pre) = indexOf_from needle s k - k.
Proof.
  revert k. induction s as [|c s IH]; intros k Hi; cbn [indexOf_from] in *.
  - destruct (String.prefix needle "") eqn:Hp; [|lia].
    destruct (prefix_split _ _ Hp) as [rest Hrest].
    exists "", rest. split; [exact Hrest|simpl; lia].
  - destruct (String.prefix needle (String c s)) eqn:Hp.
    + destruct (prefix_split _ _ Hp) as [rest Hrest].
      exists "", rest. split; [exact Hrest|simpl; lia].
    + destruct (IH _ Hi) as (pre & rest & Hs & Hlen).
      exists (String c pre), rest. split.
      { change (String c s = String c (pre +:+ needle +:+ rest)). f_equal. exact Hs. }
      simpl String.length. lia.
Qed.

Lemma append_cons (x : ascii) (a b : string) :
  String x a +:+ b = String x (a +:+ b).
Proof. reflexivity. Qed.

Lemma get_append_length (pre s : string) :
  String.get (String.length pre) (pre +:+ s) = String.get 0 s.
Proof.
  induction pre as [|c pre IH]; [reflexivity|].
  rewrite append_cons. exact IH.
Qed.

Lemma append_assoc (a b c : string) : (a +:+ b) +:+ c = a +:+ (b +:+ c).
Proof.
  induction a as [|x a IH]; [reflexivity|].
  rewrite !append_cons. now rewrite IH.
Qed.

Lemma length_append (a b : string) :
  String.length (a +:+ b) = (String.length a + String.length b)%nat.
Proof.
  induction a as [|x a IH]; [reflexivity|].
  rewrite append_cons. simpl. now rewrite IH.
Qed.

(** ** The phase of a stack *)

(** The character that follows the first ["Phase"] decides the phase. *)
Lemma derivePhase_found (s : string) :
  0 <= indexOf "Phase" s ->
  exists pre rest,
    s = pre +:+ "Phase" +:+ rest /\
    Z.of_nat (String.length pre) = indexOf "Phase" s /\
    derivePhase s =
      match rest with
      | String c _ => if Ascii.eqb c "-" then Int (-1) else Number_char c
      | EmptyString => NaN
      end.
Proof.
  intros Hi. unfold indexOf in *.
  destruct (indexOf_from_found _ _ _ Hi) as (pre & rest & Hs & Hlen).
  exists pre, rest. split; [exact Hs|]. split; [lia|].
  unfold derivePhase, indexOf, charAt.
  replace (indexOf_from "Phase" s 0 + 5)
    with (Z.of_nat (String.length (pre +:+ "Phase"))) by (rewrite length_append; simpl; lia).
  destruct (Z.ltb_spec (Z.of_nat (String.length (pre +:+ "Phase"))) 0) as [Hneg|_]; [lia|].
  rewrite Nat2Z.id. rewrite Hs.
  replace (pre +:+ "Phase" +:+ rest) with ((pre +:+ "Phase") +:+ rest)
    by apply append_assoc.
  rewrite get_append_length. destruct rest; reflexivity.
Qed.

(** C4: [setTemplateMap] derives the phase of a stack from the character
    that follows the first occurrence of ["Phase"] in the stack name: a
    ['-'] gives [-1], any other character is read as a number. The stack
    name ["Phase1-NetworkStack"] has phase [1] and ["Phase--something"] has
    phase [-1]. *)
Theorem derivePhase_reads_character_after_Phase :
  (forall s : string,
     0 <= indexOf "Phase" s ->
     exists pre rest,
       s = pre +:+ "Phase" +:+ rest /\
       Z.of_nat (String.length pre) = indexOf "Phase" s /\
       derivePhase s =
         match rest with
         | String c _ => if Ascii.eqb c "-" then Int (-1) else Number_char c
         | EmptyString => NaN
         end) /\
  derivePhase "Phase1-NetworkStack" = Int 1 /\
  derivePhase "Phase--something" = Int (-1).
Proof.
  split; [exact derivePhase_found|]. split; reflexivity.
Qed.

Lemma derivePhase_reads_character_after_Phase_witness :
  0 <= indexOf "Phase" "ASEA-Phase2-SecurityStack" /\
  exists pre rest,
    "ASEA-Phase2-SecurityStack" = pre +:+ "Phase" +:+ rest /\
    Z.of_nat (String.length pre) = indexOf "Phase" "ASEA-Phase2-SecurityStack" /\
    derivePhase "ASEA-Phase2-SecurityStack" =
      match rest with
      | String c _ => if Ascii.eqb c "-" then Int (-1) else Number_char c
      | EmptyString => NaN
      end.
Proof.
  assert (Hi : 0 <= indexOf "Phase" "ASEA-Phase2-SecurityStack") by (vm_compute; discriminate).
  split; [exact Hi|].
  exact (proj1 derivePhase_reads_character_after_Phase _ Hi).
Defined.

Example phase1 : derivePhase "Phase1-NetworkStack" = Int 1.
Proof. reflexivity. Qed.

Example phase_dash : derivePhase "Phase--something" = Int (-1).
Proof. reflexivity. Qed.

Example phase_none : derivePhase "NetworkStack" = NaN.
Proof. reflexivity. Qed.

(** ** Pagination of the parameter store *)

Lemma addParameters_lookup (entries : list SSMParameter) (m : gmap string string) (k : string) :
  fold_left (fun m p => <[Name p := Value p]> m) entries m !! k =
    match lastValue k entries with
    | Some v => Some v
    | None => m !! k
    end.
Proof.
  revert m. induction entries as [|p entries IH] using rev_ind; intros m.
  - reflexivity.
  - rewrite fold_left_app. simpl. unfold lastValue.
    rewrite filter_app, filter_cons, filter_nil.
    destruct (decide (Name p = k)) as [Hk|Hk].
    + rewrite last_snoc. simpl. rewrite Hk. apply lookup_insert_eq.
    + rewrite app_nil_r. rewrite lookup_insert_ne by exact Hk. apply IH.
Qed.

Lemma lastValue_app (k : string) (l1 l2 : list SSMParameter) :
  lastValue k (l1 ++ l2) =
    match lastValue k l2 with
    | Some v => Some v
    | None => lastValue k l1
    end.
Proof.
  unfold lastValue. rewrite filter_app.
  destruct (filter (fun p => Name p = k) l2) as [|x l] eqn:Hf using rev_ind.
  - rewrite app_nil_r. reflexivity.
  - rewrite app_assoc, !last_snoc. reflexivity.
Qed.

Section Pagination.
Context `{Aws}.

(** The loop, started with [parameters] and [token], merges the pages
    that are served from [token] on. *)
Lemma getParametersByPath_loop_served ssmClient path token pages :
  served ssmClient path token pages ->
  forall (fuel : nat) (parameters : gmap string string),
    (length pages <= fuel)%nat ->
    exists merged,
      getParametersByPath_loop fuel path ssmClient parameters token = Some (Ok merged) /\
      forall k, merged !! k =
                  match lastValue k (pageEntries pages) with
                  | Some v => Some v
                  | None => parameters !! k
                  end.
Proof.
  induction 1 as [token page Hsend Hlast|token page pages Hsend Hmore Hrest IH];
    intros fuel parameters Hfuel.
  - destruct fuel as [|fuel]; [simpl in Hfuel; lia|].
    simpl. unfold throttlingBackOff. rewrite Hsend, Hlast.
    eexists. split; [reflexivity|]. intros k.
    unfold addParameters, pageEntries. simpl. rewrite app_nil_r.
    apply addParameters_lookup.
  - destruct fuel as [|fuel]; [simpl in Hfuel; lia|].
    simpl. unfold throttlingBackOff. rewrite Hsend, Hmore.
    destruct (IH fuel (addParameters parameters (Parameters page))) as (merged & Hrun & Hm).
    { simpl in Hfuel. lia. }
    exists merged. split; [exact Hrun|]. intros k.
    rewrite Hm. unfold pageEntries. simpl. rewrite lastValue_app.
    fold (pageEntries pages).
    destruct (lastValue k (pageEntries pages)); [reflexivity|].
    apply addParameters_lookup.
Qed.

(** C5: when the parameter store answers a query with a sequence of
    pages, each but the last carrying a [NextToken], [getParametersByPath]
    follows the tokens to the last page and returns one mapping: a name
    is bound if and only if some page has it, and it is bound to the value
    seen last. *)
Theorem getParametersByPath_merges_pages ssmClient path pages (fuel : nat) :
  served ssmClient path None pages ->
  (length pages <= fuel)%nat ->
  exists merged,
    getParametersByPath fuel path ssmClient = Some (Ok merged) /\
    forall k, merged !! k = lastValue k (pageEntries pages).
Proof.
  intros Hserved Hfuel.
  destruct (getParametersByPath_loop_served _ _ _ _ Hserved fuel ∅ Hfuel)
    as (merged & Hrun & Hm).
  exists merged. split; [exact Hrun|]. intros k. rewrite Hm.
  destruct (lastValue k (pageEntries pages)); [reflexivity|apply lookup_empty].
Qed.

End Pagination.

(** ** The monad *)

(** Splits a hypothesis [bind m k s = (Ok r, s')] along [m]. *)
Ltac bind_ok H :=
  unfold bind at 1 in H;
  match type of H with
  | match ?m ?s with _ => _ end = _ =>
      let E := fresh "E" in
      destruct (m s) as [[?|?] ?] eqn:E; [|discriminate H]
  end.

Lemma bind_gets {S A B} (f : S -> A) (k : A -> M S B) s :
  bind (gets f) k s = k (f s) s.
Proof. reflexivity. Qed.

Lemma bind_modify {S B} (f : S -> S) (k : unit -> M S B) s :
  bind (modify f) k s = k tt (f s).
Proof. reflexivity. Qed.

(** ** Nested stacks *)

Lemma markNestedStack_describes l id stacks :
  Forall2 describes l stacks -> Forall2 describes (markNestedStack l id) stacks.
Proof.
  intros Hl. unfold markNestedStack.
  destruct (list_find (mentions id) l) as [[j d]|]; [|exact Hl].
  clear d. revert j. induction Hl as [|d st l stacks Hd Hl IH]; intros j.
  - constructor.
  - destruct j as [|j]; simpl.
    + constructor; [|exact Hl]. destruct Hd as [Hn _]. split; [exact Hn|reflexivity].
    + constructor; [exact Hd|apply IH].
Qed.

Lemma marks_describes ids l stacks :
  Forall2 describes l stacks -> Forall2 describes (fold_left markNestedStack ids l) stacks.
Proof.
  revert l. induction ids as [|id ids IH]; intros l Hl; simpl; [exact Hl|].
  apply IH. apply markNestedStack_describes. exact Hl.
Qed.

Lemma markNestedStack_names l id :
  AseaStackInfo.stackName <$> markNestedStack l id = AseaStackInfo.stackName <$> l.
Proof.
  unfold markNestedStack.
  destruct (list_find (mentions id) l) as [[j d]|]; [|reflexivity].
  clear d. revert j. induction l as [|d l IH]; intros j; [reflexivity|].
  destruct j as [|j]; simpl; [reflexivity|]. f_equal. apply IH.
Qed.

Lemma marks_names ids l :
  AseaStackInfo.stackName <$> fold_left markNestedStack ids l = AseaStackInfo.stackName <$> l.
Proof.
  revert l. induction ids as [|id ids IH]; intros l; simpl; [reflexivity|].
  rewrite IH. apply markNestedStack_names.
Qed.

Lemma markNestedStack_keeps l id i d :
  l !! i = Some d -> AseaStackInfo.nestedStack d = true ->
  exists d', markNestedStack l id !! i = Some d' /\ AseaStackInfo.nestedStack d' = true.
Proof.
  intros Hi Hd. unfold markNestedStack.
  destruct (list_find (mentions id) l) as [[j x]|]; [|eauto].
  destruct (decide (i = j)) as [->|Hne].
  - exists (markNested d). split; [|reflexivity].
    rewrite list_lookup_alter_eq, Hi. reflexivity.
  - exists d. split; [|exact Hd].
    rewrite list_lookup_alter_ne by congruence. exact Hi.
Qed.

Lemma marks_keeps ids l i d :
  l !! i = Some d -> AseaStackInfo.nestedStack d = true ->
  exists d',
    fold_left markNestedStack ids l !! i = Some d' /\ AseaStackInfo.nestedStack d' = true.
Proof.
  revert l d. induction ids as [|id ids IH]; intros l d Hi Hd; simpl; [eauto|].
  destruct (markNestedStack_keeps l id i d Hi Hd) as (d' & Hi' & Hd').
  eapply IH; eassumption.
Qed.

(** The first stack that an identifier names is found by name alone. *)
Lemma list_find_mentions pid (l : list AseaStackInfo.t) :
  list_find (namedIn pid) (AseaStackInfo.stackName <$> l) =
    prod_map id AseaStackInfo.stackName <$> list_find (mentions pid) l.
Proof. rewrite list_find_fmap. reflexivity. Qed.

Lemma marks_first_match ids l pid j n :
  pid ∈ ids ->
  list_find (namedIn pid) (AseaStackInfo.stackName <$> l) = Some (j, n) ->
  exists d,
    fold_left markNestedStack ids l !! j = Some d /\ AseaStackInfo.nestedStack d = true.
Proof.
  revert l. induction ids as [|x ids IH]; intros l Hin Hfind; [inversion Hin|].
  simpl. apply elem_of_cons in Hin as [<-|Hin].
  - rewrite list_find_mentions in Hfind.
    destruct (list_find (mentions pid) l) as [[j' d]|] eqn:Hf; [|discriminate].
    simpl in Hfind. injection Hfind as -> _.
    apply (marks_keeps ids _ j (markNested d)); [|reflexivity].
    unfold markNestedStack. rewrite Hf.
    apply list_find_Some in Hf as (Hj & _).
    rewrite list_lookup_alter_eq, Hj. reflexivity.
  - apply IH; [exact Hin|]. rewrite markNestedStack_names. exact Hfind.
Qed.

Section TemplateMap.
Context `{Libraries}.

Lemma processStack_ok account acc stack s acc' s' :
  processStack account acc stack s = (Ok acc', s') ->
  exists d,
    acc' = (fst acc ++ [d], snd acc ++ nestedStackIdsOf stack) /\
    AseaStackInfo.stackName d = stackName stack /\
    AseaStackInfo.nestedStack d = truthy (parentStack stack).
Proof.
  intros Hrun. unfold processStack in Hrun.
  bind_ok Hrun. bind_ok Hrun. bind_ok Hrun.
  unfold ret in Hrun. injection Hrun as <- _.
  eexists. split; [reflexivity|]. split; reflexivity.
Qed.

(** The loop over the stacks of an account appends one descriptor per
    stack and collects the identifiers of the nested stacks. *)
Lemma processStacks_ok account stacks : forall acc s acc' s',
  forM stacks acc (processStack account) s = (Ok acc', s') ->
  exists ds,
    fst acc' = fst acc ++ ds /\
    Forall2 describes ds stacks /\
    snd acc' = snd acc ++ concat (map nestedStackIdsOf stacks).
Proof.
  induction stacks as [|stack stacks IH]; intros acc s acc' s' Hrun; simpl in Hrun.
  - unfold ret in Hrun. injection Hrun as <- _.
    exists []. rewrite !app_nil_r. repeat split. constructor.
  - bind_ok Hrun.
    destruct (processStack_ok _ _ _ _ _ _ E) as (d & -> & Hn & Hd).
    destruct (IH _ _ _ _ Hrun) as (ds & Hfst & Hds & Hsnd). simpl in Hfst, Hsnd.
    exists (d :: ds). split; [rewrite Hfst, <- app_assoc; reflexivity|].
    split.
    + constructor; [|exact Hds]. split; [exact Hn|]. intros Hp. rewrite Hd. exact Hp.
    + rewrite Hsnd. simpl. rewrite <- app_assoc. reflexivity.
Qed.

Lemma processAccount_ok aseaStacks account s aseaStacks' s' :
  processAccount aseaStacks account s = (Ok aseaStacks', s') ->
  exists ds,
    Forall2 describes ds (stacksAndResourceMapList account) /\
    aseaStacks' =
      fold_left markNestedStack (nestedStackPhysicalIds account) (aseaStacks ++ ds).
Proof.
  intros Hrun. unfold processAccount in Hrun.
  bind_ok Hrun. bind_ok Hrun.
  unfold ret in Hrun. injection Hrun as <- _.
  destruct (processStacks_ok _ _ _ _ _ _ E0) as (ds & Hfst & Hds & Hsnd).
  simpl in Hfst, Hsnd. exists ds. split; [exact Hds|].
  rewrite Hfst, Hsnd. reflexivity.
Qed.

Lemma describes_names l stacks :
  Forall2 describes l stacks -> AseaStackInfo.stackName <$> l = stackName <$> stacks.
Proof.
  induction 1 as [|d st l stacks [Hn _] _ IH]; [reflexivity|].
  rewrite !fmap_cons, Hn, IH. reflexivity.
Qed.

Lemma manifestStacks_app l1 l2 :
  manifestStacks (l1 ++ l2) = manifestStacks l1 ++ manifestStacks l2.
Proof. unfold manifestStacks. rewrite map_app, concat_app. reflexivity. Qed.

Lemma visited_step done aseaStacks account s aseaStacks' s' :
  visited done aseaStacks ->
  processAccount aseaStacks account s = (Ok aseaStacks', s') ->
  visited (done ++ [account]) aseaStacks'.
Proof.
  intros [Hdesc Hmark] Hrun.
  destruct (processAccount_ok _ _ _ _ _ Hrun) as (ds & Hds & ->).
  assert (Hall : Forall2 describes (aseaStacks ++ ds) (manifestStacks (done ++ [account]))).
  { rewrite manifestStacks_app. apply Forall2_app; [exact Hdesc|].
    unfold manifestStacks. simpl. rewrite app_nil_r. exact Hds. }
  split; [apply marks_describes; exact Hall|].
  intros m a physicalId j n Hm Hin Hfind.
  destruct (decide (m < length done)%nat) as [Hlt|Hge].
  - rewrite lookup_app_l in Hm by exact Hlt.
    rewrite take_app_le in Hfind by lia.
    destruct (Hmark _ _ _ _ _ Hm Hin Hfind) as (d & Hj & Hd).
    apply (marks_keeps _ _ j d); [|exact Hd].
    apply lookup_app_l_Some. exact Hj.
  - assert (m = length done) as ->.
    { apply lookup_lt_Some in Hm. rewrite length_app in Hm. simpl in Hm. lia. }
    rewrite list_lookup_middle in Hm by reflexivity. injection Hm as <-.
    rewrite take_ge in Hfind by (rewrite length_app; simpl; lia).
    apply (marks_first_match _ _ physicalId j n); [exact Hin|].
    rewrite (describes_names _ _ Hall). exact Hfind.
Qed.

Lemma visited_all accounts : forall done aseaStacks s stacks s',
  visited done aseaStacks ->
  forM accounts aseaStacks processAccount s = (Ok stacks, s') ->
  visited (done ++ accounts) stacks.
Proof.
  induction accounts as [|account accounts IH]; intros done aseaStacks s stacks s' Hv Hrun;
    simpl in Hrun.
  - unfold ret in Hrun. injection Hrun as <- _. rewrite app_nil_r. exact Hv.
  - bind_ok Hrun.
    replace (done ++ account :: accounts) with ((done ++ [account]) ++ accounts)
      by (rewrite <- app_assoc; reflexivity).
    eapply IH; [|exact Hrun]. eapply visited_step; eassumption.
Qed.

(** C9, as the code has it: the descriptors that [setTemplateMap]
    returns stand for the stacks of the manifest in order; a stack with a
    non-empty [parentStack] is marked as nested; and for every nested-stack
    identifier collected for an account, the first stack that the
    identifier names, among the stacks of the accounts up to that one, is
    marked as nested. *)
Theorem setTemplateMap_marks_first_named_stack accounts s stacks s' :
  setTemplateMap (Some accounts) s = (Ok stacks, s') ->
  AseaStackInfo.stackName <$> stacks = stackName <$> manifestStacks accounts /\
  (forall (i : nat) stack,
     manifestStacks accounts !! i = Some stack ->
     truthy (parentStack stack) = true ->
     exists d, stacks !! i = Some d /\ AseaStackInfo.nestedStack d = true) /\
  (forall (m : nat) account physicalId (j : nat) n,
     accounts !! m = Some account ->
     physicalId ∈ nestedStackPhysicalIds account ->
     list_find (namedIn physicalId) (stackName <$> manifestStacks (take (S m) accounts))
       = Some (j, n) ->
     exists d,
       stacks !! j = Some d /\ AseaStackInfo.stackName d = n /\
       AseaStackInfo.nestedStack d = true).
Proof.
  intros Hrun. simpl in Hrun.
  assert (Hv : visited ([] ++ accounts) stacks).
  { eapply visited_all; [|exact Hrun]. split; [constructor|].
    intros m a physicalId j n Hm. rewrite lookup_nil in Hm. discriminate. }
  simpl in Hv. destruct Hv as [Hdesc Hmark].
  split; [apply describes_names; exact Hdesc|]. split.
  - intros i stack Hi Hp.
    destruct (Forall2_lookup_r _ _ _ _ _ Hdesc Hi) as (d & Hd & _ & Hn).
    exists d. split; [exact Hd|apply Hn; exact Hp].
  - intros m account physicalId j n Hm Hin Hfind.
    destruct (Hmark _ _ _ _ _ Hm Hin Hfind) as (d & Hj & Hd).
    exists d. split; [exact Hj|]. split; [|exact Hd].
    apply list_find_Some in Hfind as (Hjn & _).
    assert (Hpre : stackName <$> manifestStacks (take (S m) accounts)
                     `prefix_of` AseaStackInfo.stackName <$> stacks).
    { rewrite (describes_names _ _ Hdesc).
      rewrite <- (take_drop (S m) accounts) at 2. rewrite manifestStacks_app, fmap_app.
      apply prefix_app_r. reflexivity. }
    pose proof (prefix_lookup_Some _ _ _ _ Hjn Hpre) as Hname.
    rewrite list_lookup_fmap, Hj in Hname. simpl in Hname. congruence.
Qed.

End TemplateMap.

(** ** What a computation leaves untouched *)

Section Stable.
Context {S : Type} (R : S -> S -> Prop) `{!Reflexive R} `{!Transitive R}.

Lemma stable_ret {A} (a : A) : stable R (ret a).
Proof. intros s r s' Hrun. injection Hrun as _ <-. reflexivity. Qed.

Lemma stable_throw {A} e : stable R (@throw S A e).
Proof. intros s r s' Hrun. injection Hrun as _ <-. reflexivity. Qed.

Lemma stable_lift {A} (x : result A) : stable R (lift x).
Proof. intros s r s' Hrun. injection Hrun as _ <-. reflexivity. Qed.

Lemma stable_gets {A} (f : S -> A) : stable R (gets f).
Proof. intros s r s' Hrun. injection Hrun as _ <-. reflexivity. Qed.

Lemma stable_bind {A B} (m : M S A) (k : A -> M S B) :
  stable R m -> (forall a, stable R (k a)) -> stable R (bind m k).
Proof.
  intros Hm Hk s r s' Hrun. unfold bind in Hrun.
  destruct (m s) as [[a|e] s1] eqn:E.
  - etransitivity; [eapply Hm; exact E|eapply Hk; exact Hrun].
  - injection Hrun as _ <-. eapply Hm; exact E.
Qed.

Lemma stable_try_catch {A} (m : M S A) (handler : exn -> M S A) :
  stable R m -> (forall e, stable R (handler e)) -> stable R (try_catch m handler).
Proof.
  intros Hm Hh s r s' Hrun. unfold try_catch in Hrun.
  destruct (m s) as [[a|e] s1] eqn:E.
  - injection Hrun as _ <-. eapply Hm; exact E.
  - etransitivity; [eapply Hm; exact E|eapply Hh; exact Hrun].
Qed.

Lemma stable_forM {A B} (body : B -> A -> M S B) (l : list A) :
  (forall acc x, stable R (body acc x)) -> forall acc, stable R (forM l acc body).
Proof.
  intros Hbody. induction l as [|x l IH]; intros acc; simpl.
  - apply stable_ret.
  - apply stable_bind; [apply Hbody|intros acc'; apply IH].
Qed.

End Stable.

(** ** The file system *)

Lemma drawName_fresh prefix used suffixes dir rest :
  drawName prefix used suffixes = (Some dir, rest) -> used !! dir = None.
Proof.
  induction suffixes as [|x suffixes IH]; simpl; [discriminate|].
  destruct (used !! (prefix +:+ x)) eqn:Hx; [exact IH|].
  intros Heq. injection Heq as <- _. exact Hx.
Qed.

(** The directory that [mkdtemp] returns is new and empty. *)
Lemma mkdtemp_ok prefix w dir w' :
  mkdtemp prefix w = (Ok dir, w') ->
  files w !! dir = None /\
  files w' = <[dir := ∅]> (files w) /\
  s3Requests w' = s3Requests w /\ console w' = console w /\ tmpdir w' = tmpdir w.
Proof.
  unfold mkdtemp. destruct (drawName prefix (files w) (tmpnames w)) as [[d|] rest] eqn:Hd;
    [|discriminate].
  intros Heq. injection Heq as <- <-.
  split; [eapply drawName_fresh; exact Hd|]. repeat split.
Qed.

Lemma mkdtemp_throw prefix w e w' :
  mkdtemp prefix w = (Throw e, w') ->
  e = SystemError "EEXIST" /\ s3Requests w' = s3Requests w.
Proof.
  unfold mkdtemp. destruct (drawName prefix (files w) (tmpnames w)) as [[d|] rest];
    [discriminate|].
  intros Heq. injection Heq as <- <-. split; reflexivity.
Qed.

Lemma existsSync_empty_directory dir file w :
  files w !! dir = Some ∅ -> existsSync (path_join dir file) w = false.
Proof.
  intros Hdir. unfold existsSync. simpl. rewrite Hdir.
  apply bool_decide_eq_false. rewrite lookup_empty. intros [x Hx]. discriminate.
Qed.

(** ** What the reconciler keeps *)

#[global] Instance follows_refl : Reflexive follows.
Proof. intros s. unfold follows. split; [reflexivity|repeat split]. Qed.

#[global] Instance follows_trans : Transitive follows.
Proof.
  intros s1 s2 s3 (Hp & Hi & Hb & Hh) (Hp' & Hi' & Hb' & Hh'). unfold follows.
  split; [etransitivity; eassumption|]. repeat split; congruence.
Qed.

#[global] Instance quiet_refl : Reflexive quiet.
Proof. intros s. reflexivity. Qed.

#[global] Instance quiet_trans : Transitive quiet.
Proof. intros s1 s2 s3 H1 H2. unfold quiet in *. congruence. Qed.

Lemma stable_liftW_requests {A} (m : M World A) :
  (forall w r w', m w = (r, w') -> s3Requests w `prefix_of` s3Requests w') ->
  stable follows (liftW m).
Proof.
  intros Hm s r s' Hrun. unfold liftW in Hrun.
  destruct (m (world s)) as [r1 w1] eqn:E. injection Hrun as _ <-.
  unfold follows. simpl. split; [eapply Hm; exact E|repeat split].
Qed.

Lemma stable_mkdtemp prefix : stable follows (liftW (mkdtemp prefix)).
Proof.
  apply stable_liftW_requests. intros w [dir|e] w' Hrun.
  - apply mkdtemp_ok in Hrun as (_ & _ & -> & _). reflexivity.
  - apply mkdtemp_throw in Hrun as (_ & ->). reflexivity.
Qed.

Lemma stable_writeFile p content : stable follows (liftW (writeFile p content)).
Proof.
  apply stable_liftW_requests. intros w r w' Hrun. unfold writeFile in Hrun.
  destruct (files w !! dirname p); injection Hrun as _ <-; reflexivity.
Qed.

Lemma stable_readFileSync p : stable follows (liftW (readFileSync p)).
Proof.
  apply stable_liftW_requests. intros w r w' Hrun. unfold readFileSync in Hrun.
  destruct (files w !! dirname p ≫= _); injection Hrun as _ <-; reflexivity.
Qed.

Lemma stable_console_error line : stable follows (liftW (console_error line)).
Proof.
  apply stable_liftW_requests. intros w r w' Hrun.
  injection Hrun as _ <-. reflexivity.
Qed.

Lemma stable_recordRequest request : stable follows (liftW (recordRequest request)).
Proof.
  apply stable_liftW_requests. intros w r w' Hrun.
  injection Hrun as _ <-. simpl. apply prefix_app_r. reflexivity.
Qed.

Lemma updateExternal_follows f s : keepsSettings f -> follows s (updateExternal f s).
Proof.
  intros Hf. unfold follows, importEnabled, configuredBucket. simpl.
  split; [reflexivity|].
  destruct (externalLandingZoneResources (this s)) as [e|]; simpl; [|repeat split].
  destruct (Hf e) as [-> ->]. repeat split.
Qed.

Lemma keepsSettings_templateMap l : keepsSettings (setTemplateMapField l).
Proof. intros e. split; reflexivity. Qed.

Lemma keepsSettings_resourceList v : keepsSettings (setResourceList v).
Proof. intros e. split; reflexivity. Qed.

Lemma keepsSettings_accounts l : keepsSettings (setAccountsDeployedExternally l).
Proof. intros e. split; reflexivity. Qed.

Lemma keepsSettings_parameters m : keepsSettings (setResourceParameters m).
Proof. intros e. split; reflexivity. Qed.

#[local] Hint Resolve keepsSettings_templateMap keepsSettings_resourceList
  keepsSettings_accounts keepsSettings_parameters : core.

Lemma stable_modify_external f :
  keepsSettings f -> stable follows (modify (updateExternal f)).
Proof.
  intros Hf s r s' Hrun. injection Hrun as _ <-. apply updateExternal_follows. exact Hf.
Qed.

Lemma requests_ret {A} (a : A) : stable follows (ret a).
Proof. apply stable_ret; apply _. Qed.

Lemma requests_throw {A} e : stable follows (@throw System A e).
Proof. apply stable_throw; apply _. Qed.

Lemma requests_lift {A} (x : result A) : stable follows (lift x).
Proof. apply stable_lift; apply _. Qed.

Lemma requests_gets {A} (f : System -> A) : stable follows (gets f).
Proof. apply stable_gets; apply _. Qed.

Create HintDb stable.

#[local] Hint Resolve requests_ret requests_throw requests_lift requests_gets
  stable_mkdtemp stable_writeFile stable_readFileSync stable_console_error
  stable_recordRequest : stable.

(** Walks through a computation built from [bind], [try_catch] and [forM]. *)
Ltac stable_step :=
  first [ solve [apply _]
        | solve [eauto with stable]
        | solve [apply stable_modify_external; auto]
        | apply stable_bind
        | apply stable_try_catch
        | apply stable_forM
        | match goal with |- forall _, _ => intro end ].

Section Requests.
Context `{Libraries} `{Aws}.

Lemma stable_pushAccount account : stable follows (pushAccount account).
Proof.
  intros s r s' Hrun. unfold pushAccount in Hrun.
  destruct (externalLandingZoneResources (this s)) as [e|];
    [destruct (accountsDeployedExternally e)|];
    injection Hrun as _ <-; try reflexivity.
  apply updateExternal_follows. auto.
Qed.

Lemma stable_setTemplateMap mappingJson : stable follows (setTemplateMap mappingJson).
Proof.
  destruct mappingJson as [accounts|]; simpl; [apply stable_forM|]; repeat stable_step.
  apply stable_pushAccount.
Qed.

Lemma stable_getObject s3Client request : stable follows (getObject s3Client request).
Proof. unfold getObject. repeat stable_step. Qed.

Lemma stable_readJsonFromExternalS3 objectKey s3Client :
  stable follows (readJsonFromExternalS3 objectKey s3Client).
Proof.
  unfold readJsonFromExternalS3.
  apply stable_bind; [apply _|apply requests_gets|intros c].
  destruct (externalLandingZoneResources c) as [e|]; [|apply requests_throw].
  destruct (_ && _); [|apply requests_throw].
  apply stable_try_catch; [apply _| |].
  - apply stable_bind; [apply _|apply stable_getObject|intros response].
    destruct (Body response); repeat stable_step.
  - intros e'. destruct (bool_decide _); repeat stable_step.
Qed.

Lemma stable_loadExternalMappingFromS3 s3Client :
  stable follows (loadExternalMappingFromS3 s3Client).
Proof.
  unfold loadExternalMappingFromS3.
  apply stable_bind; [apply _|apply requests_gets|intros c].
  destruct (externalLandingZoneResources c) as [e|]; [|apply requests_ret].
  destruct (_ && _); [|apply requests_ret].
  apply stable_bind; [apply _|apply stable_getObject|intros mappingFile].
  destruct (Body mappingFile); repeat stable_step.
Qed.

#[local] Hint Resolve stable_setTemplateMap stable_readJsonFromExternalS3
  stable_loadExternalMappingFromS3 : stable.

(** The configuration of a system that imports from a named bucket. *)
Lemma configured_bucket c bucket :
  importEnabled c = true -> configuredBucket c = Some bucket -> bucket <> "" ->
  exists e,
    externalLandingZoneResources c = Some e /\
    importExternalLandingZoneResources e && truthy (mappingFileBucket e) = true /\
    default "" (mappingFileBucket e) = bucket.
Proof.
  unfold importEnabled, configuredBucket. intros Hi Hb Hne.
  destruct (externalLandingZoneResources c) as [e|]; [|discriminate].
  simpl in Hb. exists e. rewrite Hi, Hb. simpl. repeat split.
  destruct (String.eqb_spec bucket ""); [contradiction|reflexivity].
Qed.

(** What [loadExternalMappingFromS3] makes of the answer of the bucket:
    it sends one request, and only a document in the body is passed on. *)
Lemma loadExternalMappingFromS3_run s3Client s bucket r s' :
  importEnabled (this s) = true ->
  configuredBucket (this s) = Some bucket -> bucket <> "" ->
  loadExternalMappingFromS3 (Some s3Client) s = (r, s') ->
  r = match s3_getObject s3Client {| Bucket := bucket; Key := "mapping.json" |} with
      | Throw e => Throw e
      | Ok mappingFile =>
          match Body mappingFile with
          | None => Throw (Error "Runtime error")
          | Some body =>
              match JSON_parse_mapping body with
              | Ok mapping => Ok (Some mapping)
              | Throw e => Throw e
              end
          end
      end /\
  this s' = this s /\
  s3Requests (world s') =
    s3Requests (world s) ++ [ {| Bucket := bucket; Key := "mapping.json" |} ].
Proof.
  intros Hi Hb Hne.
  destruct (configured_bucket _ _ Hi Hb Hne) as (e & He & Hguard & Hbucket).
  unfold loadExternalMappingFromS3, bind at 1, gets. rewrite He, Hguard, Hbucket.
  unfold getObject, bind, liftW, recordRequest, modify, lift. simpl.
  destruct (s3_getObject s3Client _) as [mappingFile|err]; simpl.
  - destruct (Body mappingFile) as [body|]; simpl.
    + unfold lift. destruct (JSON_parse_mapping body); simpl;
        intros Heq; injection Heq as <- <-; repeat split.
    + intros Heq; injection Heq as <- <-; repeat split.
  - intros Heq; injection Heq as <- <-; repeat split.
Qed.

(** What [readJsonFromExternalS3] makes of the answer of the bucket. *)
Lemma readJsonFromExternalS3_run objectKey s3Client s bucket :
  importEnabled (this s) = true ->
  configuredBucket (this s) = Some bucket -> bucket <> "" ->
  fst (readJsonFromExternalS3 objectKey (Some s3Client) s) =
    match s3_getObject s3Client {| Bucket := bucket; Key := objectKey |} with
    | Throw e => if bool_decide (code e = Some "NoSuchKey") then Ok None else Throw e
    | Ok response =>
        match Body response with
        | None => Ok None
        | Some body =>
            match JSON_parse body with
            | Ok v => Ok (Some v)
            | Throw e => if bool_decide (code e = Some "NoSuchKey") then Ok None else Throw e
            end
        end
    end.
Proof.
  intros Hi Hb Hne.
  destruct (configured_bucket _ _ Hi Hb Hne) as (e & He & Hguard & Hbucket).
  unfold readJsonFromExternalS3, bind at 1, gets. rewrite He, Hguard, Hbucket.
  unfold try_catch, getObject, bind, liftW, recordRequest, modify, lift. simpl.
  destruct (s3_getObject s3Client _) as [response|err]; simpl.
  - destruct (Body response) as [body|]; simpl; [|reflexivity].
    destruct (JSON_parse body) as [v|err]; simpl; [reflexivity|].
    destruct (bool_decide _); reflexivity.
  - destruct (bool_decide _); reflexivity.
Qed.

(** With the import enabled, [loadExternalMapping] makes a new directory
    and goes on with the branch that asks the bucket: the cache file it
    looks for is in the directory just made. *)
Lemma loadExternalMapping_asks_bucket loadFromCache s r s' :
  importEnabled (this s) = true ->
  loadExternalMapping loadFromCache s = (r, s') ->
  (r = Throw (SystemError "EEXIST") /\ s3Requests (world s') = s3Requests (world s)) \/
  exists dir s1,
    follows s s1 /\
    s3Requests (world s1) = s3Requests (world s) /\
    files (world s) !! dir = None /\
    loadFromBucket (this s) (path_join dir "aseaMapping.json")
      (path_join dir "aseaResources.json") s1 = (r, s').
Proof.
  intros Hi Hrun. unfold loadExternalMapping in Hrun.
  rewrite bind_gets, Hi in Hrun. cbn [negb] in Hrun.
  rewrite bind_modify, bind_gets in Hrun.
  set (s0 := updateExternal (setAccountsDeployedExternally []) s) in *.
  unfold bind at 1 in Hrun.
  destruct (liftW (mkdtemp (joinNames (tmpdir (world s0)) "asea-assets")) s0)
    as [[dir|e] s1] eqn:E.
  - right. exists dir, s1.
    unfold liftW in E.
    destruct (mkdtemp _ (world s0)) as [r1 w1] eqn:Em. injection E as -> <-.
    apply mkdtemp_ok in Em as (Hfresh & Hfiles & Hreq & _ & _).
    rewrite bind_gets in Hrun.
    rewrite (existsSync_empty_directory dir) in Hrun
      by (simpl; rewrite Hfiles; apply lookup_insert_eq).
    rewrite andb_false_r in Hrun.
    split; [|split; [exact Hreq|split; [exact Hfresh|exact Hrun]]].
    unfold follows. simpl. rewrite Hreq. split; [reflexivity|].
    apply (updateExternal_follows (setAccountsDeployedExternally []) s). auto.
  - left. injection Hrun as <- <-. unfold liftW in E.
    destruct (mkdtemp _ (world s0)) as [r1 w1] eqn:Em. injection E as -> <-.
    apply mkdtemp_throw in Em as (-> & Hreq). split; [reflexivity|exact Hreq].
Qed.

(** C2, on the code: with the import enabled and a bucket configured,
    [loadExternalMapping] asks the bucket for [mapping.json] whatever
    [loadFromCache] says and whatever the file system holds, unless
    [mkdtemp] fails. The cached mapping file is looked for in a directory
    that [mkdtemp] has just created, where it cannot be. *)
Theorem loadExternalMapping_always_fetches loadFromCache s bucket r s' :
  importEnabled (this s) = true ->
  configuredBucket (this s) = Some bucket -> bucket <> "" ->
  loadExternalMapping loadFromCache s = (r, s') ->
  (r = Throw (SystemError "EEXIST") /\ s3Requests (world s') = s3Requests (world s)) \/
  exists later,
    s3Requests (world s') =
      s3Requests (world s) ++ {| Bucket := bucket; Key := "mapping.json" |} :: later.
Proof.
  intros Hi Hb Hne Hrun.
  destruct (loadExternalMapping_asks_bucket _ _ _ _ Hi Hrun)
    as [Hfail|(dir & s1 & (_ & Hi1 & Hb1 & _) & Hreq & _ & Hbranch)]; [left; exact Hfail|].
  right. unfold loadFromBucket in Hbranch. unfold bind at 1 in Hbranch.
  destruct (loadExternalMappingFromS3 _ s1) as [r2 s2] eqn:E.
  apply (loadExternalMappingFromS3_run _ _ bucket) in E as (_ & _ & Hreq2);
    [|congruence..].
  assert (Hrest : follows s2 s').
  { destruct r2 as [mapping|e].
    - revert Hbranch. generalize s2 r s'. change (stable follows
        (stacks <- setTemplateMap mapping;;
         modify (updateExternal (setTemplateMapField stacks));;;
         fetched <- readJsonFromExternalS3 "aseaResources.json"
                      (Some {| s3Region := homeRegion (this s) |});;
         modify (updateExternal (setResourceList (orEmptyArray fetched)));;;
         match mapping with
         | None => throw (TypeError "The data argument must be of type string")
         | Some m =>
             liftW (writeFile (path_join dir "aseaMapping.json") (JSON_stringify_mapping m))
         end;;;
         liftW (writeFile (path_join dir "aseaResources.json")
                  (JSON_stringify (orEmptyArray fetched))))%monad).
      repeat stable_step. destruct mapping; repeat stable_step.
    - injection Hbranch as _ <-. reflexivity. }
  destruct Hrest as ([later Hlater] & _).
  exists later. rewrite Hlater, Hreq2, Hreq, <- app_assoc. reflexivity.
Qed.

(** *** The branch that reads the cache

    Were the cache file found, the branch of [loadExternalMapping] that
    reads it would send nothing to the bucket. *)

Lemma quiet_liftW {A} (m : M World A) :
  (forall w r w', m w = (r, w') -> s3Requests w' = s3Requests w) ->
  stable quiet (liftW m).
Proof.
  intros Hm s r s' Hrun. unfold liftW in Hrun.
  destruct (m (world s)) as [r1 w1] eqn:E. injection Hrun as _ <-.
  unfold quiet. simpl. eapply Hm. exact E.
Qed.

Lemma quiet_mkdtemp prefix : stable quiet (liftW (mkdtemp prefix)).
Proof.
  apply quiet_liftW. intros w [dir|e] w' Hrun.
  - apply mkdtemp_ok in Hrun as (_ & _ & Hreq & _). exact Hreq.
  - apply mkdtemp_throw in Hrun as (_ & Hreq). exact Hreq.
Qed.

Lemma quiet_writeFile p content : stable quiet (liftW (writeFile p content)).
Proof.
  apply quiet_liftW. intros w r w' Hrun. unfold writeFile in Hrun.
  destruct (files w !! dirname p); injection Hrun as _ <-; reflexivity.
Qed.

Lemma quiet_readFileSync p : stable quiet (liftW (readFileSync p)).
Proof.
  apply quiet_liftW. intros w r w' Hrun. unfold readFileSync in Hrun.
  destruct (files w !! dirname p ≫= _); injection Hrun as _ <-; reflexivity.
Qed.

Lemma quiet_modify_external f : stable quiet (modify (updateExternal f)).
Proof. intros s r s' Hrun. injection Hrun as _ <-. reflexivity. Qed.

Lemma quiet_pushAccount account : stable quiet (pushAccount account).
Proof.
  intros s r s' Hrun. unfold pushAccount in Hrun.
  destruct (externalLandingZoneResources (this s)) as [e|];
    [destruct (accountsDeployedExternally e)|];
    injection Hrun as _ <-; reflexivity.
Qed.

Lemma quiet_ret {A} (a : A) : stable quiet (ret a).
Proof. apply stable_ret; apply _. Qed.

Lemma quiet_throw {A} e : stable quiet (@throw System A e).
Proof. apply stable_throw; apply _. Qed.

Lemma quiet_lift {A} (x : result A) : stable quiet (lift x).
Proof. apply stable_lift; apply _. Qed.

Lemma quiet_gets {A} (f : System -> A) : stable quiet (gets f).
Proof. apply stable_gets; apply _. Qed.

#[local] Hint Resolve quiet_mkdtemp quiet_writeFile quiet_readFileSync
  quiet_modify_external quiet_pushAccount quiet_ret quiet_throw quiet_lift
  quiet_gets : stable.

Lemma quiet_setTemplateMap mappingJson : stable quiet (setTemplateMap mappingJson).
Proof.
  destruct mappingJson as [accounts|]; simpl; [apply stable_forM|]; repeat stable_step.
Qed.

Lemma quiet_readJsonFromDisk {A} (JSON_read : string -> result A) p :
  stable quiet (readJsonFromDisk JSON_read p).
Proof. unfold readJsonFromDisk. repeat stable_step. Qed.

#[local] Hint Resolve quiet_setTemplateMap quiet_readJsonFromDisk : stable.

Lemma loadFromDisk_sends_nothing aseaMappingPath aseaResourceListPath s r s' :
  loadFromDisk aseaMappingPath aseaResourceListPath s = (r, s') ->
  s3Requests (world s') = s3Requests (world s).
Proof.
  revert s r s'. change (stable quiet (loadFromDisk aseaMappingPath aseaResourceListPath)).
  unfold loadFromDisk. repeat stable_step.
Qed.

End Requests.

(** ** The fan-out over the regions *)

Lemma kept_refl regions accounts s : kept regions accounts s s.
Proof.
  unfold kept. split; [reflexivity|]. split; [reflexivity|].
  intros m Hm. exists m. split; [exact Hm|]. split; [reflexivity|]. reflexivity.
Qed.

Lemma kept_trans regions accounts s1 s2 s3 :
  kept regions accounts s1 s2 -> kept regions accounts s2 s3 -> kept regions accounts s1 s3.
Proof.
  intros (Hr & Hi & Hm) (Hr' & Hi' & Hm'). unfold kept.
  split; [congruence|]. split; [congruence|].
  intros m H1. destruct (Hm m H1) as (m2 & H2 & Hdom & Hsame).
  destruct (Hm' m2 H2) as (m3 & H3 & Hdom' & Hsame').
  exists m3. split; [exact H3|]. split; [set_solver|].
  intros key Hkey. rewrite Hsame', Hsame by exact Hkey. reflexivity.
Qed.

Lemma kept_same_this regions accounts s s' :
  this s' = this s -> kept regions accounts s s'.
Proof.
  intros Heq. unfold kept, parametersOf. rewrite Heq.
  split; [reflexivity|]. split; [reflexivity|].
  intros m Hm. exists m. split; [exact Hm|]. split; reflexivity.
Qed.

Section FanOut.
Context `{CommonTypes} `{Libraries} `{Aws}.

(** The outcome of assuming the role does not depend on the state, and
    the instance is not touched. *)
Lemma getCrossAccountCredentials_outcome accountId region partition role s1 s2 :
  fst (getCrossAccountCredentials accountId region partition role s1) =
  fst (getCrossAccountCredentials accountId region partition role s2).
Proof.
  unfold getCrossAccountCredentials, try_catch, bind, lift, throttlingBackOff.
  destruct (sts_send region _) as [[output|]|e]; reflexivity.
Qed.

Lemma getCrossAccountCredentials_this accountId region partition role s :
  this (snd (getCrossAccountCredentials accountId region partition role s)) = this s.
Proof.
  unfold getCrossAccountCredentials, try_catch, bind, lift, throttlingBackOff.
  destruct (sts_send region _) as [[output|]|e]; reflexivity.
Qed.

Lemma commitParameters_ready key params s :
  ready s ->
  exists m,
    parametersOf s = Some m /\
    commitParameters key params s =
      (Ok tt, updateExternal (setResourceParameters (<[key := params]> m)) s).
Proof.
  intros [_ [m Hm]]. exists m. split; [exact Hm|].
  unfold commitParameters. unfold parametersOf in Hm.
  destruct (externalLandingZoneResources (this s)) as [e|]; [|discriminate].
  simpl in Hm. rewrite Hm. reflexivity.
Qed.

Lemma parametersOf_update m s :
  is_Some (externalLandingZoneResources (this s)) ->
  parametersOf (updateExternal (setResourceParameters m) s) = Some m.
Proof.
  intros [e He]. unfold parametersOf. simpl. rewrite He. reflexivity.
Qed.

Lemma ready_external s : ready s -> is_Some (externalLandingZoneResources (this s)).
Proof.
  intros [_ [m Hm]]. unfold parametersOf in Hm.
  destruct (externalLandingZoneResources (this s)); [eauto|discriminate].
Qed.

(** A round of a task keeps what it does not write, and leaves the state
    ready. *)
Lemma reconcileAccount_kept fuel regions accounts region partition prefix accountId s :
  ready s -> accountId ∈ accounts -> region ∈ regions ->
  kept regions accounts s (snd (reconcileAccount fuel region partition prefix accountId s)) /\
  ready (snd (reconcileAccount fuel region partition prefix accountId s)).
Proof.
  intros Hready Ha Hr. unfold reconcileAccount.
  pose proof (getCrossAccountCredentials_this accountId region partition
                (managementAccountAccessRole (this s)) s) as Hthis.
  destruct (getCrossAccountCredentials _ _ _ _ s) as [[output|e] s1]; simpl in Hthis.
  2: { simpl. split; [apply kept_same_this; exact Hthis|].
       unfold ready, parametersOf. rewrite Hthis. exact Hready. }
  assert (Hready1 : ready s1) by (unfold ready, parametersOf; rewrite Hthis; exact Hready).
  assert (Hkept1 : kept regions accounts s s1) by (apply kept_same_this; exact Hthis).
  destruct (getCrossAccountSsmClient region output) as [ssmClient|e]; [|split; assumption].
  destruct (Promise_all _) as [[ssmResults|e]|]; [|split; assumption..].
  destruct (commitParameters_ready (accountId +:+ "-" +:+ region)
              (mergeResults ssmResults) s1 Hready1) as (m & Hm & ->).
  simpl. split.
  - eapply kept_trans; [exact Hkept1|]. unfold kept.
    split; [reflexivity|]. split.
    { destruct Hready1 as [Hi _]. unfold importEnabled in *. simpl.
      destruct (externalLandingZoneResources (this s1)); [reflexivity|discriminate]. }
    intros m0 Hm0. rewrite Hm in Hm0. injection Hm0 as <-.
    eexists. split; [apply parametersOf_update, ready_external; exact Hready1|].
    split; [rewrite dom_insert_L; set_solver|].
    intros key Hkey. apply lookup_insert_ne. intros Heq. symmetry in Heq.
    exact (Hkey _ _ Ha Hr Heq).
  - split.
    + destruct Hready1 as [Hi _]. unfold importEnabled in *. simpl.
      destruct (externalLandingZoneResources (this s1)); [exact Hi|discriminate].
    + rewrite parametersOf_update by (apply ready_external; exact Hready1). eauto.
Qed.

(** The outcome of a round depends on the state by the role only. *)
Lemma reconcileAccount_outcome fuel region partition prefix accountId s1 s2 :
  ready s1 -> ready s2 ->
  managementAccountAccessRole (this s1) = managementAccountAccessRole (this s2) ->
  fst (reconcileAccount fuel region partition prefix accountId s1) =
  fst (reconcileAccount fuel region partition prefix accountId s2).
Proof.
  intros Hready1 Hready2 Hrole. unfold reconcileAccount. rewrite Hrole.
  pose proof (getCrossAccountCredentials_outcome accountId region partition
                (managementAccountAccessRole (this s2)) s1 s2) as Hout.
  pose proof (getCrossAccountCredentials_this accountId region partition
                (managementAccountAccessRole (this s2)) s1) as Hthis1.
  pose proof (getCrossAccountCredentials_this accountId region partition
                (managementAccountAccessRole (this s2)) s2) as Hthis2.
  destruct (getCrossAccountCredentials _ _ _ _ s1) as [r1 t1].
  destruct (getCrossAccountCredentials _ _ _ _ s2) as [r2 t2].
  simpl in Hout, Hthis1, Hthis2. subst r2.
  destruct r1 as [output|e]; [|reflexivity].
  destruct (getCrossAccountSsmClient region output) as [ssmClient|e]; [|reflexivity].
  destruct (Promise_all _) as [[ssmResults|e]|]; [|reflexivity..].
  assert (Hr1 : ready t1) by (unfold ready, parametersOf; rewrite Hthis1; exact Hready1).
  assert (Hr2 : ready t2) by (unfold ready, parametersOf; rewrite Hthis2; exact Hready2).
  destruct (commitParameters_ready (accountId +:+ "-" +:+ region)
              (mergeResults ssmResults) t1 Hr1) as (m1 & _ & ->).
  destruct (commitParameters_ready (accountId +:+ "-" +:+ region)
              (mergeResults ssmResults) t2 Hr2) as (m2 & _ & ->).
  reflexivity.
Qed.

Lemma kept_role regions accounts s s' :
  kept regions accounts s s' ->
  managementAccountAccessRole (this s') = managementAccountAccessRole (this s).
Proof. intros (Hr & _). exact Hr. Qed.

(** A task that runs alone keeps what it does not write. *)
Lemma loop_kept fuel (regions accounts : list string) region partition prefix pending :
  forall s,
  ready s -> pending ⊆ accounts -> region ∈ regions ->
  kept regions accounts s
    (snd (loadRegionLzaResources_loop fuel region partition prefix pending s)) /\
  ready (snd (loadRegionLzaResources_loop fuel region partition prefix pending s)).
Proof.
  induction pending as [|a rest IH]; intros s Hready Hsub Hr; simpl.
  - split; [apply kept_refl|exact Hready].
  - assert (Ha : a ∈ accounts) by (apply Hsub; left).
    destruct (reconcileAccount_kept fuel regions accounts region partition prefix a s
                Hready Ha Hr) as [Hk Hrd].
    destruct (reconcileAccount fuel region partition prefix a s) as [[[[]|e]|] s1];
      simpl in Hk, Hrd; [|split; assumption..].
    destruct (IH s1 Hrd) as [Hk' Hrd'];
      [intros x Hx; apply Hsub; right; exact Hx|exact Hr|].
    split; [eapply kept_trans; eassumption|exact Hrd'].
Qed.

(** The outcome of a task that runs alone depends on the state by the
    role only. *)
Lemma loop_outcome fuel (regions accounts : list string) region partition prefix pending :
  forall s1 s2,
  ready s1 -> ready s2 ->
  managementAccountAccessRole (this s1) = managementAccountAccessRole (this s2) ->
  pending ⊆ accounts -> region ∈ regions ->
  fst (loadRegionLzaResources_loop fuel region partition prefix pending s1) =
  fst (loadRegionLzaResources_loop fuel region partition prefix pending s2).
Proof.
  induction pending as [|a rest IH]; intros s1 s2 Hr1 Hr2 Hrole Hsub Hr; simpl;
    [reflexivity|].
  assert (Ha : a ∈ accounts) by (apply Hsub; left).
  pose proof (reconcileAccount_outcome fuel region partition prefix a s1 s2 Hr1 Hr2 Hrole)
    as Hout.
  destruct (reconcileAccount_kept fuel regions accounts region partition prefix a s1
              Hr1 Ha Hr) as [Hk1 Hrd1].
  destruct (reconcileAccount_kept fuel regions accounts region partition prefix a s2
              Hr2 Ha Hr) as [Hk2 Hrd2].
  destruct (reconcileAccount fuel region partition prefix a s1) as [r1 t1].
  destruct (reconcileAccount fuel region partition prefix a s2) as [r2 t2].
  simpl in Hout, Hk1, Hrd1, Hk2, Hrd2. subst r2.
  destruct r1 as [[[]|e]|]; [|reflexivity..].
  apply IH; [assumption..| |intros x Hx; apply Hsub; right; exact Hx|exact Hr].
  rewrite (kept_role _ _ _ _ Hk1), (kept_role _ _ _ _ Hk2). exact Hrole.
Qed.

Lemma fails_moves fuel (regions accounts : list string) partition prefix s s' t :
  ready s -> ready s' -> kept regions accounts s s' ->
  taskRegion t ∈ regions -> pending t ⊆ accounts ->
  fails fuel partition prefix s t -> fails fuel partition prefix s' t.
Proof.
  intros Hr Hr' Hk Hreg Hsub [e He]. exists e. rewrite <- He.
  eapply loop_outcome; try eassumption. apply (kept_role _ _ _ _ Hk).
Qed.

(** A turn either throws, or leaves a pool in which a task still fails. *)
Lemma turn_step fuel (regions accounts : list string) partition prefix i tasks s :
  ready s -> poolOk regions accounts tasks ->
  Exists (fails fuel partition prefix s) tasks ->
  kept regions accounts s (snd (turn fuel partition prefix i tasks s)) /\
  ready (snd (turn fuel partition prefix i tasks s)) /\
  (fst (fst (turn fuel partition prefix i tasks s)) = None ->
   poolOk regions accounts (snd (fst (turn fuel partition prefix i tasks s))) /\
   Exists (fails fuel partition prefix (snd (turn fuel partition prefix i tasks s)))
     (snd (fst (turn fuel partition prefix i tasks s)))).
Proof.
  intros Hready Hpool Hfail. unfold turn.
  destruct (tasks !! i) as [[region [|a rest]]|] eqn:Hi; simpl;
    [split; [apply kept_refl|split; [exact Hready|intros _; split; assumption]]| |
     split; [apply kept_refl|split; [exact Hready|intros _; split; assumption]]].
  pose proof (Forall_lookup_1 _ _ _ _ Hpool Hi) as [Hreg Hsub]. simpl in Hreg, Hsub.
  assert (Ha : a ∈ accounts) by (apply Hsub; left).
  destruct (reconcileAccount_kept fuel regions accounts region partition prefix a s
              Hready Ha Hreg) as [Hk Hrd].
  destruct (reconcileAccount fuel region partition prefix a s) as [r s1] eqn:Erun.
  simpl in Hk, Hrd.
  assert (Hmoved : Forall (fun t => fails fuel partition prefix s t ->
                                    fails fuel partition prefix s1 t) tasks).
  { apply Forall_forall. intros t Ht.
    pose proof (proj1 (Forall_forall _ _) Hpool t Ht) as [Hreg' Hsub'].
    exact (fails_moves fuel regions accounts partition prefix s s1 t
             Hready Hrd Hk Hreg' Hsub'). }
  destruct r as [[[]|e]|]; simpl.
  - split; [exact Hk|]. split; [exact Hrd|]. intros _. split.
    + apply Forall_insert; [exact Hpool|]. simpl.
      split; [exact Hreg|intros x Hx; apply Hsub; right; exact Hx].
    + apply Exists_exists in Hfail as (t & Ht & Hft).
      apply list_elem_of_lookup in Ht as [j Hj].
      apply Exists_exists. destruct (decide (j = i)) as [->|Hne].
      * exists {| taskRegion := region; pending := rest |}. split.
        { apply list_elem_of_lookup. exists i. apply list_lookup_insert_eq.
          eapply lookup_lt_Some; exact Hi. }
        rewrite Hi in Hj. injection Hj as <-. destruct Hft as [e He].
        exists e. simpl in He |- *. rewrite Erun in He. exact He.
      * exists t. split.
        { apply list_elem_of_lookup. exists j.
          rewrite list_lookup_insert_ne by congruence. exact Hj. }
        apply (proj1 (Forall_forall _ _) Hmoved t); [|exact Hft].
        apply list_elem_of_lookup. eauto.
  - split; [exact Hk|]. split; [exact Hrd|]. intros Heq. discriminate.
  - split; [exact Hk|]. split; [exact Hrd|]. intros _. split; [exact Hpool|].
    apply Exists_exists in Hfail as (t & Ht & Hft). apply Exists_exists.
    exists t. split; [exact Ht|].
    apply (proj1 (Forall_forall _ _) Hmoved t Ht Hft).
Qed.

(** When the tasks run to their ends, a task that fails rejects the
    call. *)
Lemma finish_rejects fuel (regions accounts : list string) partition prefix tasks :
  forall stuck s,
  ready s -> poolOk regions accounts tasks ->
  Exists (fails fuel partition prefix s) tasks ->
  exists e s',
    finish fuel partition prefix stuck tasks s = (Rejected e, s') /\
    kept regions accounts s s' /\ ready s'.
Proof.
  induction tasks as [|t tasks IH]; intros stuck s Hready Hpool Hfail;
    [inversion Hfail|].
  apply Forall_cons in Hpool as [[Hreg Hsub] Hpool]. simpl.
  destruct (loop_kept fuel regions accounts (taskRegion t) partition prefix (pending t) s
              Hready Hsub Hreg) as [Hk Hrd].
  destruct (loadRegionLzaResources_loop fuel (taskRegion t) partition prefix (pending t) s)
    as [r s1] eqn:Erun.
  simpl in Hk, Hrd.
  assert (Hrest : r <> None /\ (forall e, r <> Some (Throw e)) \/ r = None ->
                  Exists (fails fuel partition prefix s1) tasks).
  { intros Hr. apply Exists_cons in Hfail as [[e He]|Hfail].
    - rewrite Erun in He. simpl in He. subst r.
      destruct Hr as [[_ Hr]|Hr]; [exfalso; exact (Hr e eq_refl)|discriminate].
    - apply Exists_exists in Hfail as (t' & Ht' & Hft'). apply Exists_exists.
      exists t'. split; [exact Ht'|].
      pose proof (proj1 (Forall_forall _ _) Hpool t' Ht') as [Hreg' Hsub'].
      exact (fails_moves fuel regions accounts partition prefix s s1 t'
               Hready Hrd Hk Hreg' Hsub' Hft'). }
  destruct r as [[[]|e]|].
  - destruct (IH stuck s1 Hrd Hpool) as (e' & s' & Hrun & Hk' & Hrd').
    { apply Hrest. left. split; [discriminate|intros e; discriminate]. }
    exists e', s'. split; [exact Hrun|]. split; [eapply kept_trans; eassumption|exact Hrd'].
  - exists e, s1. split; [reflexivity|]. split; assumption.
  - destruct (IH true s1 Hrd Hpool) as (e' & s' & Hrun & Hk' & Hrd').
    { apply Hrest. right. reflexivity. }
    exists e', s'. split; [exact Hrun|]. split; [eapply kept_trans; eassumption|exact Hrd'].
Qed.

(** Under every schedule, a task that fails rejects the call. *)
Lemma awaitAll_rejects fuel (regions accounts : list string) partition prefix schedule :
  forall tasks s,
  ready s -> poolOk regions accounts tasks ->
  Exists (fails fuel partition prefix s) tasks ->
  exists e s',
    awaitAll fuel partition prefix schedule tasks s = (Rejected e, s') /\
    kept regions accounts s s' /\ ready s'.
Proof.
  induction schedule as [|i schedule IH]; intros tasks s Hready Hpool Hfail; simpl.
  - eapply finish_rejects; eassumption.
  - destruct (turn_step fuel regions accounts partition prefix i tasks s
                Hready Hpool Hfail) as (Hk & Hrd & Hnext).
    destruct (turn fuel partition prefix i tasks s) as [[[e|] tasks'] s1];
      simpl in Hk, Hrd, Hnext.
    + exists e, s1. split; [reflexivity|]. split; assumption.
    + destruct (Hnext eq_refl) as [Hpool' Hfail'].
      destruct (IH tasks' s1 Hrd Hpool' Hfail') as (e' & s' & Hrun & Hk' & Hrd').
      exists e', s'. split; [exact Hrun|].
      split; [eapply kept_trans; eassumption|exact Hrd'].
Qed.

Lemma ensureResourceParameters_ready s :
  importEnabled (this s) = true ->
  ready (updateExternal ensureResourceParameters s) /\
  (forall m, parametersOf s = Some m ->
     parametersOf (updateExternal ensureResourceParameters s) = Some m) /\
  externalLandingZoneResources (this (updateExternal ensureResourceParameters s))
    ≫= accountsDeployedExternally
  = externalLandingZoneResources (this s) ≫= accountsDeployedExternally.
Proof.
  unfold ready, importEnabled, parametersOf, ensureResourceParameters. simpl.
  destruct (externalLandingZoneResources (this s)) as [e|]; [|discriminate].
  simpl. intros Hi. destruct (resourceParameters e) as [m|] eqn:Hm; simpl.
  - rewrite Hm. repeat split; eauto.
  - repeat split; eauto. intros m Hm'. discriminate.
Qed.

(** A round that returns has read the parameters of its pair and has
    written them under the key of the pair; a round that does not return
    leaves the instance as it is. *)
Lemma reconcileAccount_round fuel region partition prefix accountId s :
  ready s ->
  match reconcileAccount fuel region partition prefix accountId s with
  | (Some (Ok _), s') =>
      exists params m,
        parametersRead fuel partition prefix (managementAccountAccessRole (this s))
          accountId region = Some params /\
        parametersOf s = Some m /\
        parametersOf s' = Some (<[accountId +:+ "-" +:+ region := params]> m) /\
        managementAccountAccessRole (this s') = managementAccountAccessRole (this s) /\
        ready s'
  | (_, s') => this s' = this s
  end.
Proof.
  intros Hready.
  pose proof (reconcileAccount_kept fuel [region] [accountId] region partition prefix
                accountId s Hready) as [Hkept Hready'];
    [left|left|].
  unfold reconcileAccount, parametersRead in *.
  pose proof (getCrossAccountCredentials_this accountId region partition
                (managementAccountAccessRole (this s)) s) as Hthis.
  unfold getCrossAccountCredentials, try_catch, bind, lift in *.
  destruct (throttlingBackOff (sts_send region _)) as [[output|]|e];
    [|exact Hthis..].
  unfold ret in *. simpl in Hthis.
  destruct (getCrossAccountSsmClient region output) as [ssmClient|e]; [|reflexivity].
  destruct (Promise_all _) as [[ssmResults|e]|]; [|reflexivity..].
  destruct (commitParameters_ready (accountId +:+ "-" +:+ region)
              (mergeResults ssmResults) s Hready) as (m & Hm & Hcommit).
  rewrite Hcommit in *. simpl in Hkept, Hready'.
  exists (mergeResults ssmResults), m.
  split; [reflexivity|]. split; [exact Hm|].
  split; [apply parametersOf_update, ready_external; exact Hready|].
  split; [apply (kept_role _ _ _ _ Hkept)|exact Hready'].
Qed.

Lemma holdsRounds_nil fuel partition prefix role m :
  holdsRounds fuel partition prefix role [] m.
Proof. intros a r Hin. inversion Hin. Qed.

(** A round that returns adds its pair to the rounds that the entries
    hold. *)
Lemma holdsRounds_round fuel partition prefix role rounds m a r params :
  holdsRounds fuel partition prefix role rounds m ->
  parametersRead fuel partition prefix role a r = Some params ->
  holdsRounds fuel partition prefix role (rounds ++ [(a, r)])
    (<[a +:+ "-" +:+ r := params]> m).
Proof.
  intros Hholds Hread a0 r0 Hin.
  destruct (decide (a +:+ "-" +:+ r = a0 +:+ "-" +:+ r0)) as [Heq|Hne].
  - exists a, r. split; [apply elem_of_app; right; left|]. split; [exact Heq|].
    rewrite <- Heq, lookup_insert_eq, Hread. split; [eauto|reflexivity].
  - apply elem_of_app in Hin as [Hin|Hin].
    + destruct (Hholds a0 r0 Hin) as (a' & r' & Hin' & Hkey & Hsome & Hval).
      exists a', r'. split; [apply elem_of_app; left; exact Hin'|].
      split; [exact Hkey|]. rewrite lookup_insert_ne by exact Hne. split; assumption.
    + apply list_elem_of_singleton in Hin. injection Hin as -> ->.
      exfalso. apply Hne. reflexivity.
Qed.

(** What a run has reached when [rounds] have returned: the state is
    ready, the role is [role], and the entries hold the rounds. *)
Lemma loopRounds_held fuel region partition prefix role pending : forall rounds s,
  goodFor role s ->
  (exists m, parametersOf s = Some m /\ holdsRounds fuel partition prefix role rounds m) ->
  let s' := snd (loadRegionLzaResources_loop fuel region partition prefix pending s) in
  goodFor role s' /\
  exists m', parametersOf s' = Some m' /\
    holdsRounds fuel partition prefix role
      (rounds ++ loopRounds fuel region partition prefix pending s) m'.
Proof.
  induction pending as [|a rest IH]; intros rounds s Hgood Hheld; simpl.
  - rewrite app_nil_r. split; assumption.
  - destruct Hgood as [Hready Hrole].
    pose proof (reconcileAccount_round fuel region partition prefix a s Hready) as Hround.
    destruct (reconcileAccount fuel region partition prefix a s) as [[[[]|e]|] s1].
    + destruct Hround as (params & m & Hread & Hm & Hm1 & Hrole1 & Hready1).
      destruct Hheld as (m0 & Hm0 & Hholds). rewrite Hm in Hm0. injection Hm0 as <-.
      rewrite Hrole in Hread.
      destruct (IH (rounds ++ [(a, region)]) s1) as [Hgood' (m' & Hm' & Hholds')].
      { split; [exact Hready1|congruence]. }
      { eexists. split; [exact Hm1|]. apply holdsRounds_round; assumption. }
      split; [exact Hgood'|]. exists m'. split; [exact Hm'|].
      rewrite <- app_assoc in Hholds'. exact Hholds'.
    + simpl. rewrite app_nil_r. unfold goodFor, ready, parametersOf in *.
      rewrite Hround. split; [split; assumption|exact Hheld].
    + simpl. rewrite app_nil_r. unfold goodFor, ready, parametersOf in *.
      rewrite Hround. split; [split; assumption|exact Hheld].
Qed.

Lemma turnRounds_held fuel partition prefix role i tasks rounds s :
  goodFor role s ->
  (exists m, parametersOf s = Some m /\ holdsRounds fuel partition prefix role rounds m) ->
  let s' := snd (turn fuel partition prefix i tasks s) in
  goodFor role s' /\
  exists m', parametersOf s' = Some m' /\
    holdsRounds fuel partition prefix role
      (rounds ++ turnRounds fuel partition prefix i tasks s) m'.
Proof.
  intros Hgood Hheld. unfold turn, turnRounds.
  destruct (tasks !! i) as [[region [|a rest]]|]; simpl;
    [rewrite app_nil_r; split; assumption| |rewrite app_nil_r; split; assumption].
  destruct Hgood as [Hready Hrole].
  pose proof (reconcileAccount_round fuel region partition prefix a s Hready) as Hround.
  destruct (reconcileAccount fuel region partition prefix a s) as [[[[]|e]|] s1]; simpl.
  - destruct Hround as (params & m & Hread & Hm & Hm1 & Hrole1 & Hready1).
    destruct Hheld as (m0 & Hm0 & Hholds). rewrite Hm in Hm0. injection Hm0 as <-.
    rewrite Hrole in Hread.
    split; [split; [exact Hready1|congruence]|].
    eexists. split; [exact Hm1|]. apply holdsRounds_round; assumption.
  - rewrite app_nil_r. unfold goodFor, ready, parametersOf in *.
    rewrite Hround. split; [split; assumption|exact Hheld].
  - rewrite app_nil_r. unfold goodFor, ready, parametersOf in *.
    rewrite Hround. split; [split; assumption|exact Hheld].
Qed.

Lemma finishRounds_held fuel partition prefix role tasks : forall stuck rounds s,
  goodFor role s ->
  (exists m, parametersOf s = Some m /\ holdsRounds fuel partition prefix role rounds m) ->
  let s' := snd (finish fuel partition prefix stuck tasks s) in
  exists m', parametersOf s' = Some m' /\
    holdsRounds fuel partition prefix role
      (rounds ++ finishRounds fuel partition prefix tasks s) m'.
Proof.
  induction tasks as [|t tasks IH]; intros stuck rounds s Hgood Hheld; simpl.
  - rewrite app_nil_r. destruct stuck; exact Hheld.
  - destruct (loopRounds_held fuel (taskRegion t) partition prefix role (pending t)
                rounds s Hgood Hheld) as [Hgood1 Hheld1].
    destruct (loadRegionLzaResources_loop fuel (taskRegion t) partition prefix (pending t) s)
      as [[[[]|e]|] s1]; simpl in Hgood1, Hheld1 |- *.
    + rewrite app_assoc. apply IH; assumption.
    + rewrite app_nil_r. exact Hheld1.
    + rewrite app_assoc. apply IH; assumption.
Qed.

Lemma awaitRounds_held fuel partition prefix role schedule : forall tasks rounds s,
  goodFor role s ->
  (exists m, parametersOf s = Some m /\ holdsRounds fuel partition prefix role rounds m) ->
  let s' := snd (awaitAll fuel partition prefix schedule tasks s) in
  exists m', parametersOf s' = Some m' /\
    holdsRounds fuel partition prefix role
      (rounds ++ awaitRounds fuel partition prefix schedule tasks s) m'.
Proof.
  induction schedule as [|i schedule IH]; intros tasks rounds s Hgood Hheld; simpl.
  - apply finishRounds_held; assumption.
  - destruct (turnRounds_held fuel partition prefix role i tasks rounds s Hgood Hheld)
      as [Hgood1 Hheld1].
    destruct (turn fuel partition prefix i tasks s) as [[[e|] tasks'] s1];
      simpl in Hgood1, Hheld1 |- *.
    + rewrite app_nil_r. exact Hheld1.
    + rewrite app_assoc. apply IH; assumption.
Qed.

(** When [loadLzaResources] is settled, or when its rounds run out, the
    entries hold every round that has returned. *)
Lemma completedRounds_held fuel schedule partition prefix s :
  importEnabled (this s) = true ->
  exists m',
    parametersOf (snd (loadLzaResources fuel schedule partition prefix s)) = Some m' /\
    holdsRounds fuel partition prefix (managementAccountAccessRole (this s))
      (completedRounds fuel schedule partition prefix s) m'.
Proof.
  intros Hi. destruct (ensureResourceParameters_ready s Hi) as (Hready & _ & _).
  unfold loadLzaResources, completedRounds. rewrite Hi. cbn [negb]. cbv zeta.
  apply (awaitRounds_held fuel partition prefix (managementAccountAccessRole (this s))
           schedule _ []).
  - split; [exact Hready|reflexivity].
  - destruct Hready as [_ [m Hm]]. exists m. split; [exact Hm|apply holdsRounds_nil].
Qed.

(** C3, as the code has it: when the task of an enabled region, run
    alone, ends with an exception, [loadLzaResources] is rejected under
    every schedule of the tasks, and nothing is rolled back. Under the key
    of every reconciliation of an account in a region that has returned
    before the call was rejected, [resourceParameters] holds the
    parameters that a reconciliation with this key has read; every key
    that was bound before the call is still bound, and the entries under
    keys other than [<accountId>-<region>], for the accounts deployed
    externally and the enabled regions, are the ones from before the
    call. *)
Theorem loadLzaResources_rejected_keeps_commits
    fuel schedule partition prefix s region e :
  importEnabled (this s) = true ->
  region ∈ enabledRegions (this s) ->
  fst (loadRegionLzaResources fuel region partition prefix
         (default [] (externalLandingZoneResources (this s) ≫= accountsDeployedExternally))
         (updateExternal ensureResourceParameters s)) = Some (Throw e) ->
  exists e' s' m',
    loadLzaResources fuel schedule partition prefix s = (Rejected e', s') /\
    parametersOf s' = Some m' /\
    (forall a r,
       (a, r) ∈ completedRounds fuel schedule partition prefix s ->
       exists a' r',
         (a', r') ∈ completedRounds fuel schedule partition prefix s /\
         a' +:+ "-" +:+ r' = a +:+ "-" +:+ r /\
         is_Some (m' !! (a +:+ "-" +:+ r)) /\
         m' !! (a +:+ "-" +:+ r) =
           parametersRead fuel partition prefix (managementAccountAccessRole (this s))
             a' r') /\
    forall m, parametersOf s = Some m ->
      dom m ⊆ dom m' /\
      forall key : string,
        (forall a r,
           a ∈ default [] (externalLandingZoneResources (this s) ≫= accountsDeployedExternally) ->
           r ∈ enabledRegions (this s) -> key <> a +:+ "-" +:+ r) ->
        m' !! key = m !! key.
Proof.
  intros Hi Hregion Hfails.
  destruct (completedRounds_held fuel schedule partition prefix s Hi) as (mh & Hmh & Hheld).
  destruct (ensureResourceParameters_ready s Hi) as (Hready & Hsame & Haccounts).
  unfold loadLzaResources in *. rewrite Hi in *. cbn [negb] in *. cbv zeta in *.
  rewrite Haccounts in *.
  set (s0 := updateExternal ensureResourceParameters s) in *.
  set (accounts := default [] (externalLandingZoneResources (this s)
                                 ≫= accountsDeployedExternally)) in *.
  assert (Hi0 : importEnabled (this s0) = true) by apply Hready.
  assert (Hpool : poolOk (enabledRegions (this s)) accounts
                    (map (startTask accounts s0) (enabledRegions (this s0)))).
  { apply Forall_forall. intros t Ht. apply list_elem_of_In, in_map_iff in Ht
      as (r & <- & Hr). apply list_elem_of_In in Hr.
    unfold startTask. rewrite Hi0. simpl. split; [exact Hr|reflexivity]. }
  assert (Hfail : Exists (fails fuel partition prefix s0)
                    (map (startTask accounts s0) (enabledRegions (this s0)))).
  { apply Exists_exists. exists (startTask accounts s0 region). split.
    - apply list_elem_of_In, in_map, list_elem_of_In. exact Hregion.
    - exists e. unfold startTask. rewrite Hi0. simpl.
      unfold loadRegionLzaResources in Hfails. rewrite Hi0 in Hfails. exact Hfails. }
  destruct (awaitAll_rejects fuel (enabledRegions (this s)) accounts partition prefix
              schedule _ s0 Hready Hpool Hfail) as (e' & s' & Hrun & Hkept & Hready').
  rewrite Hrun in Hmh. simpl in Hmh.
  exists e', s', mh. split; [exact Hrun|]. split; [exact Hmh|]. split; [exact Hheld|].
  intros m Hm. destruct Hkept as (_ & _ & Hk).
  destruct (Hk m (Hsame m Hm)) as (m'' & Hm'' & Hdom & Hkeys).
  rewrite Hmh in Hm''. injection Hm'' as <-. split; assumption.
Qed.

End FanOut.

(** ** Objects *)

Lemma lookupProp_setProp k k' v props :
  lookupProp k (setProp k' v props) =
    if String.eqb k k' then v else lookupProp k props.
Proof.
  induction props as [|[k0 v0] props IH]; simpl.
  - destruct (String.eqb k k'); reflexivity.
  - destruct (String.eqb_spec k' k0) as [->|Hne]; simpl.
    + destruct (String.eqb k k0); reflexivity.
    + destruct (String.eqb_spec k k0) as [->|Hne'].
      * destruct (String.eqb_spec k0 k') as [->|_]; [contradiction|reflexivity].
      * exact IH.
Qed.

Lemma lookupProp_present k props :
  lookupProp k props <> VUndefined -> k ∈ map fst props.
Proof.
  induction props as [|[k0 v0] props IH]; simpl; [contradiction|].
  destruct (String.eqb_spec k k0) as [->|_]; [left|right; auto].
Qed.

(** After the loop of [Object.assign] over [keys], a property of the
    target is the one of the source if its key was met, and is untouched
    otherwise. *)
Lemma assign_keys_lookup source (keys : list string) : forall target k,
  lookupProp k (fold_left (fun t k' => setProp k' (field source k') t) keys target) =
    if bool_decide (k ∈ keys) then field source k else lookupProp k target.
Proof.
  induction keys as [|k0 keys IH]; intros target k; simpl fold_left.
  - rewrite bool_decide_eq_false_2 by (apply not_elem_of_nil). reflexivity.
  - rewrite IH, lookupProp_setProp.
    destruct (bool_decide (k ∈ keys)) eqn:Hin.
    + apply bool_decide_eq_true_1 in Hin.
      rewrite bool_decide_eq_true_2 by (right; exact Hin). reflexivity.
    + apply bool_decide_eq_false_1 in Hin.
      destruct (String.eqb_spec k k0) as [->|Hne].
      * rewrite bool_decide_eq_true_2 by left. reflexivity.
      * rewrite bool_decide_eq_false_2; [reflexivity|].
        intros Hk. apply elem_of_cons in Hk as [Heq|Hin']; [congruence|contradiction].
Qed.

(** [Object.assign] writes every property that the source has. *)
Lemma Object_assign_defined target source k :
  field source k <> VUndefined ->
  lookupProp k (Object_assign target source) = field source k.
Proof.
  intros Hdef. unfold Object_assign. rewrite assign_keys_lookup.
  rewrite bool_decide_eq_true_2; [reflexivity|].
  destruct source; simpl in *; try contradiction.
  apply lookupProp_present. exact Hdef.
Qed.

(** ** Validation *)

Lemma firstError_None {A} (check : A -> option exn) l x :
  firstError check l = None -> In x l -> check x = None.
Proof.
  induction l as [|y l IH]; simpl; [contradiction|].
  destruct (check y) eqn:Hy; [discriminate|].
  intros Hl [->|Hin]; [exact Hy|auto].
Qed.

(** A value that passes an interface node is an object whose fields pass
    the nodes of the interface. *)
Lemma validate_interface path props v k sk :
  validate path (TInterface props) v = None -> In (k, sk) props ->
  (exists fields, v = VObject fields) /\ validate (path ++ [k]) sk (field v k) = None.
Proof.
  intros Hv Hin. destruct v; simpl in Hv; try discriminate.
  split; [eauto|].
  exact (firstError_None _ _ (k, sk) Hv Hin).
Qed.

Lemma validate_nonEmptyString path v :
  validate path TNonEmptyString v = None -> exists r, v = VString r /\ r <> "".
Proof.
  destruct v; simpl; try discriminate.
  destruct (String.eqb_spec s ""); [discriminate|]. eauto.
Qed.

Lemma validate_boolean path v :
  validate path TBoolean v = None -> exists b, v = VBool b.
Proof. destruct v; simpl; try discriminate. eauto. Qed.

Lemma validate_array path item v :
  validate path (TArray item) v = None -> exists items, v = VArray items.
Proof. destruct v; simpl; try discriminate. eauto. Qed.

Section Loading.
Context `{CommonTypes} `{Libraries}.

(** What the schema asks of the required fields of a document. *)
Lemma conforms_required D :
  conforms D ->
  (exists fields, D = VObject fields) /\
  (exists r, field D "homeRegion" = VString r /\ r <> "") /\
  (exists r, field D "managementAccountAccessRole" = VString r /\ r <> "") /\
  (exists fields, field D "controlTower" = VObject fields) /\
  (exists b, field (field D "controlTower") "enable" = VBool b) /\
  (exists regions, field D "enabledRegions" = VArray regions).
Proof.
  intros HD. unfold conforms, GlobalConfigTypes.globalConfig in HD.
  assert (Hfield : forall k sk, In (k, sk) GlobalConfigTypes.globalConfigProps ->
                                validate ([] ++ [k]) sk (field D k) = None).
  { intros k sk Hin. exact (proj2 (validate_interface _ _ _ _ _ HD Hin)). }
  split.
  { exact (proj1 (validate_interface _ _ _ "homeRegion" TNonEmptyString HD
                    (or_introl eq_refl))). }
  split; [eapply validate_nonEmptyString, Hfield; simpl; auto|].
  split; [eapply validate_nonEmptyString, Hfield; simpl; auto|].
  assert (Hct : validate ([] ++ ["controlTower"]) GlobalConfigTypes.controlTowerConfig
                  (field D "controlTower") = None)
    by (apply Hfield; simpl; auto 10).
  split; [exact (proj1 (validate_interface _ _ _ "enable" TBoolean Hct (or_introl eq_refl)))|].
  split.
  - eapply validate_boolean.
    exact (proj2 (validate_interface _ _ _ "enable" TBoolean Hct (or_introl eq_refl))).
  - eapply validate_array, Hfield. simpl. auto.
Qed.

Lemma constructor_values props D :
  (exists fields, D = VObject fields) ->
  GlobalConfig.constructor props D = Ok (assignedFrom D).
Proof. intros [fields ->]. reflexivity. Qed.

Lemma constructor_props D :
  (exists fields, D = VObject fields) ->
  GlobalConfig.constructor D VUndefined = Ok (builtFrom D).
Proof. intros [fields ->]. reflexivity. Qed.

Lemma requiredProps_object D :
  (exists fields, D = VObject fields) -> exists props, GlobalConfig.requiredProps D = Ok props.
Proof. intros [fields ->]. eexists. reflexivity. Qed.

Lemma parse_conforms D r :
  parse GlobalConfigTypes.globalConfig D = r ->
  (conforms D /\ r = Ok D) \/ (~ conforms D /\ exists e, r = Throw e).
Proof.
  unfold parse, conforms. destruct (validate [] GlobalConfigTypes.globalConfig D) as [e|].
  - intros <-. right. split; [discriminate|eauto].
  - intros <-. left. split; reflexivity.
Qed.

Lemma fromObject_conforming D :
  conforms D -> GlobalConfig.fromObject D = Ok (assignedFrom D).
Proof.
  intros HD. pose proof (conforms_required D HD) as (Hobj & _).
  unfold GlobalConfig.fromObject, parse. unfold conforms in HD. rewrite HD.
  destruct (requiredProps_object D Hobj) as [props ->].
  apply constructor_values. exact Hobj.
Qed.

Lemma fromObject_ok D cfg :
  GlobalConfig.fromObject D = Ok cfg -> conforms D.
Proof.
  unfold GlobalConfig.fromObject.
  destruct (parse_conforms D _ eq_refl) as [[HD _]|[_ [e ->]]]; [auto|discriminate].
Qed.

Lemma loadFromString_conforming content D w :
  yaml_load content = Ok D -> conforms D ->
  GlobalConfig.loadFromString content w = (Ok (builtFrom D), w).
Proof.
  intros Hyaml HD. pose proof (conforms_required D HD) as (Hobj & _).
  unfold GlobalConfig.loadFromString, try_catch, bind, lift.
  rewrite Hyaml. unfold parse. unfold conforms in HD. rewrite HD.
  rewrite (constructor_props D Hobj). reflexivity.
Qed.

(** What [loadFromString] does when the text or the document is refused. *)
Lemma loadFromString_refused content w e :
  yaml_load content = Throw e \/
  (exists D, yaml_load content = Ok D /\
             parse GlobalConfigTypes.globalConfig D = Throw e) ->
  GlobalConfig.loadFromString content w =
    (Throw (Error "Could not load global configuration"),
     {| tmpdir := tmpdir w; files := files w; tmpnames := tmpnames w;
        console := console w ++ ["Error parsing input, global config undefined"; toString e];
        s3Requests := s3Requests w |}).
Proof.
  intros Hrefused.
  unfold GlobalConfig.loadFromString, try_catch, bind, lift, console_error, modify, throw.
  destruct Hrefused as [->|(D & -> & ->)]; simpl; rewrite <- app_assoc; reflexivity.
Qed.

Lemma loadFromString_ok content w cfg w' :
  GlobalConfig.loadFromString content w = (Ok cfg, w') ->
  exists D, yaml_load content = Ok D /\ conforms D /\ cfg = builtFrom D /\ w' = w.
Proof.
  intros Hrun. destruct (yaml_load content) as [D|e] eqn:Hyaml.
  - destruct (parse_conforms D _ eq_refl) as [[HD _]|[_ [e He]]].
    + rewrite (loadFromString_conforming _ _ _ Hyaml HD) in Hrun.
      injection Hrun as <- <-. exists D. repeat split. exact HD.
    + rewrite (loadFromString_refused content w e) in Hrun by (right; eauto).
      discriminate.
  - rewrite (loadFromString_refused content w e) in Hrun by (left; exact Hyaml).
    discriminate.
Qed.

Lemma load_conforming dir buffer D w :
  files w !! dir ≫= (fun d => d !! GlobalConfig.FILENAME) = Some buffer ->
  yaml_load buffer = Ok D -> conforms D ->
  GlobalConfig.load dir w = (Ok (assignedFrom D), w).
Proof.
  intros Hfile Hyaml HD. pose proof (conforms_required D HD) as (Hobj & _).
  unfold GlobalConfig.load, bind, lift, readFileSync. simpl.
  rewrite Hfile, Hyaml. unfold parse. unfold conforms in HD. rewrite HD.
  destruct (requiredProps_object D Hobj) as [props ->].
  rewrite (constructor_values props D Hobj). reflexivity.
Qed.

Lemma load_ok dir w cfg w' :
  GlobalConfig.load dir w = (Ok cfg, w') ->
  exists buffer D,
    files w !! dir ≫= (fun d => d !! GlobalConfig.FILENAME) = Some buffer /\
    yaml_load buffer = Ok D /\ conforms D /\ cfg = assignedFrom D /\ w' = w.
Proof.
  intros Hrun.
  destruct (files w !! dir ≫= (fun d => d !! GlobalConfig.FILENAME)) as [buffer|] eqn:Hfile.
  - destruct (yaml_load buffer) as [D|e] eqn:Hyaml.
    + destruct (parse_conforms D _ eq_refl) as [[HD _]|[_ [e He]]].
      * rewrite (load_conforming _ _ _ _ Hfile Hyaml HD) in Hrun.
        injection Hrun as <- <-. exists buffer, D. repeat split; assumption.
      * unfold GlobalConfig.load, bind, lift, readFileSync in Hrun. simpl in Hrun.
        rewrite Hfile, Hyaml, He in Hrun. discriminate.
    + unfold GlobalConfig.load, bind, lift, readFileSync in Hrun. simpl in Hrun.
      rewrite Hfile, Hyaml in Hrun. discriminate.
  - unfold GlobalConfig.load, bind, lift, readFileSync in Hrun. simpl in Hrun.
    rewrite Hfile in Hrun. discriminate.
Qed.

(** The required fields of the two objects that the constructor builds. *)
Lemma assignedFrom_required D : conforms D -> requiredFieldsFrom D (assignedFrom D).
Proof.
  intros HD.
  destruct (conforms_required D HD)
    as (_ & (r & Hr & Hne) & (role & Hrole & Hne') & (ct & Hct) & (b & Hb) & _).
  assert (H1 : field (assignedFrom D) "homeRegion" = field D "homeRegion")
    by (apply Object_assign_defined; rewrite Hr; discriminate).
  assert (H2 : field (assignedFrom D) "managementAccountAccessRole"
               = field D "managementAccountAccessRole")
    by (apply Object_assign_defined; rewrite Hrole; discriminate).
  assert (H3 : field (assignedFrom D) "controlTower" = field D "controlTower")
    by (apply Object_assign_defined; rewrite Hct; discriminate).
  unfold requiredFieldsFrom. rewrite H1, H2, H3. repeat split; eauto.
Qed.

Lemma builtFrom_required D : conforms D -> requiredFieldsFrom D (builtFrom D).
Proof.
  intros HD.
  destruct (conforms_required D HD)
    as (_ & (r & Hr & Hne) & (role & Hrole & Hne') & (ct & Hct) & (b & Hb) & _).
  assert (H1 : field (builtFrom D) "homeRegion" = field D "homeRegion") by reflexivity.
  assert (H2 : field (builtFrom D) "managementAccountAccessRole"
               = field D "managementAccountAccessRole") by reflexivity.
  assert (H3 : field (field (builtFrom D) "controlTower") "enable"
               = field (field D "controlTower") "enable").
  { change (field (builtFrom D) "controlTower")
      with (spreadWith (field D "controlTower") "controls" (VArray [])).
    unfold spreadWith, field at 1. rewrite lookupProp_setProp.
    change (String.eqb "enable" "controls") with false. cbv iota.
    apply Object_assign_defined. rewrite Hb. discriminate. }
  unfold requiredFieldsFrom. rewrite H1, H2, H3. repeat split; eauto.
Qed.

(** C1: for a document that conforms to the root schema, [fromObject],
    [loadFromString] and [load] return a configuration whose [homeRegion],
    [managementAccountAccessRole] and [controlTower.enable] are the values
    of the document, a non-empty string, a non-empty string and a boolean;
    and a loader returns a configuration for such documents only, so these
    fields are populated in every configuration that a loader returns. *)
Theorem loaders_keep_required_fields :
  (forall D, conforms D ->
     (exists cfg, GlobalConfig.fromObject D = Ok cfg /\ requiredFieldsFrom D cfg) /\
     (forall content w, yaml_load content = Ok D ->
        exists cfg, GlobalConfig.loadFromString content w = (Ok cfg, w) /\
                    requiredFieldsFrom D cfg) /\
     (forall dir buffer w,
        files w !! dir ≫= (fun d => d !! GlobalConfig.FILENAME) = Some buffer ->
        yaml_load buffer = Ok D ->
        exists cfg, GlobalConfig.load dir w = (Ok cfg, w) /\ requiredFieldsFrom D cfg)) /\
  (forall D cfg, GlobalConfig.fromObject D = Ok cfg -> requiredFieldsFrom D cfg) /\
  (forall content w cfg w', GlobalConfig.loadFromString content w = (Ok cfg, w') ->
     exists D, yaml_load content = Ok D /\ requiredFieldsFrom D cfg) /\
  (forall dir w cfg w', GlobalConfig.load dir w = (Ok cfg, w') ->
     exists buffer D,
       files w !! dir ≫= (fun d => d !! GlobalConfig.FILENAME) = Some buffer /\
       yaml_load buffer = Ok D /\ requiredFieldsFrom D cfg).
Proof.
  split; [|split; [|split]].
  - intros D HD. split; [|split].
    + exists (assignedFrom D).
      split; [apply fromObject_conforming|apply assignedFrom_required]; exact HD.
    + intros content w Hyaml. exists (builtFrom D).
      split; [apply loadFromString_conforming|apply builtFrom_required]; assumption.
    + intros dir buffer w Hfile Hyaml. exists (assignedFrom D).
      split; [eapply load_conforming|apply assignedFrom_required]; eassumption.
  - intros D cfg Hrun. pose proof (fromObject_ok _ _ Hrun) as HD.
    rewrite (fromObject_conforming D HD) in Hrun. injection Hrun as <-.
    apply assignedFrom_required. exact HD.
  - intros content w cfg w' Hrun.
    destruct (loadFromString_ok _ _ _ _ Hrun) as (D & Hyaml & HD & -> & _).
    exists D. split; [exact Hyaml|apply builtFrom_required; exact HD].
  - intros dir w cfg w' Hrun.
    destruct (load_ok _ _ _ _ Hrun) as (buffer & D & Hfile & Hyaml & HD & -> & _).
    exists buffer, D. split; [exact Hfile|].
    split; [exact Hyaml|apply assignedFrom_required; exact HD].
Qed.

(** C6: when the text is no YAML or the document is refused by the
    schema, [loadFromString] logs the error and throws the one error
    ["Could not load global configuration"], whatever the error was.
    Whenever it returns, it returns the configuration built from a
    document that conforms, never [undefined]. *)
Theorem loadFromString_throws_one_error content w :
  (forall e,
     yaml_load content = Throw e \/
     (exists D, yaml_load content = Ok D /\
                parse GlobalConfigTypes.globalConfig D = Throw e) ->
     GlobalConfig.loadFromString content w =
       (Throw (Error "Could not load global configuration"),
        {| tmpdir := tmpdir w; files := files w; tmpnames := tmpnames w;
           console := console w ++
                      ["Error parsing input, global config undefined"; toString e];
           s3Requests := s3Requests w |})) /\
  (forall r w', GlobalConfig.loadFromString content w = (r, w') ->
     r = Throw (Error "Could not load global configuration") \/
     exists D cfg,
       yaml_load content = Ok D /\
       parse GlobalConfigTypes.globalConfig D = Ok D /\
       r = Ok cfg /\ cfg <> VUndefined).
Proof.
  split; [intros e; apply loadFromString_refused|].
  intros r w' Hrun. destruct (yaml_load content) as [D|e] eqn:Hyaml.
  - destruct (parse_conforms D _ eq_refl) as [[HD Hparse]|[_ [e He]]].
    + right. rewrite (loadFromString_conforming _ _ _ Hyaml HD) in Hrun.
      injection Hrun as <- _. exists D, (builtFrom D).
      split; [reflexivity|]. split; [exact Hparse|]. split; [reflexivity|discriminate].
    + left. rewrite (loadFromString_refused content w e) in Hrun by (right; eauto).
      injection Hrun as <- _. reflexivity.
  - left. rewrite (loadFromString_refused content w e) in Hrun by (left; exact Hyaml).
    injection Hrun as <- _. reflexivity.
Qed.

(** C10: for a document that conforms, [loadFromString] returns a
    configuration whose [enabledRegions] is the one-element list of the
    [homeRegion] of the document and whose [controlTower.controls] is
    empty; every field other than [homeRegion], [enabledRegions],
    [controlTower] and [managementAccountAccessRole] has the default of the
    class, whatever the document says. *)
Theorem loadFromString_keeps_class_defaults content D w :
  yaml_load content = Ok D -> conforms D ->
  exists cfg,
    GlobalConfig.loadFromString content w = (Ok cfg, w) /\
    field cfg "enabledRegions" = VArray [field D "homeRegion"] /\
    field (field cfg "controlTower") "controls" = VArray [] /\
    forall k : string,
      k ∉ ["homeRegion"; "enabledRegions"; "controlTower"; "managementAccountAccessRole"] ->
      field cfg k = lookupProp k GlobalConfig.fieldDefaults.
Proof.
  intros Hyaml HD. exists (builtFrom D).
  split; [apply loadFromString_conforming; assumption|].
  split; [reflexivity|]. split.
  - change (field (builtFrom D) "controlTower")
      with (spreadWith (field D "controlTower") "controls" (VArray [])).
    unfold spreadWith, field. rewrite lookupProp_setProp. reflexivity.
  - intros k Hk. unfold builtFrom, field. rewrite !lookupProp_setProp.
    destruct (String.eqb_spec k "managementAccountAccessRole") as [->|_];
      [exfalso; apply Hk; set_solver|].
    destruct (String.eqb_spec k "controlTower") as [->|_];
      [exfalso; apply Hk; set_solver|].
    destruct (String.eqb_spec k "enabledRegions") as [->|_];
      [exfalso; apply Hk; set_solver|].
    destruct (String.eqb_spec k "homeRegion") as [->|_];
      [exfalso; apply Hk; set_solver|].
    reflexivity.
Qed.

(** C7, as the code has it: the configuration that [loadFromString]
    returns has its [homeRegion] among its [enabledRegions]; [fromObject]
    and [load] take both fields from the document as they are, so that
    their result has the [homeRegion] among the [enabledRegions] exactly
    when the document has. *)
Theorem homeRegion_enabled_as_in_document D :
  conforms D ->
  (forall content w cfg w',
     yaml_load content = Ok D ->
     GlobalConfig.loadFromString content w = (Ok cfg, w') -> homeRegionEnabled cfg) /\
  (forall cfg, GlobalConfig.fromObject D = Ok cfg ->
     (homeRegionEnabled cfg <-> homeRegionEnabled D)) /\
  (forall dir buffer w cfg w',
     files w !! dir ≫= (fun d => d !! GlobalConfig.FILENAME) = Some buffer ->
     yaml_load buffer = Ok D ->
     GlobalConfig.load dir w = (Ok cfg, w') ->
     (homeRegionEnabled cfg <-> homeRegionEnabled D)).
Proof.
  intros HD.
  destruct (conforms_required D HD) as (_ & (r & Hr & _) & _ & _ & _ & (regions & Hregions)).
  assert (Hassigned : homeRegionEnabled (assignedFrom D) <-> homeRegionEnabled D).
  { unfold homeRegionEnabled.
    replace (field (assignedFrom D) "enabledRegions") with (field D "enabledRegions")
      by (symmetry; apply Object_assign_defined; rewrite Hregions; discriminate).
    replace (field (assignedFrom D) "homeRegion") with (field D "homeRegion")
      by (symmetry; apply Object_assign_defined; rewrite Hr; discriminate).
    reflexivity. }
  split; [|split].
  - intros content w cfg w' Hyaml Hrun.
    rewrite (loadFromString_conforming _ _ _ Hyaml HD) in Hrun. injection Hrun as <- _.
    exists [field D "homeRegion"]. split; [reflexivity|left].
  - intros cfg Hrun. rewrite (fromObject_conforming D HD) in Hrun.
    injection Hrun as <-. exact Hassigned.
  - intros dir buffer w cfg w' Hfile Hyaml Hrun.
    rewrite (load_conforming _ _ _ _ Hfile Hyaml HD) in Hrun.
    injection Hrun as <- _. exact Hassigned.
Qed.

End Loading.

(** ** The statements on the sample deployment *)

Lemma sample_conforms : @conforms Sample.commonTypes Sample.configDocument.
Proof. vm_compute. reflexivity. Qed.

Lemma stray_conforms : @conforms Sample.commonTypes Sample.strayDocument.
Proof. vm_compute. reflexivity. Qed.

(** The sample document goes through [fromObject] with its required
    fields. *)
Lemma loaders_keep_required_fields_witness :
  @conforms Sample.commonTypes Sample.configDocument /\
  exists cfg,
    @GlobalConfig.fromObject Sample.commonTypes Sample.configDocument = Ok cfg /\
    requiredFieldsFrom Sample.configDocument cfg.
Proof.
  split; [exact sample_conforms|].
  exact (proj1 (proj1 (@loaders_keep_required_fields Sample.commonTypes Sample.libraries)
                  Sample.configDocument sample_conforms)).
Defined.

(** The broken text makes [loadFromString] log and throw the one error. *)
Lemma loadFromString_throws_one_error_witness :
  @yaml_load Sample.libraries Sample.brokenText
    = Throw (YAMLException "unexpected end of the stream within a flow collection") /\
  @GlobalConfig.loadFromString Sample.commonTypes Sample.libraries
      Sample.brokenText Sample.earth =
    (Throw (Error "Could not load global configuration"),
     {| tmpdir := tmpdir Sample.earth; files := files Sample.earth;
        tmpnames := tmpnames Sample.earth;
        console := console Sample.earth ++
          ["Error parsing input, global config undefined";
           toString (YAMLException "unexpected end of the stream within a flow collection")];
        s3Requests := s3Requests Sample.earth |}).
Proof.
  assert (Hyaml : @yaml_load Sample.libraries Sample.brokenText
                  = Throw (YAMLException "unexpected end of the stream within a flow collection"))
    by reflexivity.
  split; [exact Hyaml|].
  exact (proj1 (@loadFromString_throws_one_error Sample.commonTypes Sample.libraries
                  Sample.brokenText Sample.earth) _ (or_introl Hyaml)).
Defined.

(** The sample document names two regions, no termination protection and
    tags; [loadFromString] returns the defaults of the class for them. *)
Lemma loadFromString_keeps_class_defaults_witness :
  @yaml_load Sample.libraries Sample.configText = Ok Sample.configDocument /\
  @conforms Sample.commonTypes Sample.configDocument /\
  exists cfg,
    @GlobalConfig.loadFromString Sample.commonTypes Sample.libraries
        Sample.configText Sample.earth = (Ok cfg, Sample.earth) /\
    field cfg "enabledRegions" = VArray [field Sample.configDocument "homeRegion"] /\
    field (field cfg "controlTower") "controls" = VArray [] /\
    forall k : string,
      k ∉ ["homeRegion"; "enabledRegions"; "controlTower"; "managementAccountAccessRole"] ->
      field cfg k = lookupProp k GlobalConfig.fieldDefaults.
Proof.
  assert (Hyaml : @yaml_load Sample.libraries Sample.configText = Ok Sample.configDocument)
    by reflexivity.
  split; [exact Hyaml|]. split; [exact sample_conforms|].
  exact (@loadFromString_keeps_class_defaults Sample.commonTypes Sample.libraries
           Sample.configText Sample.configDocument Sample.earth Hyaml sample_conforms).
Defined.

Example loadFromString_drops_tags :
  exists cfg,
    @GlobalConfig.loadFromString Sample.commonTypes Sample.libraries
        Sample.configText Sample.earth = (Ok cfg, Sample.earth) /\
    field Sample.configDocument "tags" <> VArray [] /\
    field cfg "tags" = VArray [] /\
    field cfg "terminationProtection" = VBool true /\
    field cfg "enabledRegions" = VArray [VString "ca-central-1"].
Proof.
  eexists. split; [reflexivity|]. split; [discriminate|]. repeat split.
Qed.

(** C7 does not hold of [fromObject]: the stray document conforms to the
    schema, and the configuration made of it has the home region
    [us-east-1] and the enabled regions [us-west-2]. *)
Lemma fromObject_homeRegion_not_enabled :
  exists cfg,
    @GlobalConfig.fromObject Sample.commonTypes Sample.strayDocument = Ok cfg /\
    ~ homeRegionEnabled cfg.
Proof.
  eexists. split; [reflexivity|].
  intros (regions & Hregions & Hin). vm_compute in Hregions. injection Hregions as <-.
  vm_compute in Hin. apply list_elem_of_singleton in Hin. discriminate.
Qed.

Lemma homeRegion_enabled_as_in_document_witness :
  @conforms Sample.commonTypes Sample.strayDocument /\
  forall cfg,
    @GlobalConfig.fromObject Sample.commonTypes Sample.strayDocument = Ok cfg ->
    (homeRegionEnabled cfg <-> homeRegionEnabled Sample.strayDocument).
Proof.
  split; [exact stray_conforms|].
  exact (proj1 (proj2 (@homeRegion_enabled_as_in_document Sample.commonTypes Sample.libraries
                         Sample.strayDocument stray_conforms))).
Defined.

(** The three pages of [/ASEA/iam/] are merged; the value of the second
    page wins for the name that comes twice. *)
Lemma sample_pages_served :
  @served Sample.aws Sample.ssmClient "/ASEA/iam/" None
    [Sample.iamPage1; Sample.iamPage2; Sample.iamPage3].
Proof.
  apply served_next; [reflexivity..|].
  apply served_next; [reflexivity..|].
  apply served_last; reflexivity.
Qed.

Lemma getParametersByPath_merges_pages_witness :
  @served Sample.aws Sample.ssmClient "/ASEA/iam/" None
    [Sample.iamPage1; Sample.iamPage2; Sample.iamPage3] /\
  (length [Sample.iamPage1; Sample.iamPage2; Sample.iamPage3] <= 5)%nat /\
  exists merged,
    @getParametersByPath Sample.aws 5 "/ASEA/iam/" Sample.ssmClient = Some (Ok merged) /\
    forall k, merged !! k =
                lastValue k (pageEntries [Sample.iamPage1; Sample.iamPage2; Sample.iamPage3]).
Proof.
  split; [exact sample_pages_served|].
  assert (Hfuel : (length [Sample.iamPage1; Sample.iamPage2; Sample.iamPage3] <= 5)%nat)
    by (simpl; lia).
  split; [exact Hfuel|].
  exact (@getParametersByPath_merges_pages Sample.aws Sample.ssmClient "/ASEA/iam/"
           _ 5 sample_pages_served Hfuel).
Defined.

Example getParametersByPath_sample :
  @getParametersByPath Sample.aws 5 "/ASEA/iam/" Sample.ssmClient =
    Some (Ok {[ "/ASEA/iam/role/Admin" := "arn:role/Admin";
                "/ASEA/iam/role/Ops" := "arn:role/Ops-v2";
                "/ASEA/iam/policy/Deny" := "arn:policy/Deny" ]}).
Proof. vm_compute. reflexivity. Qed.

Example first_run_writes_cache :
  fst (@loadExternalMapping Sample.libraries Sample.aws false Sample.start) = Ok tt /\
  existsSync (path_join "/tmp/asea-assets3fK9aZ" "aseaMapping.json") (world afterFirstRun)
    = true /\
  existsSync (path_join "/tmp/asea-assets3fK9aZ" "aseaResources.json") (world afterFirstRun)
    = true /\
  s3Requests (world afterFirstRun) =
    [ {| Bucket := Sample.bucket; Key := "mapping.json" |};
      {| Bucket := Sample.bucket; Key := "aseaResources.json" |} ].
Proof. vm_compute. repeat split. Qed.

(** After a run that has written the cache, a run with
    [loadFromCache = true] asks the bucket again for both objects. *)
Example cached_run_fetches_again :
  existsSync (path_join "/tmp/asea-assets3fK9aZ" "aseaMapping.json") (world afterFirstRun)
    = true /\
  fst (@loadExternalMapping Sample.libraries Sample.aws true afterFirstRun) = Ok tt /\
  s3Requests (world (snd (@loadExternalMapping Sample.libraries Sample.aws true afterFirstRun)))
    = s3Requests (world afterFirstRun) ++
      [ {| Bucket := Sample.bucket; Key := "mapping.json" |};
        {| Bucket := Sample.bucket; Key := "aseaResources.json" |} ].
Proof. vm_compute. repeat split. Qed.

Lemma loadExternalMapping_always_fetches_witness :
  existsSync (path_join "/tmp/asea-assets3fK9aZ" "aseaMapping.json") (world afterFirstRun)
    = true /\
  importEnabled (this afterFirstRun) = true /\
  configuredBucket (this afterFirstRun) = Some Sample.bucket /\
  Sample.bucket <> "" /\
  @loadExternalMapping Sample.libraries Sample.aws true afterFirstRun =
    (fst (@loadExternalMapping Sample.libraries Sample.aws true afterFirstRun),
     snd (@loadExternalMapping Sample.libraries Sample.aws true afterFirstRun)) /\
  ((fst (@loadExternalMapping Sample.libraries Sample.aws true afterFirstRun)
      = Throw (SystemError "EEXIST") /\
    s3Requests (world (snd (@loadExternalMapping Sample.libraries Sample.aws true afterFirstRun)))
      = s3Requests (world afterFirstRun)) \/
   exists later,
     s3Requests (world (snd (@loadExternalMapping Sample.libraries Sample.aws true afterFirstRun)))
       = s3Requests (world afterFirstRun) ++
         {| Bucket := Sample.bucket; Key := "mapping.json" |} :: later).
Proof.
  assert (Hi : importEnabled (this afterFirstRun) = true) by (vm_compute; reflexivity).
  assert (Hb : configuredBucket (this afterFirstRun) = Some Sample.bucket)
    by (vm_compute; reflexivity).
  assert (Hne : Sample.bucket <> "") by discriminate.
  assert (Hrun : @loadExternalMapping Sample.libraries Sample.aws true afterFirstRun =
                 (fst (@loadExternalMapping Sample.libraries Sample.aws true afterFirstRun),
                  snd (@loadExternalMapping Sample.libraries Sample.aws true afterFirstRun)))
    by apply surjective_pairing.
  split; [vm_compute; reflexivity|].
  split; [exact Hi|]. split; [exact Hb|]. split; [exact Hne|]. split; [exact Hrun|].
  exact (@loadExternalMapping_always_fetches Sample.libraries Sample.aws true afterFirstRun
           Sample.bucket _ _ Hi Hb Hne Hrun).
Defined.

(** In the sample the bucket has no [aseaResources.json]: the call
    succeeds with an empty resource list. *)
Example missing_list_gives_empty_list :
  @s3_getObject Sample.aws {| s3Region := "ca-central-1" |}
      {| Bucket := Sample.bucket; Key := "aseaResources.json" |}
    = Throw (AWSError "NoSuchKey" "The specified key does not exist.") /\
  fst (@loadExternalMapping Sample.libraries Sample.aws false Sample.start) = Ok tt /\
  externalLandingZoneResources (this afterFirstRun) ≫= resourceList = Some (VArray []).
Proof. vm_compute. repeat split. Qed.

(** C9 does not hold of the code: in the manifest with the same pair of
    stacks in two regions, the second nested stack has its name in both
    collected identifiers and is not marked. *)
Lemma setTemplateMap_misses_second_match :
  exists stacks s' account d physicalId,
    @setTemplateMap Sample.libraries (Some Sample.twoRegionManifest) reset = (Ok stacks, s') /\
    Sample.twoRegionManifest !! 0%nat = Some account /\
    stacks !! 3%nat = Some d /\
    physicalId ∈ nestedStackPhysicalIds account /\
    namedIn physicalId (AseaStackInfo.stackName d) /\
    AseaStackInfo.nestedStack d = false.
Proof.
  destruct (@setTemplateMap Sample.libraries (Some Sample.twoRegionManifest) reset)
    as [r s'] eqn:Hrun.
  assert (Hr : fst (@setTemplateMap Sample.libraries (Some Sample.twoRegionManifest) reset) = r)
    by (rewrite Hrun; reflexivity).
  vm_compute in Hr. subst r.
  eexists _, s', _, _,
    "arn:aws:cloudformation:us-east-1:111111111111:stack/ASEA-Perimeter-Phase2-Alb/0b2".
  split; [reflexivity|]. split; [reflexivity|]. split; [reflexivity|].
  split; [vm_compute; right; left|]. split; [vm_compute; reflexivity|reflexivity].
Qed.

Lemma setTemplateMap_marks_first_named_stack_witness :
  exists stacks s',
    @setTemplateMap Sample.libraries (Some Sample.twoRegionManifest) reset = (Ok stacks, s') /\
    AseaStackInfo.stackName <$> stacks
      = stackName <$> manifestStacks Sample.twoRegionManifest /\
    (forall (i : nat) stack,
       manifestStacks Sample.twoRegionManifest !! i = Some stack ->
       truthy (parentStack stack) = true ->
       exists d, stacks !! i = Some d /\ AseaStackInfo.nestedStack d = true) /\
    (forall (m : nat) account physicalId (j : nat) n,
       Sample.twoRegionManifest !! m = Some account ->
       physicalId ∈ nestedStackPhysicalIds account ->
       list_find (namedIn physicalId)
         (stackName <$> manifestStacks (take (S m) Sample.twoRegionManifest)) = Some (j, n) ->
       exists d,
       stacks !! j = Some d /\ AseaStackInfo.stackName d = n /\
       AseaStackInfo.nestedStack d = true).
Proof.
  destruct (@setTemplateMap Sample.libraries (Some Sample.twoRegionManifest) reset)
    as [r s'] eqn:Hrun.
  assert (Hr : fst (@setTemplateMap Sample.libraries (Some Sample.twoRegionManifest) reset) = r)
    by (rewrite Hrun; reflexivity).
  vm_compute in Hr. subst r.
  eexists _, s'. split; [reflexivity|].
  exact (@setTemplateMap_marks_first_named_stack Sample.libraries _ _ _ _ Hrun).
Defined.

Example first_nested_stack_is_marked :
  AseaStackInfo.nestedStack <$> default []
    (from_option Some None
       (match fst (@setTemplateMap Sample.libraries (Some Sample.twoRegionManifest) reset) with
        | Ok stacks => Some stacks
        | Throw _ => None
        end))
  = [false; true; false; false].
Proof. vm_compute. reflexivity. Qed.

(** C3 does not hold of the code: with two accounts in one region, the
    role cannot be assumed in the second account; the call is rejected, and
    the entry of the first account, which was not there before the call,
    has been written. *)
Lemma loadLzaResources_commits_before_failure :
  fst sampleFanOut = Rejected (Error "User is not authorized to perform sts:AssumeRole") /\
  firstEntry Sample.twoAccounts = None /\
  firstEntry (snd sampleFanOut) =
    Some {[ "/ASEA/iam/role/Admin" := "arn:role/Admin";
            "/ASEA/iam/role/Ops" := "arn:role/Ops-v2";
            "/ASEA/iam/policy/Deny" := "arn:policy/Deny" ]} /\
  parametersOf (snd sampleFanOut) <> parametersOf Sample.twoAccounts.
Proof.
  assert (Hbefore : firstEntry Sample.twoAccounts = None) by (vm_compute; reflexivity).
  assert (Hafter : firstEntry (snd sampleFanOut) =
                   Some {[ "/ASEA/iam/role/Admin" := "arn:role/Admin";
                           "/ASEA/iam/role/Ops" := "arn:role/Ops-v2";
                           "/ASEA/iam/policy/Deny" := "arn:policy/Deny" ]})
    by (vm_compute; reflexivity).
  split; [vm_compute; reflexivity|]. split; [exact Hbefore|]. split; [exact Hafter|].
  intros Heq. unfold firstEntry in Hafter, Hbefore. rewrite Heq, Hbefore in Hafter.
  discriminate.
Qed.

Lemma loadLzaResources_rejected_keeps_commits_witness :
  importEnabled (this Sample.twoAccounts) = true /\
  "ca-central-1" ∈ enabledRegions (this Sample.twoAccounts) /\
  fst (@loadRegionLzaResources Sample.commonTypes Sample.libraries Sample.aws
         5 "ca-central-1" "aws" "ASEA"
         (default [] (externalLandingZoneResources (this Sample.twoAccounts)
                        ≫= accountsDeployedExternally))
         (updateExternal ensureResourceParameters Sample.twoAccounts))
    = Some (Throw (Error "User is not authorized to perform sts:AssumeRole")) /\
  @completedRounds Sample.commonTypes Sample.libraries Sample.aws
      5 [0%nat; 0%nat] "aws" "ASEA" Sample.twoAccounts
    = [("111111111111", "ca-central-1")] /\
  exists e' s' m',
    @loadLzaResources Sample.commonTypes Sample.libraries Sample.aws
        5 [0%nat; 0%nat] "aws" "ASEA" Sample.twoAccounts = (Rejected e', s') /\
    parametersOf s' = Some m' /\
    (forall a r,
       (a, r) ∈ @completedRounds Sample.commonTypes Sample.libraries Sample.aws
                  5 [0%nat; 0%nat] "aws" "ASEA" Sample.twoAccounts ->
       exists a' r',
         (a', r') ∈ @completedRounds Sample.commonTypes Sample.libraries Sample.aws
                      5 [0%nat; 0%nat] "aws" "ASEA" Sample.twoAccounts /\
         a' +:+ "-" +:+ r' = a +:+ "-" +:+ r /\
         is_Some (m' !! (a +:+ "-" +:+ r)) /\
         m' !! (a +:+ "-" +:+ r) =
           @parametersRead Sample.commonTypes Sample.aws 5 "aws" "ASEA"
             (managementAccountAccessRole (this Sample.twoAccounts)) a' r') /\
    forall m, parametersOf Sample.twoAccounts = Some m ->
      dom m ⊆ dom m' /\
      forall key : string,
        (forall a r,
           a ∈ default [] (externalLandingZoneResources (this Sample.twoAccounts)
                             ≫= accountsDeployedExternally) ->
           r ∈ enabledRegions (this Sample.twoAccounts) -> key <> a +:+ "-" +:+ r) ->
        m' !! key = m !! key.
Proof.
  assert (Hi : importEnabled (this Sample.twoAccounts) = true) by reflexivity.
  assert (Hregion : "ca-central-1" ∈ enabledRegions (this Sample.twoAccounts))
    by (simpl; left).
  assert (Hfails :
    fst (@loadRegionLzaResources Sample.commonTypes Sample.libraries Sample.aws
           5 "ca-central-1" "aws" "ASEA"
           (default [] (externalLandingZoneResources (this Sample.twoAccounts)
                          ≫= accountsDeployedExternally))
           (updateExternal ensureResourceParameters Sample.twoAccounts))
      = Some (Throw (Error "User is not authorized to perform sts:AssumeRole")))
    by (vm_compute; reflexivity).
  split; [exact Hi|]. split; [exact Hregion|]. split; [exact Hfails|].
  split; [vm_compute; reflexivity|].
  exact (@loadLzaResources_rejected_keeps_commits Sample.commonTypes Sample.libraries
           Sample.aws 5 [0%nat; 0%nat] "aws" "ASEA" Sample.twoAccounts "ca-central-1" _
           Hi Hregion Hfails).
Defined.

(* ===================================================================== *)
(** * Part III: further properties                                         *)
(* ===================================================================== *)

(** ** More on the phase *)

Lemma Number_char_range (c : ascii) :
  Number_char c = NaN \/ exists z, 0 <= z <= 9 /\ Number_char c = Int z.
Proof.
  unfold Number_char.
  destruct ((48 <=? Z.of_nat (nat_of_ascii c)) && (Z.of_nat (nat_of_ascii c) <=? 57)) eqn:Hd.
  - apply andb_true_iff in Hd as [H1 H2]. apply Z.leb_le in H1, H2.
    right. eexists. split; [|reflexivity]. lia.
  - destruct (isWhiteSpace c); [right; exists 0; split; [lia|reflexivity]|left; reflexivity].
Qed.

(** X21: the phase is read from one character: it is [NaN], [-1] or a
    number from 0 to 9, whatever the stack name. *)
Theorem derivePhase_one_digit (stackName : string) :
  derivePhase stackName = NaN \/
  exists z, -1 <= z <= 9 /\ derivePhase stackName = Int z.
Proof.
  unfold derivePhase. destruct (charAt stackName _) as [c|]; [|left; reflexivity].
  destruct (Ascii.eqb c "-").
  - right. exists (-1). split; [lia|reflexivity].
  - destruct (Number_char_range c) as [Hn|(z & Hz & Hn)]; [left; exact Hn|].
    right. exists z. split; [lia|exact Hn].
Qed.

(** X20: a stack name in which ["Phase"] does not occur: [indexOf] gives
    [-1], and the phase is read from the character at index 4 of the name. *)
Theorem derivePhase_without_Phase (stackName : string) :
  includes "Phase" stackName = false ->
  derivePhase stackName =
    match String.get 4 stackName with
    | Some c => if Ascii.eqb c "-" then Int (-1) else Number_char c
    | None => NaN
    end.
Proof.
  unfold includes. intros Hinc. apply Z.leb_gt in Hinc.
  unfold derivePhase.
  assert (Hi : indexOf "Phase" stackName = -1).
  { unfold indexOf in *. destruct (indexOf_from_range "Phase" stackName 0); lia. }
  rewrite Hi. reflexivity.
Qed.

Lemma derivePhase_without_Phase_witness :
  includes "Phase" "ASEA1-NetworkStack" = false /\
  derivePhase "ASEA1-NetworkStack" = Int 1.
Proof.
  assert (Hinc : includes "Phase" "ASEA1-NetworkStack" = false) by reflexivity.
  split; [exact Hinc|].
  exact (derivePhase_without_Phase "ASEA1-NetworkStack" Hinc).
Defined.

(** ** More on the pagination *)

Section FailingPages.
Context `{Aws}.

Lemma getParametersByPath_loop_refused ssmClient path token n e :
  refusedAfter ssmClient path token n e ->
  forall (fuel : nat) (parameters : gmap string string),
    (n < fuel)%nat ->
    getParametersByPath_loop fuel path ssmClient parameters token = Some (Throw e).
Proof.
  induction 1 as [token e Hsend|token page n e Hsend Hmore Hrest IH];
    intros fuel parameters Hfuel.
  - destruct fuel as [|fuel]; [lia|].
    simpl. unfold throttlingBackOff. rewrite Hsend. reflexivity.
  - destruct fuel as [|fuel]; [lia|].
    simpl. unfold throttlingBackOff. rewrite Hsend, Hmore.
    apply IH. lia.
Qed.

(** X14: when a request for a page fails, [getParametersByPath] is
    rejected with the error of that request, however many pages it has
    read before. *)
Theorem getParametersByPath_rejects_on_failed_page ssmClient path n e (fuel : nat) :
  refusedAfter ssmClient path None n e ->
  (n < fuel)%nat ->
  getParametersByPath fuel path ssmClient = Some (Throw e).
Proof.
  intros Hrefused Hfuel. unfold getParametersByPath.
  eapply getParametersByPath_loop_refused; eassumption.
Qed.

Lemma getParametersByPath_loop_endless ssmClient path :
  (forall token, exists page,
     ssm_send ssmClient {| Path := path; MaxResults := 10;
                           NextToken := token; Recursive := true |} = Ok page /\
     truthy (outNextToken page) = true) ->
  forall (fuel : nat) parameters token,
    getParametersByPath_loop fuel path ssmClient parameters token = None.
Proof.
  intros Hmore. induction fuel as [|fuel IH]; intros parameters token; [reflexivity|].
  simpl. unfold throttlingBackOff.
  destruct (Hmore token) as (page & -> & ->). apply IH.
Qed.

(** X15: the loop of [getParametersByPath] has no bound of its own: when
    every answer of the parameter store carries a token, the call is not
    settled after any number of rounds. *)
Theorem getParametersByPath_unsettled_while_tokens_come ssmClient path :
  (forall token, exists page,
     ssm_send ssmClient {| Path := path; MaxResults := 10;
                           NextToken := token; Recursive := true |} = Ok page /\
     truthy (outNextToken page) = true) ->
  forall fuel : nat, getParametersByPath fuel path ssmClient = None.
Proof.
  intros Hmore fuel. unfold getParametersByPath.
  apply getParametersByPath_loop_endless. exact Hmore.
Qed.

End FailingPages.

(** ** The templates and the descriptors of [setTemplateMap] *)

#[global] Instance onlyAddsFiles_refl : Reflexive onlyAddsFiles.
Proof. intros s. unfold onlyAddsFiles. split; [reflexivity|repeat split]. Qed.

#[global] Instance onlyAddsFiles_trans : Transitive onlyAddsFiles.
Proof.
  intros s1 s2 s3 (Hf & Ht & Hc & Hr) (Hf' & Ht' & Hc' & Hr'). unfold onlyAddsFiles.
  split; [etransitivity; eassumption|]. repeat split; congruence.
Qed.

Lemma markNestedStack_same l id : Forall2 sameButNested (markNestedStack l id) l.
Proof.
  unfold markNestedStack.
  destruct (list_find (mentions id) l) as [[j d]|]; [|apply Forall_Forall2_diag, Forall_forall; reflexivity].
  clear d. revert j. induction l as [|d l IH]; intros j; [constructor|].
  destruct j as [|j]; simpl.
  - constructor; [reflexivity|]. apply Forall_Forall2_diag, Forall_forall. reflexivity.
  - constructor; [reflexivity|apply IH].
Qed.

Lemma sameButNested_trans l1 l2 l3 :
  Forall2 sameButNested l1 l2 -> Forall2 sameButNested l2 l3 -> Forall2 sameButNested l1 l3.
Proof.
  apply Forall2_trans. intros x y z Hxy Hyz. unfold sameButNested in *. congruence.
Qed.

Lemma marks_same ids l : Forall2 sameButNested (fold_left markNestedStack ids l) l.
Proof.
  revert l. induction ids as [|id ids IH]; intros l; simpl.
  - apply Forall_Forall2_diag, Forall_forall. reflexivity.
  - eapply sameButNested_trans; [apply IH|apply markNestedStack_same].
Qed.

(** A mark is set where the descriptor had it, or at the first stack
    that one of the identifiers names. *)
Lemma markNestedStack_only l id (i : nat) d' :
  markNestedStack l id !! i = Some d' -> AseaStackInfo.nestedStack d' = true ->
  (exists d, l !! i = Some d /\ AseaStackInfo.nestedStack d = true) \/
  (exists n, list_find (namedIn id) (AseaStackInfo.stackName <$> l) = Some (i, n)).
Proof.
  intros Hi Hd. rewrite list_find_mentions. unfold markNestedStack in Hi.
  destruct (list_find (mentions id) l) as [[j x]|] eqn:Hf; [|left; eauto].
  destruct (decide (i = j)) as [->|Hne].
  - right. eexists. reflexivity.
  - left. rewrite list_lookup_alter_ne in Hi by congruence. eauto.
Qed.

Lemma marks_only ids : forall l (i : nat) d',
  fold_left markNestedStack ids l !! i = Some d' -> AseaStackInfo.nestedStack d' = true ->
  (exists d, l !! i = Some d /\ AseaStackInfo.nestedStack d = true) \/
  (exists id n, id ∈ ids /\
     list_find (namedIn id) (AseaStackInfo.stackName <$> l) = Some (i, n)).
Proof.
  induction ids as [|id ids IH]; intros l i d' Hi Hd; simpl in Hi; [left; eauto|].
  destruct (IH _ _ _ Hi Hd) as [(d & Hi' & Hd')|(id' & n & Hin & Hfind)].
  - destruct (markNestedStack_only _ _ _ _ Hi' Hd') as [Hl|[n Hfind]]; [left; exact Hl|].
    right. exists id, n. split; [left|exact Hfind].
  - right. exists id', n. split; [right; exact Hin|].
    rewrite markNestedStack_names in Hfind. exact Hfind.
Qed.

Lemma manifestEntries_stacks accounts : snd <$> manifestEntries accounts = manifestStacks accounts.
Proof.
  unfold manifestEntries, manifestStacks. induction accounts as [|a accounts IH]; [reflexivity|].
  simpl. rewrite fmap_app, IH. f_equal.
  rewrite <- list_fmap_compose. simpl. apply list_fmap_id.
Qed.

Lemma markedBy_more done accounts j : markedBy done j -> markedBy (done ++ accounts) j.
Proof.
  intros (m & account & physicalId & n & Hm & Hin & Hfind).
  exists m, account, physicalId, n.
  pose proof (lookup_lt_Some _ _ _ Hm) as Hlt.
  split; [apply lookup_app_l_Some; exact Hm|]. split; [exact Hin|].
  rewrite take_app_le by lia. exact Hfind.
Qed.

Lemma manifestStacks_single account :
  manifestStacks [account] = stacksAndResourceMapList account.
Proof. unfold manifestStacks. simpl. apply app_nil_r. Qed.

Lemma descriptorOf_names entries : forall dirs,
  length dirs = length entries ->
  AseaStackInfo.stackName <$> zip_with descriptorOf entries dirs
    = stackName <$> (snd <$> entries).
Proof.
  induction entries as [|entry entries IH]; intros [|dir dirs] Hlen;
    try discriminate; [reflexivity|].
  simpl. f_equal. apply IH. simpl in Hlen. lia.
Qed.

Section TemplateFiles.
Context `{Libraries}.

(** One round of the loop over the stacks: a new directory with the
    template in it, and the descriptor at the end of the list. *)
Lemma processStack_run account acc stack s r s' :
  processStack account acc stack s = (r, s') ->
  this s' = this s /\
  onlyAddsFiles s s' /\
  (r = Throw (SystemError "EEXIST") /\ files (world s') = files (world s) \/
   exists dir,
     files (world s) !! dir = None /\
     files (world s') = <[dir := templateFile stack]> (files (world s)) /\
     r = Ok (fst acc ++ [descriptorOf (account, stack) dir],
             snd acc ++ nestedStackIdsOf stack)).
Proof.
  unfold processStack. rewrite bind_gets. unfold bind at 1, liftW at 1.
  destruct (mkdtemp _ (world s)) as [[dir|e] w1] eqn:Em.
  - apply mkdtemp_ok in Em as (Hfresh & Hfiles & Hreq & Hcon & Htmp).
    unfold bind, liftW, writeFile. simpl. rewrite Hfiles, lookup_insert_eq.
    unfold ret. intros Heq. injection Heq as <- <-. simpl.
    rewrite insert_insert_eq, insert_empty.
    split; [reflexivity|]. split.
    + unfold onlyAddsFiles. simpl. repeat split; try assumption.
      apply insert_subseteq. exact Hfresh.
    + right. exists dir. repeat split. exact Hfresh.
  - pose proof Em as Em'. apply mkdtemp_throw in Em as (-> & Hreq).
    unfold mkdtemp in Em'.
    destruct (drawName _ (files (world s)) (tmpnames (world s))) as [[d|] rest];
      [discriminate|].
    injection Em' as <-. intros Heq. injection Heq as <- <-. simpl.
    split; [reflexivity|]. split; [split; [reflexivity|repeat split]|].
    left. split; reflexivity.
Qed.

Lemma adds_processStack account acc stack : stable onlyAddsFiles (processStack account acc stack).
Proof. intros s r s' Hrun. apply processStack_run in Hrun as (_ & Hadds & _). exact Hadds. Qed.

Lemma adds_pushAccount account : stable onlyAddsFiles (pushAccount account).
Proof.
  intros s r s' Hrun. unfold pushAccount in Hrun.
  destruct (externalLandingZoneResources (this s)) as [e|];
    [destruct (accountsDeployedExternally e)|];
    injection Hrun as _ <-; (split; [reflexivity|repeat split]).
Qed.

Lemma adds_processAccount aseaStacks account :
  stable onlyAddsFiles (processAccount aseaStacks account).
Proof.
  unfold processAccount.
  apply stable_bind; [apply _|apply adds_pushAccount|intros _].
  apply stable_bind; [apply _| |intros acc; apply stable_ret; apply _].
  apply stable_forM; [apply _..|]. intros acc x. apply adds_processStack.
Qed.

Lemma adds_setTemplateMap mappingJson : stable onlyAddsFiles (setTemplateMap mappingJson).
Proof.
  destruct mappingJson as [accounts|]; simpl; [|apply stable_throw; apply _].
  apply stable_forM; [apply _..|]. intros acc x. apply adds_processAccount.
Qed.

(** The loop over the stacks of an account: one new directory per stack,
    each with the template of its stack, and the descriptors in order. *)
Lemma processStacks_run account stacks : forall acc s acc' s',
  forM stacks acc (processStack account) s = (Ok acc', s') ->
  exists dirs,
    length dirs = length stacks /\ NoDup dirs /\
    (forall dir, dir ∈ dirs -> files (world s) !! dir = None) /\
    (forall (i : nat) dir stack,
       dirs !! i = Some dir -> stacks !! i = Some stack ->
       files (world s') !! dir = Some (templateFile stack)) /\
    acc' = (fst acc ++ zip_with descriptorOf (pair account <$> stacks) dirs,
            snd acc ++ concat (map nestedStackIdsOf stacks)).
Proof.
  induction stacks as [|stack stacks IH]; intros acc s acc' s' Hrun; simpl in Hrun.
  - unfold ret in Hrun. injection Hrun as <- _. exists [].
    split; [reflexivity|]. split; [constructor|].
    split; [intros dir Hin; inversion Hin|].
    split; [intros i dir stack Hi; rewrite lookup_nil in Hi; discriminate|].
    simpl. rewrite !app_nil_r. destruct acc; reflexivity.
  - unfold bind at 1 in Hrun.
    destruct (processStack account acc stack s) as [[acc1|e] s1] eqn:E1; [|discriminate].
    pose proof (stable_forM onlyAddsFiles (processStack account) stacks
                  (adds_processStack account) acc1 _ _ _ Hrun) as (Hf2 & _).
    apply processStack_run in E1
      as (_ & (Hf1 & _) & [[Habs _]|(dir & Hfresh & Hfiles & Hacc)]); [discriminate|].
    injection Hacc as ->.
    destruct (IH _ _ _ _ Hrun) as (dirs & Hlen & Hnd & Hfr & Hin & ->).
    exists (dir :: dirs). split; [simpl; rewrite Hlen; reflexivity|]. split.
    { constructor; [|exact Hnd]. intros Hd. apply Hfr in Hd.
      rewrite Hfiles, lookup_insert_eq in Hd. discriminate. }
    split.
    { intros d Hd. apply elem_of_cons in Hd as [->|Hd]; [exact Hfresh|].
      eapply lookup_weaken_None; [apply Hfr; exact Hd|exact Hf1]. }
    split.
    { intros [|i] d st Hd Hst; simpl in Hd, Hst.
      - injection Hd as <-. injection Hst as <-.
        eapply lookup_weaken; [|exact Hf2]. rewrite Hfiles. apply lookup_insert_eq.
      - eapply Hin; eassumption. }
    simpl. rewrite <- !app_assoc. reflexivity.
Qed.

Lemma pushAccount_world account s r s' : pushAccount account s = (r, s') -> world s' = world s.
Proof.
  unfold pushAccount.
  destruct (externalLandingZoneResources (this s)) as [e|];
    [destruct (accountsDeployedExternally e)|];
    intros Heq; injection Heq as _ <-; reflexivity.
Qed.

(** The body of the loop over the accounts. *)
Lemma processAccount_made aseaStacks account s aseaStacks' s' :
  processAccount aseaStacks account s = (Ok aseaStacks', s') ->
  exists dirs,
    length dirs = length (stacksAndResourceMapList account) /\ NoDup dirs /\
    (forall dir, dir ∈ dirs -> files (world s) !! dir = None) /\
    (forall (i : nat) dir stack,
       dirs !! i = Some dir -> stacksAndResourceMapList account !! i = Some stack ->
       files (world s') !! dir = Some (templateFile stack)) /\
    aseaStacks' =
      fold_left markNestedStack (nestedStackPhysicalIds account)
        (aseaStacks ++ zip_with descriptorOf
                         (pair account <$> stacksAndResourceMapList account) dirs).
Proof.
  intros Hrun. unfold processAccount in Hrun.
  bind_ok Hrun. apply pushAccount_world in E. bind_ok Hrun.
  unfold ret in Hrun. injection Hrun as <- <-.
  destruct (processStacks_run _ _ _ _ _ _ E0) as (dirs & Hlen & Hnd & Hfr & Hin & ->).
  exists dirs. rewrite E in Hfr. simpl. repeat split; assumption.
Qed.

(** The loop over the accounts: the descriptors of all the stacks, in
    order, each with the directory made for it. *)
Lemma processAccounts_made accounts : forall aseaStacks s stacks s',
  forM accounts aseaStacks processAccount s = (Ok stacks, s') ->
  exists dirs,
    length dirs = length (manifestEntries accounts) /\ NoDup dirs /\
    (forall dir, dir ∈ dirs -> files (world s) !! dir = None) /\
    (forall (i : nat) dir entry,
       dirs !! i = Some dir -> manifestEntries accounts !! i = Some entry ->
       files (world s') !! dir = Some (templateFile (snd entry))) /\
    Forall2 sameButNested stacks
      (aseaStacks ++ zip_with descriptorOf (manifestEntries accounts) dirs).
Proof.
  induction accounts as [|account accounts IH]; intros aseaStacks s stacks s' Hrun;
    simpl in Hrun.
  - unfold ret in Hrun. injection Hrun as <- _. exists [].
    split; [reflexivity|]. split; [constructor|].
    split; [intros dir Hin; inversion Hin|].
    split; [intros i dir entry Hi; rewrite lookup_nil in Hi; discriminate|].
    simpl. rewrite app_nil_r. apply Forall_Forall2_diag, Forall_forall. reflexivity.
  - bind_ok Hrun.
    pose proof (stable_forM onlyAddsFiles processAccount accounts
                  adds_processAccount _ _ _ _ Hrun) as (Hf2 & _).
    pose proof (adds_processAccount _ _ _ _ _ E) as (Hf1 & _).
    destruct (processAccount_made _ _ _ _ _ E) as (dirs1 & Hlen1 & Hnd1 & Hfr1 & Hin1 & ->).
    destruct (IH _ _ _ _ Hrun) as (dirs2 & Hlen2 & Hnd2 & Hfr2 & Hin2 & Hsame).
    set (entries1 := pair account <$> stacksAndResourceMapList account) in *.
    assert (Hlen1' : length dirs1 = length entries1)
      by (unfold entries1; rewrite length_fmap; exact Hlen1).
    assert (Hhas : forall dir, dir ∈ dirs1 -> is_Some (files (world s0) !! dir)).
    { intros dir Hd. apply list_elem_of_lookup in Hd as [i Hi].
      destruct (lookup_lt_is_Some_2 (stacksAndResourceMapList account) i) as [st Hst].
      { rewrite <- Hlen1. eapply lookup_lt_Some; exact Hi. }
      rewrite (Hin1 _ _ _ Hi Hst). eauto. }
    exists (dirs1 ++ dirs2).
    change (manifestEntries (account :: accounts))
      with (entries1 ++ manifestEntries accounts).
    split; [rewrite !length_app; congruence|]. split.
    { apply NoDup_app. split; [exact Hnd1|]. split; [|exact Hnd2].
      intros dir Hd1 Hd2. apply Hhas in Hd1 as [x Hx]. apply Hfr2 in Hd2. congruence. }
    split.
    { intros dir Hd. apply elem_of_app in Hd as [Hd|Hd]; [apply Hfr1; exact Hd|].
      eapply lookup_weaken_None; [apply Hfr2; exact Hd|exact Hf1]. }
    split.
    { intros i dir entry Hd He.
      destruct (decide (i < length dirs1)%nat) as [Hlt|Hge].
      - rewrite lookup_app_l in Hd by exact Hlt.
        rewrite lookup_app_l in He by (rewrite <- Hlen1'; exact Hlt).
        unfold entries1 in He. apply list_lookup_fmap_Some in He as (st & -> & Hst).
        eapply lookup_weaken; [|exact Hf2]. eapply Hin1; eassumption.
      - rewrite lookup_app_r in Hd by lia.
        rewrite lookup_app_r in He by (rewrite <- Hlen1'; lia).
        rewrite <- Hlen1' in He. eapply Hin2; eassumption. }
    eapply sameButNested_trans; [exact Hsame|].
    rewrite zip_with_app by (symmetry; exact Hlen1'). rewrite app_assoc.
    apply Forall2_app; [apply marks_same|].
    apply Forall_Forall2_diag, Forall_forall. reflexivity.
Qed.

(** The marks that [setTemplateMap] sets are sound: the invariant of the
    loop over the accounts. *)
Lemma processAccounts_sound accounts : forall done aseaStacks s stacks s',
  AseaStackInfo.stackName <$> aseaStacks = stackName <$> manifestStacks done ->
  (forall (j : nat) d stack,
     aseaStacks !! j = Some d -> manifestStacks done !! j = Some stack ->
     AseaStackInfo.nestedStack d = true ->
     truthy (parentStack stack) = true \/ markedBy done j) ->
  forM accounts aseaStacks processAccount s = (Ok stacks, s') ->
  forall (j : nat) d stack,
    stacks !! j = Some d -> manifestStacks (done ++ accounts) !! j = Some stack ->
    AseaStackInfo.nestedStack d = true ->
    truthy (parentStack stack) = true \/ markedBy (done ++ accounts) j.
Proof.
  induction accounts as [|account accounts IH];
    intros done aseaStacks s stacks s' Hnames Hsound Hrun; simpl in Hrun.
  - unfold ret in Hrun. injection Hrun as <- _. rewrite app_nil_r. exact Hsound.
  - bind_ok Hrun.
    destruct (processAccount_made _ _ _ _ _ E) as (dirs & Hlen & _ & _ & _ & ->).
    replace (done ++ account :: accounts) with ((done ++ [account]) ++ accounts)
      by (rewrite <- app_assoc; reflexivity).
    set (entries := pair account <$> stacksAndResourceMapList account) in *.
    set (made := zip_with descriptorOf entries dirs) in *.
    assert (Hlen' : length dirs = length entries)
      by (unfold entries; rewrite length_fmap; exact Hlen).
    assert (Hstacks : snd <$> entries = stacksAndResourceMapList account).
    { unfold entries. rewrite <- list_fmap_compose. apply list_fmap_id. }
    assert (Hall : AseaStackInfo.stackName <$> (aseaStacks ++ made)
                   = stackName <$> manifestStacks (done ++ [account])).
    { rewrite fmap_app, Hnames. unfold made. rewrite descriptorOf_names by exact Hlen'.
      rewrite Hstacks, manifestStacks_app, fmap_app, manifestStacks_single. reflexivity. }
    eapply IH; [| |exact Hrun].
    + rewrite marks_names. exact Hall.
    + intros j d stack Hj Hst Hd.
      destruct (marks_only _ _ _ _ Hj Hd) as [(d0 & Hj0 & Hd0)|(id & n & Hin & Hfind)].
      * destruct (decide (j < length aseaStacks)%nat) as [Hlt|Hge].
        -- rewrite lookup_app_l in Hj0 by exact Hlt.
           assert (Hlt' : (j < length (manifestStacks done))%nat).
           { apply (f_equal length) in Hnames. rewrite !length_fmap in Hnames. lia. }
           rewrite manifestStacks_app, lookup_app_l in Hst by exact Hlt'.
           destruct (Hsound _ _ _ Hj0 Hst Hd0) as [Hp|Hm]; [left; exact Hp|].
           right. apply markedBy_more. exact Hm.
        -- left. rewrite lookup_app_r in Hj0 by lia.
           assert (Hlen0 : length aseaStacks = length (manifestStacks done)).
           { apply (f_equal length) in Hnames. rewrite !length_fmap in Hnames. exact Hnames. }
           rewrite manifestStacks_app, lookup_app_r in Hst by lia.
           rewrite manifestStacks_single, <- Hlen0 in Hst.
           unfold made in Hj0. apply lookup_zip_with_Some in Hj0 as (entry & dir & -> & He & _).
           unfold entries in He. apply list_lookup_fmap_Some in He as (st & -> & Hst').
           rewrite Hst' in Hst. injection Hst as <-. exact Hd0.
      * right. exists (length done), account, id, n.
        split; [apply list_lookup_middle; reflexivity|]. split; [exact Hin|].
        rewrite take_ge by (rewrite length_app; simpl; lia).
        rewrite <- Hall. exact Hfind.
Qed.

(** X17: a mark of [setTemplateMap] is never spurious: a descriptor is
    marked as a nested stack only if its stack has a non-empty
    [parentStack], or it is the first stack, among those of the accounts
    up to some account, that an identifier collected for that account
    names. *)
Theorem setTemplateMap_marks_only_nested_stacks accounts s stacks s' :
  setTemplateMap (Some accounts) s = (Ok stacks, s') ->
  forall (j : nat) d stack,
    stacks !! j = Some d -> manifestStacks accounts !! j = Some stack ->
    AseaStackInfo.nestedStack d = true ->
    truthy (parentStack stack) = true \/ markedBy accounts j.
Proof.
  intros Hrun. simpl in Hrun.
  apply (processAccounts_sound accounts [] [] s stacks s'); [reflexivity| |exact Hrun].
  intros j d stack Hj. rewrite lookup_nil in Hj. discriminate.
Qed.

(** X16: for stacks whose names are plain file names and that have a
    template, the descriptors that [setTemplateMap] returns stand for the
    stacks of the manifest, in order, one for one: each has the identifier and
    the key of the account that owns the stack, the region, the name and
    the resources of the stack, the phase derived from the name, and a
    template path whose file name is the stack name with [.json]. *)
Theorem setTemplateMap_copies_manifest accounts s stacks s' :
  Forall writable (manifestStacks accounts) ->
  setTemplateMap (Some accounts) s = (Ok stacks, s') ->
  Forall2
    (fun d entry =>
       AseaStackInfo.accountId d = accountId (fst entry) /\
       AseaStackInfo.accountKey d = accountKey (fst entry) /\
       AseaStackInfo.region d = region (snd entry) /\
       AseaStackInfo.stackName d = stackName (snd entry) /\
       AseaStackInfo.resources d = resourceMap (snd entry) /\
       AseaStackInfo.phase d = derivePhase (stackName (snd entry)) /\
       basename (AseaStackInfo.templatePath d) = stackName (snd entry) +:+ ".json")
    stacks (manifestEntries accounts).
Proof.
  intros _ Hrun. simpl in Hrun.
  destruct (processAccounts_made _ _ _ _ _ Hrun) as (dirs & Hlen & _ & _ & _ & Hsame).
  simpl in Hsame. clear Hrun. revert Hlen Hsame.
  generalize (manifestEntries accounts) as entries.
  intros entries Hlen Hsame. revert stacks Hsame. revert dirs Hlen.
  induction entries as [|entry entries IH]; intros [|dir dirs] Hlen stacks Hsame;
    try discriminate; simpl in Hsame.
  - inversion Hsame. constructor.
  - inversion Hsame as [|d d0 l l0 Hd Hl]; subst. constructor.
    + unfold sameButNested in Hd. destruct d. injection Hd as -> -> -> -> -> -> ->.
      repeat split.
    + eapply IH; [|exact Hl]. simpl in Hlen. lia.
Qed.

(** X18: [setTemplateMap] writes the template of every stack to a file of
    its own, in a directory that it makes for this stack alone: when it
    returns, the template path of each descriptor names a directory that
    was not there before, different from those of the other descriptors,
    and the file holds the template of the stack of the descriptor. *)
Theorem setTemplateMap_writes_each_template accounts s stacks s' :
  Forall writable (manifestStacks accounts) ->
  setTemplateMap (Some accounts) s = (Ok stacks, s') ->
  NoDup (dirname ∘ AseaStackInfo.templatePath <$> stacks) /\
  forall (i : nat) d stack,
    stacks !! i = Some d -> manifestStacks accounts !! i = Some stack ->
    files (world s) !! dirname (AseaStackInfo.templatePath d) = None /\
    readFileSync (AseaStackInfo.templatePath d) (world s')
      = (Ok (JSON_stringify (template stack)), world s').
Proof.
  intros _ Hrun. simpl in Hrun.
  destruct (processAccounts_made _ _ _ _ _ Hrun) as (dirs & Hlen & Hnd & Hfr & Hin & Hsame).
  simpl in Hsame.
  assert (Hpath : forall (i : nat) d, stacks !! i = Some d ->
            exists entry dir,
              manifestEntries accounts !! i = Some entry /\ dirs !! i = Some dir /\
              AseaStackInfo.templatePath d = path_join dir (stackName (snd entry) +:+ ".json")).
  { intros i d Hi. destruct (Forall2_lookup_l _ _ _ _ _ Hsame Hi) as (d0 & Hi0 & Hd).
    apply lookup_zip_with_Some in Hi0 as (entry & dir & -> & He & Hdir).
    exists entry, dir. split; [exact He|]. split; [exact Hdir|].
    unfold sameButNested in Hd. destruct d. injection Hd as _ _ _ _ _ -> _. reflexivity. }
  split.
  - assert (Hdirs : dirname ∘ AseaStackInfo.templatePath <$> stacks = dirs).
    { apply list_eq_same_length with (length dirs); [reflexivity| |].
      - rewrite length_fmap, (Forall2_length _ _ _ Hsame), length_zip_with. lia.
      - intros i x y _ Hx Hy. apply list_lookup_fmap_Some in Hx as (d & -> & Hd).
        destruct (Hpath _ _ Hd) as (entry & dir & _ & Hdir & Hp).
        simpl. rewrite Hp. simpl. congruence. }
    rewrite Hdirs. exact Hnd.
  - intros i d stack Hi Hst.
    destruct (Hpath _ _ Hi) as (entry & dir & He & Hdir & Hp). rewrite Hp. simpl.
    assert (Hentry : snd entry = stack).
    { rewrite <- manifestEntries_stacks in Hst.
      apply list_lookup_fmap_Some in Hst as (entry' & -> & He'). congruence. }
    split; [apply Hfr; eapply list_elem_of_lookup_2; exact Hdir|].
    unfold readFileSync. simpl. rewrite (Hin _ _ _ Hdir He). simpl.
    unfold templateFile. rewrite Hentry, lookup_singleton_eq. reflexivity.
Qed.

(** X19: whatever its outcome, [setTemplateMap] adds directories to the
    file system and does nothing else to the world: every directory that
    was there holds the files it held, and nothing goes to the console or
    to the bucket. *)
Theorem setTemplateMap_only_adds_directories mappingJson s :
  Forall writable (manifestStacks (default [] mappingJson)) ->
  onlyAddsFiles s (snd (setTemplateMap mappingJson s)).
Proof.
  intros _. destruct (setTemplateMap mappingJson s) as [r s'] eqn:Hrun.
  exact (adds_setTemplateMap _ _ _ _ Hrun).
Qed.

End TemplateFiles.

(** ** The runs of [loadExternalMapping] *)

Lemma setAccounts_same e l :
  accountsDeployedExternally e = Some l -> setAccountsDeployedExternally l e = e.
Proof. destruct e. simpl. intros ->. reflexivity. Qed.

Lemma this_updateExternal_same s e l :
  externalLandingZoneResources (this s) = Some e ->
  accountsDeployedExternally e = Some l ->
  this (updateExternal (setAccountsDeployedExternally l) s) = this s.
Proof.
  intros He Hl. unfold updateExternal. simpl. rewrite He. simpl.
  rewrite (setAccounts_same _ _ Hl). destruct (this s). simpl in He. subst. reflexivity.
Qed.

Lemma drawName_suffix prefix used suffixes dir rest :
  drawName prefix used suffixes = (Some dir, rest) -> exists x, dir = prefix +:+ x.
Proof.
  induction suffixes as [|x suffixes IH]; simpl; [discriminate|].
  destruct (used !! (prefix +:+ x)); [exact IH|].
  intros Heq. injection Heq as <- _. eauto.
Qed.

Lemma sameDirs_trans w1 w2 w3 : sameDirs w1 w2 -> sameDirs w2 w3 -> sameDirs w1 w3.
Proof.
  intros (Hd & Hn & Hf) (Hd' & Hn' & Hf'). split; [congruence|]. split; [congruence|].
  intros dir. rewrite Hf'. apply Hf.
Qed.

Lemma drawName_sameDirs prefix (used used' : gmap string (gmap string string)) suffixes :
  (forall dir, used' !! dir = None <-> used !! dir = None) ->
  drawName prefix used' suffixes = drawName prefix used suffixes.
Proof.
  intros Hsame. induction suffixes as [|x suffixes IH]; simpl; [reflexivity|].
  pose proof (Hsame (prefix +:+ x)) as Hx.
  destruct (used !! (prefix +:+ x)) as [d|], (used' !! (prefix +:+ x)) as [d'|];
    try reflexivity; try exact IH.
  - destruct Hx as [Hx _]. discriminate (Hx eq_refl).
  - destruct Hx as [_ Hx]. discriminate (Hx eq_refl).
Qed.

(** [mkdtemp] makes the same directory in two worlds with the same
    names. *)
Lemma mkdtemp_sameDirs prefix w w' dir w1 :
  sameDirs w w' -> mkdtemp prefix w = (Ok dir, w1) ->
  exists w1',
    mkdtemp prefix w' = (Ok dir, w1') /\ sameDirs w1 w1' /\
    files w1' = <[dir := ∅]> (files w') /\
    s3Requests w1' = s3Requests w' /\ console w1' = console w'.
Proof.
  intros (Hd & Hn & Hf) Hrun. unfold mkdtemp in *.
  rewrite Hn, (drawName_sameDirs prefix (files w) (files w')) by exact Hf.
  destruct (drawName prefix (files w) (tmpnames w)) as [[d|] rest]; [|discriminate].
  injection Hrun as <- <-. eexists. split; [reflexivity|].
  split; [|repeat split]. split; [exact Hd|]. split; [reflexivity|].
  intros dir. simpl. destruct (decide (d = dir)) as [->|Hne].
  - rewrite !lookup_insert_eq. split; discriminate.
  - rewrite !lookup_insert_ne by exact Hne. apply Hf.
Qed.

Lemma makeDirs_app prefixes prefixes' : forall w,
  makeDirs (prefixes ++ prefixes') w = makeDirs prefixes w ≫= makeDirs prefixes'.
Proof.
  induction prefixes as [|p prefixes IH]; intros w; simpl; [reflexivity|].
  destruct (mkdtemp p w) as [[dir|e] w1]; [apply IH|reflexivity].
Qed.

Lemma makeDirs_tmpdir prefixes : forall w w',
  makeDirs prefixes w = Some w' -> tmpdir w' = tmpdir w.
Proof.
  induction prefixes as [|p prefixes IH]; intros w w' Hrun; simpl in Hrun.
  - injection Hrun as <-. reflexivity.
  - destruct (mkdtemp p w) as [[dir|e] w1] eqn:Em; [|discriminate].
    apply mkdtemp_ok in Em as (_ & _ & _ & _ & Htmp). rewrite <- Htmp. apply IH. exact Hrun.
Qed.

Section Mapping.
Context `{Libraries} `{Aws}.

Lemma pushAccount_run id s e l :
  externalLandingZoneResources (this s) = Some e ->
  accountsDeployedExternally e = Some l ->
  pushAccount id s = (Ok tt, updateExternal (setAccountsDeployedExternally (l ++ [id])) s).
Proof. intros He Hl. unfold pushAccount. rewrite He, Hl. reflexivity. Qed.

Lemma processStacks_this account stacks : forall acc s r s',
  forM stacks acc (processStack account) s = (r, s') -> this s' = this s.
Proof.
  induction stacks as [|stack stacks IH]; intros acc s r s' Hrun; simpl in Hrun.
  - injection Hrun as _ <-. reflexivity.
  - unfold bind at 1 in Hrun.
    destruct (processStack account acc stack s) as [[acc1|e] s1] eqn:E1.
    + apply processStack_run in E1 as (Ht & _). rewrite <- Ht. eapply IH; exact Hrun.
    + apply processStack_run in E1 as (Ht & _). injection Hrun as _ <-. exact Ht.
Qed.

(** The accounts of the manifest go to [accountsDeployedExternally], in
    order, and the instance is not touched otherwise. *)
Lemma processAccounts_this accounts : forall aseaStacks s stacks s' e l,
  externalLandingZoneResources (this s) = Some e ->
  accountsDeployedExternally e = Some l ->
  forM accounts aseaStacks processAccount s = (Ok stacks, s') ->
  this s' =
    this (updateExternal (setAccountsDeployedExternally (l ++ (accountId <$> accounts))) s).
Proof.
  induction accounts as [|account accounts IH]; intros aseaStacks s stacks s' e l He Hl Hrun;
    simpl in Hrun.
  - unfold ret in Hrun. injection Hrun as _ <-. simpl. rewrite app_nil_r.
    symmetry. eapply this_updateExternal_same; eassumption.
  - bind_ok Hrun. unfold processAccount in E. unfold bind at 1 in E.
    rewrite (pushAccount_run _ _ _ _ He Hl) in E. unfold bind at 1 in E.
    set (s1 := updateExternal (setAccountsDeployedExternally (l ++ [accountId account])) s) in *.
    destruct (forM _ _ _ s1) as [[acc|e1] s2] eqn:E2; [|discriminate].
    apply processStacks_this in E2. unfold ret in E. injection E as _ <-.
    assert (He1 : externalLandingZoneResources (this s2)
                  = Some (setAccountsDeployedExternally (l ++ [accountId account]) e)).
    { rewrite E2. unfold s1. simpl. rewrite He. reflexivity. }
    rewrite (IH _ _ _ _ _ (l ++ [accountId account]) He1 eq_refl Hrun).
    unfold updateExternal. simpl. rewrite E2. unfold s1. simpl. rewrite He. simpl.
    rewrite <- app_assoc. reflexivity.
Qed.

(** With the import enabled, [loadExternalMapping] empties the list of
    the accounts, makes its directory and goes on with the branch that
    asks the bucket. *)
Lemma loadExternalMapping_enabled loadFromCache s :
  importEnabled (this s) = true ->
  loadExternalMapping loadFromCache s =
    match liftW (mkdtemp (joinNames (tmpdir (world s)) "asea-assets"))
            (updateExternal (setAccountsDeployedExternally []) s) with
    | (Ok dir, s1) =>
        loadFromBucket (this s) (path_join dir "aseaMapping.json")
          (path_join dir "aseaResources.json") s1
    | (Throw e, s1) => (Throw e, s1)
    end.
Proof.
  intros Hi. unfold loadExternalMapping.
  rewrite bind_gets, Hi. cbn [negb]. rewrite bind_modify, bind_gets.
  unfold bind at 1.
  change (tmpdir (world (updateExternal (setAccountsDeployedExternally []) s)))
    with (tmpdir (world s)).
  destruct (liftW (mkdtemp (joinNames (tmpdir (world s)) "asea-assets"))
              (updateExternal (setAccountsDeployedExternally []) s)) as [[dir|e] s1] eqn:E;
    [|reflexivity].
  rewrite bind_gets. unfold liftW in E.
  destruct (mkdtemp _ _) as [r1 w1] eqn:Em. injection E as -> <-.
  apply mkdtemp_ok in Em as (_ & Hfiles & _).
  rewrite (existsSync_empty_directory dir)
    by (simpl; rewrite Hfiles; apply lookup_insert_eq).
  rewrite andb_false_r. reflexivity.
Qed.

Lemma getObject_asks s3Client request s r s' :
  getObject s3Client request s = (r, s') ->
  r = s3_getObject s3Client request /\ asksBucket [request] s s' /\
  console (world s') = console (world s).
Proof.
  unfold getObject, bind, liftW, recordRequest, modify, lift. simpl.
  intros Heq. injection Heq as <- <-. repeat split.
Qed.

Lemma console_error_asks line s r s' :
  liftW (console_error line) s = (r, s') -> r = Ok tt /\ asksBucket [] s s'.
Proof.
  unfold liftW, console_error, modify. intros Heq. injection Heq as <- <-.
  split; [reflexivity|]. unfold asksBucket. simpl. rewrite app_nil_r. repeat split.
Qed.

Lemma asksBucket_trans l1 l2 s1 s2 s3 :
  asksBucket l1 s1 s2 -> asksBucket l2 s2 s3 -> asksBucket (l1 ++ l2) s1 s3.
Proof.
  intros (Ht & Hf & Hd & Hn & Hr) (Ht' & Hf' & Hd' & Hn' & Hr'). unfold asksBucket.
  rewrite Hr', Hr, app_assoc. repeat split; congruence.
Qed.

(** What [loadExternalMappingFromS3] does when the bucket is configured. *)
Lemma loadExternalMappingFromS3_asks s3Client s bucket r s' :
  importEnabled (this s) = true ->
  configuredBucket (this s) = Some bucket -> bucket <> "" ->
  loadExternalMappingFromS3 (Some s3Client) s = (r, s') ->
  asksBucket [ {| Bucket := bucket; Key := "mapping.json" |} ] s s' /\
  r = match s3_getObject s3Client {| Bucket := bucket; Key := "mapping.json" |} with
      | Throw e => Throw e
      | Ok mappingFile =>
          match Body mappingFile with
          | None => Throw (Error "Runtime error")
          | Some body =>
              match JSON_parse_mapping body with
              | Ok mapping => Ok (Some mapping)
              | Throw e => Throw e
              end
          end
      end.
Proof.
  intros Hi Hb Hne.
  destruct (configured_bucket _ _ Hi Hb Hne) as (e & He & Hguard & Hbucket).
  unfold loadExternalMappingFromS3. rewrite bind_gets, He, Hguard, Hbucket.
  unfold bind at 1. simpl clientOr.
  destruct (getObject s3Client _ s) as [r1 s1] eqn:E1.
  apply getObject_asks in E1 as (-> & Hasks & _).
  destruct (s3_getObject s3Client _) as [mappingFile|err].
  - destruct (Body mappingFile) as [body|].
    + unfold bind, lift, ret. destruct (JSON_parse_mapping body); intros Heq;
        injection Heq as <- <-; split; auto.
    + unfold bind at 1.
      destruct (liftW (console_error _) s1) as [r2 s2] eqn:E2.
      apply console_error_asks in E2 as (-> & Hasks2).
      unfold throw. intros Heq. injection Heq as <- <-. split; [|reflexivity].
      apply (asksBucket_trans _ [] _ _ _ Hasks Hasks2).
  - intros Heq. injection Heq as <- <-. split; auto.
Qed.

(** Without a bucket, [loadExternalMappingFromS3] returns [undefined] and
    does nothing. *)
Lemma loadExternalMappingFromS3_unconfigured s3Client s :
  truthy (configuredBucket (this s)) = false ->
  loadExternalMappingFromS3 s3Client s = (Ok None, s).
Proof.
  unfold configuredBucket, loadExternalMappingFromS3. rewrite bind_gets.
  destruct (externalLandingZoneResources (this s)) as [e|]; [|reflexivity].
  simpl. intros ->. rewrite andb_false_r. reflexivity.
Qed.

(** What [readJsonFromExternalS3] does when the bucket is configured. *)
Lemma readJsonFromExternalS3_asks objectKey s3Client s bucket r s' :
  importEnabled (this s) = true ->
  configuredBucket (this s) = Some bucket -> bucket <> "" ->
  readJsonFromExternalS3 objectKey (Some s3Client) s = (r, s') ->
  asksBucket [ {| Bucket := bucket; Key := objectKey |} ] s s' /\
  r = match s3_getObject s3Client {| Bucket := bucket; Key := objectKey |} with
      | Throw e => if bool_decide (code e = Some "NoSuchKey") then Ok None else Throw e
      | Ok response =>
          match Body response with
          | None => Ok None
          | Some body =>
              match JSON_parse body with
              | Ok v => Ok (Some v)
              | Throw e => if bool_decide (code e = Some "NoSuchKey") then Ok None else Throw e
              end
          end
      end.
Proof.
  intros Hi Hb Hne.
  destruct (configured_bucket _ _ Hi Hb Hne) as (e & He & Hguard & Hbucket).
  unfold readJsonFromExternalS3. rewrite bind_gets, He, Hguard, Hbucket.
  unfold try_catch, bind at 1. simpl clientOr.
  destruct (getObject s3Client _ s) as [r1 s1] eqn:E1.
  apply getObject_asks in E1 as (-> & Hasks & _).
  destruct (s3_getObject s3Client _) as [response|err].
  - destruct (Body response) as [body|].
    + unfold bind, lift, ret, throw. destruct (JSON_parse body) as [v|err].
      * intros Heq. injection Heq as <- <-. split; auto.
      * destruct (bool_decide _); intros Heq; injection Heq as <- <-; split; auto.
    + unfold bind at 1.
      destruct (liftW (console_error _) s1) as [r2 s2] eqn:E2.
      apply console_error_asks in E2 as (-> & Hasks2).
      unfold ret. intros Heq. injection Heq as <- <-. split; [|reflexivity].
      apply (asksBucket_trans _ [] _ _ _ Hasks Hasks2).
  - unfold ret, throw. destruct (bool_decide _); intros Heq; injection Heq as <- <-;
      split; auto.
Qed.

(** The branch that asks the bucket, when it comes to its end. *)
Lemma loadFromBucket_success c p1 p2 s bucket s' e l :
  importEnabled (this s) = true ->
  configuredBucket (this s) = Some bucket -> bucket <> "" ->
  externalLandingZoneResources (this s) = Some e ->
  accountsDeployedExternally e = Some l ->
  loadFromBucket c p1 p2 s = (Ok tt, s') ->
  let s3Client := {| s3Region := homeRegion c |} in
  let list :=
    resourceListOf (s3_getObject s3Client {| Bucket := bucket; Key := "aseaResources.json" |}) in
  exists body manifest stacks s2 s3,
    s3_getObject s3Client {| Bucket := bucket; Key := "mapping.json" |}
      = Ok {| Body := Some body |} /\
    JSON_parse_mapping body = Ok manifest /\
    asksBucket [ {| Bucket := bucket; Key := "mapping.json" |} ] s s2 /\
    setTemplateMap (Some manifest) s2 = (Ok stacks, s3) /\
    this s' =
      this (updateExternal (setMapping (l ++ (accountId <$> manifest)) stacks list) s) /\
    s3Requests (world s') =
      s3Requests (world s) ++ [ {| Bucket := bucket; Key := "mapping.json" |};
                                {| Bucket := bucket; Key := "aseaResources.json" |} ] /\
    tmpdir (world s') = tmpdir (world s) /\
    exists d,
      files (world s3) !! dirname p1 = Some d /\
      (dirname p2 = dirname p1 ->
       files (world s') =
         <[dirname p1 := <[basename p2 := JSON_stringify list]>
                           (<[basename p1 := JSON_stringify_mapping manifest]> d)]>
           (files (world s3))).
Proof.
  intros Hi Hb Hne He Hl Hrun s3Client list.
  unfold loadFromBucket in Hrun. fold s3Client in Hrun.
  bind_ok Hrun. rename a into mapping, s0 into s2.
  apply (loadExternalMappingFromS3_asks _ _ bucket) in E as (Hasks2 & Hr2); [|assumption..].
  fold s3Client in Hr2.
  destruct (s3_getObject s3Client {| Bucket := bucket; Key := "mapping.json" |})
    as [[[body|]]|err] eqn:Hmap; simpl in Hr2; try discriminate.
  destruct (JSON_parse_mapping body) as [manifest|err] eqn:Hparse; [|discriminate].
  injection Hr2 as ->.
  bind_ok Hrun. rename a into stacks, s0 into s3.
  pose proof Hasks2 as (Ht2 & Hf2 & Hd2 & _ & Hq2).
  assert (He2 : externalLandingZoneResources (this s2) = Some e) by (rewrite Ht2; exact He).
  pose proof (processAccounts_this _ _ _ _ _ _ _ He2 Hl E) as Ht3.
  pose proof (adds_setTemplateMap _ _ _ _ E) as (Hf3 & Hd3 & _ & Hq3).
  rewrite bind_modify in Hrun.
  set (s4 := updateExternal (setTemplateMapField stacks) s3) in *.
  assert (Ht4 : this s4 = this (updateExternal
                  (fun x => setTemplateMapField stacks
                              (setAccountsDeployedExternally (l ++ (accountId <$> manifest)) x))
                  s)).
  { unfold s4, updateExternal. simpl. rewrite Ht3. simpl. rewrite Ht2.
    destruct (externalLandingZoneResources (this s)); reflexivity. }
  assert (Hi4 : importEnabled (this s4) = true).
  { rewrite Ht4. unfold importEnabled in *. simpl. rewrite He in *. exact Hi. }
  assert (Hb4 : configuredBucket (this s4) = Some bucket).
  { rewrite Ht4. unfold configuredBucket in *. simpl. rewrite He in *. exact Hb. }
  bind_ok Hrun. rename a into fetched, s0 into s5.
  apply (readJsonFromExternalS3_asks _ _ _ bucket) in E0 as (Hasks5 & Hr5); [|assumption..].
  fold s3Client in Hr5.
  assert (Hlist : orEmptyArray fetched = list).
  { unfold list, resourceListOf.
    destruct (s3_getObject s3Client {| Bucket := bucket; Key := "aseaResources.json" |})
      as [[[b|]]|err]; simpl in Hr5.
    - destruct (JSON_parse b) as [v|err].
      + injection Hr5 as ->. reflexivity.
      + destruct (bool_decide _); [injection Hr5 as ->; reflexivity|discriminate].
    - injection Hr5 as ->. reflexivity.
    - destruct (bool_decide _); [injection Hr5 as ->; reflexivity|discriminate]. }
  rewrite Hlist in Hrun. clear Hr5. rewrite bind_modify in Hrun.
  set (s6 := updateExternal (setResourceList list) s5) in *.
  pose proof Hasks5 as (Ht5 & Hf5 & Hd5 & _ & Hq5).
  unfold bind at 1 in Hrun. unfold liftW at 1, writeFile at 1 in Hrun.
  change (files (world s6)) with (files (world s5)) in Hrun. rewrite Hf5 in Hrun.
  change (files (world s4)) with (files (world s3)) in Hrun.
  destruct (files (world s3) !! dirname p1) as [d|] eqn:Hdir; [|discriminate].
  unfold liftW, writeFile in Hrun. simpl in Hrun.
  exists body, manifest, stacks, s2, s3.
  split; [reflexivity|]. split; [exact Hparse|]. split; [exact Hasks2|].
  split; [exact E|].
  destruct (_ !! dirname p2) as [d2|] eqn:Hdir2 in Hrun; [|discriminate].
  injection Hrun as <-. simpl. split.
  { unfold setMapping. rewrite Ht5, Ht4. simpl.
    destruct (externalLandingZoneResources (this s)); reflexivity. }
  split.
  { rewrite Hq5. change (s3Requests (world s4)) with (s3Requests (world s3)).
    rewrite Hq3, Hq2, <- app_assoc. reflexivity. }
  split.
  { rewrite Hd5. change (tmpdir (world s4)) with (tmpdir (world s3)). congruence. }
  exists d. split; [exact Hdir|]. intros Hsame.
  rewrite Hsame, lookup_insert_eq in Hdir2. injection Hdir2 as <-.
  rewrite Hsame, insert_insert_eq. reflexivity.
Qed.

(** A run of [loadExternalMapping] that comes to its end, step by step. *)
Lemma loadExternalMapping_success loadFromCache s bucket s' :
  importEnabled (this s) = true ->
  configuredBucket (this s) = Some bucket -> bucket <> "" ->
  loadExternalMapping loadFromCache s = (Ok tt, s') ->
  let s3Client := {| s3Region := homeRegion (this s) |} in
  let list :=
    resourceListOf (s3_getObject s3Client {| Bucket := bucket; Key := "aseaResources.json" |}) in
  exists body manifest stacks dir suffix s2 s3,
    s3_getObject s3Client {| Bucket := bucket; Key := "mapping.json" |}
      = Ok {| Body := Some body |} /\
    JSON_parse_mapping body = Ok manifest /\
    setTemplateMap (Some manifest) s2 = (Ok stacks, s3) /\
    this s' = this (updateExternal (setMapping (accountId <$> manifest) stacks list) s) /\
    s3Requests (world s') =
      s3Requests (world s) ++ [ {| Bucket := bucket; Key := "mapping.json" |};
                                {| Bucket := bucket; Key := "aseaResources.json" |} ] /\
    dir = joinNames (tmpdir (world s)) "asea-assets" +:+ suffix /\
    files (world s) !! dir = None /\
    files (world s2) = <[dir := ∅]> (files (world s)) /\
    files (world s') =
      <[dir := {[ "aseaMapping.json" := JSON_stringify_mapping manifest;
                  "aseaResources.json" := JSON_stringify list ]}]> (files (world s3)).
Proof.
  intros Hi Hb Hne Hrun s3Client list.
  rewrite (loadExternalMapping_enabled _ _ Hi) in Hrun.
  set (s0 := updateExternal (setAccountsDeployedExternally []) s) in *.
  unfold liftW in Hrun.
  destruct (mkdtemp _ (world s0)) as [[dir|err] w1] eqn:Em; [|discriminate].
  pose proof Em as Em'. unfold mkdtemp in Em'.
  destruct (drawName _ (files (world s0)) (tmpnames (world s0))) as [[dir'|] rest] eqn:Hdraw;
    [|discriminate].
  injection Em' as -> _. apply drawName_suffix in Hdraw as [suffix Hsuffix].
  apply mkdtemp_ok in Em as (Hfresh & Hfiles & Hreq1 & _ & Htmp).
  destruct (configured_bucket _ _ Hi Hb Hne) as (e & He & _ & _).
  set (s1 := {| this := this s0; world := w1 |}) in *.
  assert (He1 : externalLandingZoneResources (this s1)
                = Some (setAccountsDeployedExternally [] e)).
  { simpl. rewrite He. reflexivity. }
  assert (Hi1 : importEnabled (this s1) = true).
  { unfold importEnabled in *. rewrite He1. simpl. rewrite He in Hi. exact Hi. }
  assert (Hb1 : configuredBucket (this s1) = Some bucket).
  { unfold configuredBucket in *. rewrite He1. simpl. rewrite He in Hb. exact Hb. }
  destruct (loadFromBucket_success _ _ _ _ _ _ _ [] Hi1 Hb1 Hne He1 eq_refl Hrun)
    as (body & manifest & stacks & s2 & s3 & Hmap & Hparse & Hasks & Hmake & Hthis
        & Hreq & _ & d & Hd & Hwrite).
  fold s3Client list in Hmap, Hthis, Hwrite.
  pose proof Hasks as (_ & Hf2 & _).
  pose proof (adds_setTemplateMap _ _ _ _ Hmake) as (Hf3 & _).
  simpl in Hd.
  assert (Hempty : files (world s3) !! dir = Some ∅).
  { eapply lookup_weaken; [|exact Hf3]. rewrite Hf2. simpl. rewrite Hfiles.
    apply lookup_insert_eq. }
  rewrite Hempty in Hd. injection Hd as <-.
  exists body, manifest, stacks, dir, suffix, s2, s3.
  split; [exact Hmap|]. split; [exact Hparse|]. split; [exact Hmake|]. split.
  { rewrite Hthis. simpl. rewrite He. reflexivity. }
  split; [rewrite Hreq; simpl; rewrite Hreq1; reflexivity|].
  split; [exact Hsuffix|]. split; [exact Hfresh|].
  split; [rewrite Hf2; exact Hfiles|].
  rewrite (Hwrite eq_refl). simpl. f_equal.
Qed.

(** X8: a run of [loadExternalMapping] that returns has asked the bucket
    twice, for [mapping.json] and then for [aseaResources.json], and has
    written three fields of the instance and nothing else: the accounts of
    the manifest, in order, whatever the list held before; the template map
    that [setTemplateMap] made of the manifest; and the resource list of
    the bucket, or the empty list where the bucket has none. *)
Theorem loadExternalMapping_sets_three_fields loadFromCache s bucket s' body manifest :
  importEnabled (this s) = true ->
  configuredBucket (this s) = Some bucket -> bucket <> "" ->
  s3_getObject {| s3Region := homeRegion (this s) |}
      {| Bucket := bucket; Key := "mapping.json" |} = Ok {| Body := Some body |} ->
  JSON_parse_mapping body = Ok manifest ->
  Forall writable (manifestStacks manifest) ->
  loadExternalMapping loadFromCache s = (Ok tt, s') ->
  let list :=
    resourceListOf (s3_getObject {| s3Region := homeRegion (this s) |}
                      {| Bucket := bucket; Key := "aseaResources.json" |}) in
  (exists stacks s2 s3,
     setTemplateMap (Some manifest) s2 = (Ok stacks, s3) /\
     this s' = this (updateExternal (setMapping (accountId <$> manifest) stacks list) s)) /\
  s3Requests (world s') =
    s3Requests (world s) ++ [ {| Bucket := bucket; Key := "mapping.json" |};
                              {| Bucket := bucket; Key := "aseaResources.json" |} ].
Proof.
  intros Hi Hb Hne Hmap Hparse _ Hrun list.
  destruct (loadExternalMapping_success _ _ _ _ Hi Hb Hne Hrun)
    as (body' & manifest' & stacks & dir & suffix & s2 & s3 & Hmap' & Hparse' & Hmake
        & Hthis & Hreq & _).
  rewrite Hmap in Hmap'. injection Hmap' as <-.
  rewrite Hparse in Hparse'. injection Hparse' as <-.
  split; [|exact Hreq]. exists stacks, s2, s3. split; [exact Hmake|exact Hthis].
Qed.

(** X9: a run of [loadExternalMapping] that returns leaves a new
    directory [<tmpdir>/asea-assets<suffix>] that holds the manifest and the
    resource list as it has read them, and every directory that was there
    before the call holds the files it held. *)
Theorem loadExternalMapping_writes_cache loadFromCache s bucket s' body manifest :
  importEnabled (this s) = true ->
  configuredBucket (this s) = Some bucket -> bucket <> "" ->
  s3_getObject {| s3Region := homeRegion (this s) |}
      {| Bucket := bucket; Key := "mapping.json" |} = Ok {| Body := Some body |} ->
  JSON_parse_mapping body = Ok manifest ->
  Forall writable (manifestStacks manifest) ->
  loadExternalMapping loadFromCache s = (Ok tt, s') ->
  let list :=
    resourceListOf (s3_getObject {| s3Region := homeRegion (this s) |}
                      {| Bucket := bucket; Key := "aseaResources.json" |}) in
  (exists suffix,
     let dir := joinNames (tmpdir (world s)) "asea-assets" +:+ suffix in
     files (world s) !! dir = None /\
     files (world s') !! dir =
       Some {[ "aseaMapping.json" := JSON_stringify_mapping manifest;
               "aseaResources.json" := JSON_stringify list ]}) /\
  files (world s) ⊆ files (world s').
Proof.
  intros Hi Hb Hne Hmap Hparse _ Hrun list.
  destruct (loadExternalMapping_success _ _ _ _ Hi Hb Hne Hrun)
    as (body' & manifest' & stacks & dir & suffix & s2 & s3 & Hmap' & Hparse' & Hmake
        & _ & _ & Hdir & Hfresh & Hf2 & Hf').
  rewrite Hmap in Hmap'. injection Hmap' as <-.
  rewrite Hparse in Hparse'. injection Hparse' as <-.
  fold list in Hf'. subst dir. split.
  - exists suffix. cbv zeta. split; [exact Hfresh|].
    rewrite Hf'. apply lookup_insert_eq.
  - pose proof (adds_setTemplateMap _ _ _ _ Hmake) as (Hf3 & _).
    apply map_subseteq_spec. intros k x Hk.
    assert (Hne' : k <> joinNames (tmpdir (world s)) "asea-assets" +:+ suffix)
      by (intros ->; congruence).
    rewrite Hf', lookup_insert_ne by (intros Heq; apply Hne'; symmetry; exact Heq).
    eapply lookup_weaken; [|exact Hf3]. rewrite Hf2, lookup_insert_ne; [exact Hk|].
    intros Heq. apply Hne'. symmetry. exact Heq.
Qed.

(** X10: with the import enabled and no bucket configured,
    [loadExternalMappingFromS3] returns [undefined], over which
    [setTemplateMap] cannot iterate: [loadExternalMapping] is rejected with
    a [TypeError] (or with the error of [mkdtemp]); it has asked no bucket,
    and it leaves the list of the accounts empty. *)
Theorem loadExternalMapping_without_bucket loadFromCache s r s' :
  importEnabled (this s) = true ->
  truthy (configuredBucket (this s)) = false ->
  loadExternalMapping loadFromCache s = (r, s') ->
  (r = Throw (TypeError "mappingJson is not iterable") \/
   r = Throw (SystemError "EEXIST")) /\
  s3Requests (world s') = s3Requests (world s) /\
  this s' = this (updateExternal (setAccountsDeployedExternally []) s).
Proof.
  intros Hi Hb Hrun. rewrite (loadExternalMapping_enabled _ _ Hi) in Hrun.
  set (s0 := updateExternal (setAccountsDeployedExternally []) s) in *.
  unfold liftW in Hrun.
  destruct (mkdtemp _ (world s0)) as [[dir|err] w1] eqn:Em.
  - apply mkdtemp_ok in Em as (_ & _ & Hreq & _).
    unfold loadFromBucket in Hrun. unfold bind at 1 in Hrun.
    rewrite loadExternalMappingFromS3_unconfigured in Hrun.
    + unfold bind at 1 in Hrun. simpl in Hrun. unfold throw in Hrun.
      injection Hrun as <- <-. simpl. split; [left; reflexivity|]. split; [exact Hreq|].
      reflexivity.
    + simpl. unfold configuredBucket in *. simpl.
      destruct (externalLandingZoneResources (this s)); [exact Hb|reflexivity].
  - apply mkdtemp_throw in Em as (-> & Hreq). injection Hrun as <- <-.
    split; [right; reflexivity|]. split; [exact Hreq|reflexivity].
Qed.

(** *** With room in the temporary directory *)

(** With a name for its directory, a round of the loop over the stacks
    returns. *)
Lemma processStack_returns account acc stack s w dir w1 :
  sameDirs w (world s) ->
  mkdtemp (joinNames (tmpdir w) "asea-templates-") w = (Ok dir, w1) ->
  exists acc' s',
    processStack account acc stack s = (Ok acc', s') /\
    this s' = this s /\ sameDirs w1 (world s').
Proof.
  intros Hsame Hmk. pose proof Hsame as (Htmp & _).
  destruct (mkdtemp_sameDirs _ _ _ _ _ Hsame Hmk) as (w1' & Hmk' & Hsame1 & Hfiles & _).
  unfold processStack. rewrite bind_gets. unfold bind at 1, liftW at 1.
  rewrite Htmp, Hmk'. unfold bind, liftW, writeFile. simpl.
  rewrite Hfiles, lookup_insert_eq. unfold ret. eexists _, _.
  split; [reflexivity|]. split; [reflexivity|]. simpl.
  eapply sameDirs_trans; [exact Hsame1|].
  split; [reflexivity|]. split; [reflexivity|]. intros d. simpl.
  rewrite Hfiles. destruct (decide (dir = d)) as [->|Hne].
  - rewrite !lookup_insert_eq. split; discriminate.
  - rewrite !lookup_insert_ne by exact Hne. reflexivity.
Qed.

Lemma processStacks_return account stacks : forall acc s w w1,
  sameDirs w (world s) ->
  makeDirs (replicate (length stacks) (joinNames (tmpdir w) "asea-templates-")) w = Some w1 ->
  exists acc' s',
    forM stacks acc (processStack account) s = (Ok acc', s') /\
    this s' = this s /\ sameDirs w1 (world s').
Proof.
  induction stacks as [|stack stacks IH]; intros acc s w w1 Hsame Hroom; simpl in *.
  - injection Hroom as <-. exists acc, s. repeat split; apply Hsame.
  - destruct (mkdtemp _ w) as [[dir|e] w0] eqn:Em; [|discriminate].
    destruct (processStack_returns account acc stack s w dir w0 Hsame Em)
      as (acc1 & s1 & Hrun1 & Hthis1 & Hsame1).
    apply mkdtemp_ok in Em as (_ & _ & _ & _ & Htmp). rewrite <- Htmp in Hroom.
    destruct (IH acc1 s1 w0 w1 Hsame1 Hroom) as (acc' & s' & Hrun & Hthis & Hsame').
    exists acc', s'. unfold bind at 1. rewrite Hrun1.
    split; [exact Hrun|]. split; [congruence|exact Hsame'].
Qed.

(** With a name for the directory of every stack, the loop over the
    accounts returns. *)
Lemma processAccounts_return accounts : forall aseaStacks s w w1 e l,
  externalLandingZoneResources (this s) = Some e ->
  accountsDeployedExternally e = Some l ->
  sameDirs w (world s) ->
  makeDirs (replicate (length (manifestStacks accounts))
              (joinNames (tmpdir w) "asea-templates-")) w = Some w1 ->
  exists stacks s',
    forM accounts aseaStacks processAccount s = (Ok stacks, s') /\
    sameDirs w1 (world s').
Proof.
  induction accounts as [|account accounts IH]; intros aseaStacks s w w1 e l He Hl Hsame Hroom.
  - simpl in *. injection Hroom as <-. exists aseaStacks, s. split; [reflexivity|exact Hsame].
  - change (manifestStacks (account :: accounts))
      with (stacksAndResourceMapList account ++ manifestStacks accounts) in Hroom.
    rewrite length_app, replicate_add, makeDirs_app in Hroom.
    destruct (makeDirs _ w) as [w0|] eqn:Hroom0; [|discriminate]. simpl in Hroom.
    cbn [forM]. unfold bind at 1, processAccount at 1. unfold bind at 1.
    rewrite (pushAccount_run _ _ _ _ He Hl). unfold bind at 1.
    set (s0 := updateExternal (setAccountsDeployedExternally (l ++ [accountId account])) s).
    destruct (processStacks_return account (stacksAndResourceMapList account)
                (aseaStacks, []) s0 w w0 Hsame Hroom0) as (acc' & s1 & -> & Hthis1 & Hsame1).
    unfold ret.
    rewrite <- (makeDirs_tmpdir _ _ _ Hroom0) in Hroom.
    apply (IH _ s1 w0 w1 (setAccountsDeployedExternally (l ++ [accountId account]) e)
             (l ++ [accountId account]));
      [|reflexivity|exact Hsame1|exact Hroom].
    rewrite Hthis1. unfold s0. simpl. rewrite He. reflexivity.
Qed.

(** With a name for its directory, [loadExternalMapping] goes on with
    the branch that asks the bucket, in a state that differs from the one
    of the call by the emptied list of the accounts and the new
    directory. *)
Lemma loadExternalMapping_makes_directory loadFromCache s w :
  importEnabled (this s) = true ->
  makeDirs [joinNames (tmpdir (world s)) "asea-assets"] (world s) = Some w ->
  exists dir,
    files w !! dir = Some ∅ /\
    s3Requests w = s3Requests (world s) /\
    tmpdir w = tmpdir (world s) /\
    loadExternalMapping loadFromCache s =
      loadFromBucket (this s) (path_join dir "aseaMapping.json")
        (path_join dir "aseaResources.json")
        {| this := this (updateExternal (setAccountsDeployedExternally []) s); world := w |}.
Proof.
  intros Hi Hroom. simpl in Hroom.
  destruct (mkdtemp _ (world s)) as [[dir|e] w1] eqn:Em; [|discriminate].
  injection Hroom as <-. exists dir.
  rewrite (loadExternalMapping_enabled _ _ Hi). unfold liftW.
  change (world (updateExternal (setAccountsDeployedExternally []) s)) with (world s).
  rewrite Em. apply mkdtemp_ok in Em as (_ & Hfiles & Hreq & _ & Htmp).
  split; [rewrite Hfiles; apply lookup_insert_eq|]. repeat split; assumption.
Qed.

Lemma roomFor_directory manifest w :
  roomFor manifest w ->
  exists w1 w2,
    makeDirs [joinNames (tmpdir w) "asea-assets"] w = Some w1 /\
    makeDirs (replicate (length (manifestStacks manifest))
                (joinNames (tmpdir w1) "asea-templates-")) w1 = Some w2.
Proof.
  intros [w2 Hroom]. simpl in *.
  destruct (mkdtemp _ w) as [[dir|e] w1] eqn:Em; [|discriminate].
  exists w1, w2. split; [reflexivity|].
  apply mkdtemp_ok in Em as (_ & _ & _ & _ & ->). exact Hroom.
Qed.

Lemma roomFor_nil manifest w : roomFor manifest w -> roomFor [] w.
Proof.
  intros Hroom. destruct (roomFor_directory _ _ Hroom) as (w1 & _ & Hw1 & _).
  unfold roomFor. simpl in *. destruct (mkdtemp _ w) as [[dir|e] w0]; [eauto|discriminate].
Qed.

(** An error on the way to the manifest comes out of
    [loadExternalMapping] as it is. *)
Lemma loadExternalMapping_manifest_refused loadFromCache s bucket r s' e :
  importEnabled (this s) = true ->
  configuredBucket (this s) = Some bucket -> bucket <> "" ->
  roomFor [] (world s) ->
  loadExternalMapping loadFromCache s = (r, s') ->
  match s3_getObject {| s3Region := homeRegion (this s) |}
          {| Bucket := bucket; Key := "mapping.json" |} with
  | Throw e => Throw e
  | Ok mappingFile =>
      match Body mappingFile with
      | None => Throw (Error "Runtime error")
      | Some body =>
          match JSON_parse_mapping body with
          | Ok mapping => Ok (Some mapping)
          | Throw e => Throw e
          end
      end
  end = Throw e ->
  r = Throw e.
Proof.
  intros Hi Hb Hne Hroom Hrun Hanswer.
  destruct (roomFor_directory _ _ Hroom) as (w1 & _ & Hw1 & _).
  destruct (loadExternalMapping_makes_directory loadFromCache s w1 Hi Hw1)
    as (dir & _ & _ & _ & Heq).
  rewrite Heq in Hrun. clear Heq.
  destruct (configured_bucket _ _ Hi Hb Hne) as (e0 & He & _ & _).
  set (s1 := {| this := this (updateExternal (setAccountsDeployedExternally []) s);
                world := w1 |}) in *.
  assert (He1 : externalLandingZoneResources (this s1)
                = Some (setAccountsDeployedExternally [] e0)).
  { simpl. rewrite He. reflexivity. }
  assert (Hi1 : importEnabled (this s1) = true).
  { unfold importEnabled in *. rewrite He1. simpl. rewrite He in Hi. exact Hi. }
  assert (Hb1 : configuredBucket (this s1) = Some bucket).
  { unfold configuredBucket in *. rewrite He1. simpl. rewrite He in Hb. exact Hb. }
  unfold loadFromBucket in Hrun. unfold bind at 1 in Hrun.
  destruct (loadExternalMappingFromS3 _ s1) as [r2 s2] eqn:E2.
  apply (loadExternalMappingFromS3_asks _ _ bucket) in E2 as (_ & Hr2); [|assumption..].
  rewrite Hanswer in Hr2. subst r2. injection Hrun as <- _. reflexivity.
Qed.

(** With room in the temporary directory and the manifest in the bucket,
    [loadExternalMapping] comes to the request for the resource list: the
    accounts of the manifest and the template map are in the instance,
    one request has been sent, and the directory of the run is there. *)
Lemma loadExternalMapping_reaches_list loadFromCache s bucket body manifest :
  importEnabled (this s) = true ->
  configuredBucket (this s) = Some bucket -> bucket <> "" ->
  s3_getObject {| s3Region := homeRegion (this s) |}
      {| Bucket := bucket; Key := "mapping.json" |} = Ok {| Body := Some body |} ->
  JSON_parse_mapping body = Ok manifest ->
  roomFor manifest (world s) ->
  exists dir stacks s2 s3,
    setTemplateMap (Some manifest) s2 = (Ok stacks, s3) /\
    let s4 := updateExternal (setTemplateMapField stacks) s3 in
    this s4 =
      this (updateExternal
              (fun e => setTemplateMapField stacks
                          (setAccountsDeployedExternally (accountId <$> manifest) e)) s) /\
    s3Requests (world s4) =
      s3Requests (world s) ++ [ {| Bucket := bucket; Key := "mapping.json" |} ] /\
    is_Some (files (world s4) !! dir) /\
    loadExternalMapping loadFromCache s =
      (fetched <- readJsonFromExternalS3 "aseaResources.json"
                    (Some {| s3Region := homeRegion (this s) |});;
       modify (updateExternal (setResourceList (orEmptyArray fetched)));;;
       liftW (writeFile (path_join dir "aseaMapping.json") (JSON_stringify_mapping manifest));;;
       liftW (writeFile (path_join dir "aseaResources.json")
                (JSON_stringify (orEmptyArray fetched))))%monad s4.
Proof.
  intros Hi Hb Hne Hmap Hparse Hroom.
  destruct (roomFor_directory _ _ Hroom) as (w1 & w2 & Hw1 & Hw2).
  destruct (loadExternalMapping_makes_directory loadFromCache s w1 Hi Hw1)
    as (dir & Hdir & Hreq1 & Htmp1 & ->).
  destruct (configured_bucket _ _ Hi Hb Hne) as (e0 & He & _ & _).
  set (s1 := {| this := this (updateExternal (setAccountsDeployedExternally []) s);
                world := w1 |}) in *.
  assert (He1 : externalLandingZoneResources (this s1)
                = Some (setAccountsDeployedExternally [] e0)).
  { simpl. rewrite He. reflexivity. }
  assert (Hi1 : importEnabled (this s1) = true).
  { unfold importEnabled in *. rewrite He1. simpl. rewrite He in Hi. exact Hi. }
  assert (Hb1 : configuredBucket (this s1) = Some bucket).
  { unfold configuredBucket in *. rewrite He1. simpl. rewrite He in Hb. exact Hb. }
  unfold loadFromBucket. unfold bind at 1.
  destruct (loadExternalMappingFromS3 _ s1) as [r2 s2] eqn:E2.
  apply (loadExternalMappingFromS3_asks _ _ bucket) in E2 as (Hasks2 & Hr2);
    [|assumption..].
  rewrite Hmap in Hr2. simpl in Hr2. rewrite Hparse in Hr2. subst r2.
  pose proof Hasks2 as (Ht2 & Hf2 & Hd2 & Hn2 & Hq2).
  assert (He2 : externalLandingZoneResources (this s2)
                = Some (setAccountsDeployedExternally [] e0)) by (rewrite Ht2; exact He1).
  assert (Hsame2 : sameDirs w1 (world s2)).
  { split; [exact Hd2|]. split; [exact Hn2|]. intros d. rewrite Hf2. reflexivity. }
  destruct (processAccounts_return manifest [] s2 w1 w2 _ [] He2 eq_refl Hsame2 Hw2)
    as (stacks & s3 & E3 & _).
  change (forM manifest [] processAccount s2) with (setTemplateMap (Some manifest) s2) in E3.
  exists dir, stacks, s2, s3. split; [exact E3|]. cbv zeta.
  pose proof (processAccounts_this _ _ _ _ _ _ _ He2 eq_refl E3) as Ht3.
  pose proof (adds_setTemplateMap _ _ _ _ E3) as (Hf3 & _ & _ & Hq3).
  split.
  { unfold updateExternal. simpl. rewrite Ht3. simpl. rewrite Ht2. simpl.
    destruct (externalLandingZoneResources (this s)); reflexivity. }
  split.
  { change (s3Requests (world (updateExternal (setTemplateMapField stacks) s3)))
      with (s3Requests (world s3)).
    rewrite Hq3, Hq2. simpl. rewrite Hreq1. reflexivity. }
  split.
  { exists ∅. eapply lookup_weaken; [|exact Hf3]. rewrite Hf2. exact Hdir. }
  unfold bind at 1. rewrite E3. rewrite bind_modify. reflexivity.
Qed.

(** The end of the branch that asks the bucket, from the request for the
    resource list on. *)
Lemma loadExternalMapping_list_run s3Client dir manifest s bucket r s' :
  importEnabled (this s) = true ->
  configuredBucket (this s) = Some bucket -> bucket <> "" ->
  is_Some (files (world s) !! dir) ->
  (fetched <- readJsonFromExternalS3 "aseaResources.json" (Some s3Client);;
   modify (updateExternal (setResourceList (orEmptyArray fetched)));;;
   liftW (writeFile (path_join dir "aseaMapping.json") (JSON_stringify_mapping manifest));;;
   liftW (writeFile (path_join dir "aseaResources.json")
            (JSON_stringify (orEmptyArray fetched))))%monad s = (r, s') ->
  s3Requests (world s') =
    s3Requests (world s) ++ [ {| Bucket := bucket; Key := "aseaResources.json" |} ] /\
  match fst (readJsonFromExternalS3 "aseaResources.json" (Some s3Client) s) with
  | Throw e => r = Throw e /\ this s' = this s
  | Ok fetched =>
      r = Ok tt /\
      this s' = this (updateExternal (setResourceList (orEmptyArray fetched)) s)
  end.
Proof.
  intros Hi Hb Hne [d Hdir] Hrun. unfold bind at 1 in Hrun.
  destruct (readJsonFromExternalS3 _ _ s) as [r5 s5] eqn:E5.
  apply (readJsonFromExternalS3_asks _ _ _ bucket) in E5 as (Hasks5 & _);
    [|assumption..].
  destruct Hasks5 as (Ht5 & Hf5 & _ & _ & Hq5). simpl.
  destruct r5 as [fetched|e].
  - rewrite bind_modify in Hrun. unfold bind at 1, liftW at 1, writeFile at 1 in Hrun.
    simpl in Hrun. rewrite Hf5, Hdir in Hrun.
    unfold liftW, writeFile in Hrun. simpl in Hrun. rewrite lookup_insert_eq in Hrun.
    injection Hrun as <- <-. simpl. rewrite Ht5. repeat split. exact Hq5.
  - injection Hrun as <- <-. repeat split; assumption.
Qed.

(** C8: on the way through the bucket, with a name for the directory of
    the run, every error on the fetch of [mapping.json], [NoSuchKey]
    included, comes out of [loadExternalMapping] as it is, and a
    [mapping.json] without a body or with an empty one makes the call fail.
    With the manifest read and room for its templates, a missing
    [aseaResources.json] (the error [NoSuchKey]) is absorbed: the call
    returns and the resource list is empty; every other error on this
    fetch comes out as it is. *)
Theorem loadExternalMapping_absorbs_only_missing_list loadFromCache s bucket r s' :
  importEnabled (this s) = true ->
  configuredBucket (this s) = Some bucket -> bucket <> "" ->
  roomFor [] (world s) ->
  loadExternalMapping loadFromCache s = (r, s') ->
  let s3Client := {| s3Region := homeRegion (this s) |} in
  let mappingObject := s3_getObject s3Client {| Bucket := bucket; Key := "mapping.json" |} in
  let listObject := s3_getObject s3Client {| Bucket := bucket; Key := "aseaResources.json" |} in
  (forall e, mappingObject = Throw e -> r = Throw e) /\
  (mappingObject = Ok {| Body := None |} -> r = Throw (Error "Runtime error")) /\
  (mappingObject = Ok {| Body := Some "" |} -> exists m, r = Throw (SyntaxError m)) /\
  (forall body manifest e,
     mappingObject = Ok {| Body := Some body |} ->
     JSON_parse_mapping body = Ok manifest ->
     Forall writable (manifestStacks manifest) ->
     roomFor manifest (world s) ->
     listObject = Throw e ->
     (code e = Some "NoSuchKey" ->
      r = Ok tt /\
      externalLandingZoneResources (this s') ≫= resourceList = Some (VArray [])) /\
     (code e <> Some "NoSuchKey" -> r = Throw e)).
Proof.
  intros Hi Hb Hne Hroom Hrun s3Client mappingObject listObject.
  pose proof (fun e => loadExternalMapping_manifest_refused loadFromCache s bucket r s' e
                         Hi Hb Hne Hroom Hrun) as Hrefused.
  fold s3Client mappingObject in Hrefused.
  split; [intros e He; apply Hrefused; rewrite He; reflexivity|].
  split; [intros He; apply Hrefused; rewrite He; reflexivity|].
  split.
  { intros He. destruct JSON_parse_mapping_empty as [m Hm]. exists m.
    apply Hrefused. rewrite He. simpl. rewrite Hm. reflexivity. }
  intros body manifest e Hmap Hparse _ Hroom' Hlist.
  destruct (loadExternalMapping_reaches_list loadFromCache s bucket body manifest
              Hi Hb Hne Hmap Hparse Hroom')
    as (dir & stacks & s2 & s3 & _ & Ht4 & _ & Hdir & Heq).
  cbv zeta in Ht4, Hdir, Heq. rewrite Heq in Hrun. clear Heq.
  set (s4 := updateExternal (setTemplateMapField stacks) s3) in *.
  destruct (configured_bucket _ _ Hi Hb Hne) as (e0 & He & _ & _).
  assert (Hi4 : importEnabled (this s4) = true).
  { rewrite Ht4. unfold importEnabled in *. simpl. rewrite He in *. exact Hi. }
  assert (Hb4 : configuredBucket (this s4) = Some bucket).
  { rewrite Ht4. unfold configuredBucket in *. simpl. rewrite He in *. exact Hb. }
  destruct (loadExternalMapping_list_run _ _ _ _ _ _ _ Hi4 Hb4 Hne Hdir Hrun) as (_ & Hend).
  rewrite (readJsonFromExternalS3_run "aseaResources.json" s3Client s4 bucket Hi4 Hb4 Hne)
    in Hend.
  fold listObject in Hend. rewrite Hlist in Hend. split; intros Hcode.
  - rewrite bool_decide_eq_true_2 in Hend by exact Hcode. destruct Hend as [-> ->].
    split; [reflexivity|]. unfold importEnabled in Hi4.
    change (externalLandingZoneResources
              (this (updateExternal (setResourceList (orEmptyArray None)) s4)))
      with (setResourceList (orEmptyArray None) <$> externalLandingZoneResources (this s4)).
    destruct (externalLandingZoneResources (this s4)); [reflexivity|discriminate].
  - rewrite bool_decide_eq_false_2 in Hend by exact Hcode. apply Hend.
Qed.

(** X11: with room in the temporary directory, when the bucket has the
    manifest and refuses the resource list with an error other than
    [NoSuchKey], [loadExternalMapping] is rejected with this error, and
    nothing is rolled back: the accounts of the manifest and the template
    map are in the instance, and both requests have been sent. *)
Theorem loadExternalMapping_rejected_keeps_writes
    loadFromCache s bucket r s' body manifest err :
  importEnabled (this s) = true ->
  configuredBucket (this s) = Some bucket -> bucket <> "" ->
  s3_getObject {| s3Region := homeRegion (this s) |}
      {| Bucket := bucket; Key := "mapping.json" |} = Ok {| Body := Some body |} ->
  JSON_parse_mapping body = Ok manifest ->
  Forall writable (manifestStacks manifest) ->
  roomFor manifest (world s) ->
  s3_getObject {| s3Region := homeRegion (this s) |}
      {| Bucket := bucket; Key := "aseaResources.json" |} = Throw err ->
  code err <> Some "NoSuchKey" ->
  loadExternalMapping loadFromCache s = (r, s') ->
  r = Throw err /\
  s3Requests (world s') =
    s3Requests (world s) ++ [ {| Bucket := bucket; Key := "mapping.json" |};
                              {| Bucket := bucket; Key := "aseaResources.json" |} ] /\
  exists stacks s2 s3,
    setTemplateMap (Some manifest) s2 = (Ok stacks, s3) /\
    this s' =
      this (updateExternal
              (fun e => setTemplateMapField stacks
                          (setAccountsDeployedExternally (accountId <$> manifest) e)) s).
Proof.
  intros Hi Hb Hne Hmap Hparse _ Hroom Hlist Hcode Hrun.
  destruct (loadExternalMapping_reaches_list loadFromCache s bucket body manifest
              Hi Hb Hne Hmap Hparse Hroom)
    as (dir & stacks & s2 & s3 & Hmake & Ht4 & Hq4 & Hdir & Heq).
  cbv zeta in Ht4, Hq4, Hdir, Heq. rewrite Heq in Hrun. clear Heq.
  set (s4 := updateExternal (setTemplateMapField stacks) s3) in *.
  destruct (configured_bucket _ _ Hi Hb Hne) as (e0 & He & _ & _).
  assert (Hi4 : importEnabled (this s4) = true).
  { rewrite Ht4. unfold importEnabled in *. simpl. rewrite He in *. exact Hi. }
  assert (Hb4 : configuredBucket (this s4) = Some bucket).
  { rewrite Ht4. unfold configuredBucket in *. simpl. rewrite He in *. exact Hb. }
  destruct (loadExternalMapping_list_run _ _ _ _ _ _ _ Hi4 Hb4 Hne Hdir Hrun)
    as (Hq & Hend).
  rewrite (readJsonFromExternalS3_run "aseaResources.json" _ s4 bucket Hi4 Hb4 Hne)
    in Hend.
  rewrite Hlist, bool_decide_eq_false_2 in Hend by exact Hcode.
  destruct Hend as [-> Ht]. split; [reflexivity|]. split.
  - rewrite Hq, Hq4, <- app_assoc. reflexivity.
  - exists stacks, s2, s3. split; [exact Hmake|]. rewrite Ht. exact Ht4.
Qed.

End Mapping.

(** ** The fan-out when nothing fails *)

Section Resolved.
Context `{CommonTypes} `{Libraries} `{Aws}.
Variables (fuel : nat) (partition prefix role : string) (regions accounts : list string).
Hypothesis Hread : forall a r,
  a ∈ accounts -> r ∈ regions ->
  is_Some (parametersRead fuel partition prefix role a r).
Hypothesis Hkeys : distinctKeys accounts regions.

Local Abbreviation grows' := (grows fuel partition prefix role regions accounts).
Local Abbreviation written' := (written fuel partition prefix role).
Local Abbreviation covered' := (covered fuel partition prefix role regions accounts).

Lemma grows_refl s : grows' s s.
Proof. split; [apply kept_refl|auto]. Qed.

Lemma grows_trans s1 s2 s3 : grows' s1 s2 -> grows' s2 s3 -> grows' s1 s3.
Proof.
  intros [Hk Hw] [Hk' Hw']. split; [eapply kept_trans; eassumption|].
  intros a r Ha Hr Hs. apply Hw'; auto.
Qed.

(** A round for a pair whose parameters can be read writes them under
    the key of the pair. *)
Lemma reconcileAccount_reads a r s :
  goodFor role s -> a ∈ accounts -> r ∈ regions ->
  exists s',
    reconcileAccount fuel r partition prefix a s = (Some (Ok tt), s') /\
    goodFor role s' /\ grows' s s' /\ written' s' a r.
Proof.
  intros [Hready Hrole] Ha Hr.
  pose proof (reconcileAccount_kept fuel regions accounts r partition prefix a s
                Hready Ha Hr) as [Hkept Hready'].
  destruct (Hread a r Ha Hr) as [p Hp]. pose proof Hp as Hp0.
  unfold reconcileAccount in *. rewrite Hrole in *.
  unfold parametersRead in Hp.
  unfold getCrossAccountCredentials, try_catch, bind, lift in *.
  destruct (throttlingBackOff (sts_send r _)) as [[output|]|e]; try discriminate.
  unfold ret in *.
  destruct (getCrossAccountSsmClient r output) as [ssmClient|e]; [|discriminate].
  destruct (Promise_all _) as [[ssmResults|e]|]; try discriminate.
  injection Hp as <-.
  destruct (commitParameters_ready (a +:+ "-" +:+ r) (mergeResults ssmResults) s Hready)
    as (m & Hm & Hcommit).
  rewrite Hcommit in *. simpl in Hkept, Hready'.
  eexists. split; [reflexivity|].
  assert (Hentry : forall a' r',
            entryOf (updateExternal (setResourceParameters
                                       (<[a +:+ "-" +:+ r := mergeResults ssmResults]> m)) s)
              a' r'
            = (<[a +:+ "-" +:+ r := mergeResults ssmResults]> m) !! (a' +:+ "-" +:+ r')).
  { intros a' r'. unfold entryOf.
    rewrite parametersOf_update by (apply ready_external; exact Hready). reflexivity. }
  split; [split; [exact Hready'|exact Hrole]|]. split; [split; [exact Hkept|]|].
  - intros a' r' Ha' Hr' Hwritten. unfold written in *. rewrite Hentry.
    destruct (decide (a +:+ "-" +:+ r = a' +:+ "-" +:+ r')) as [Heq|Hne].
    + destruct (Hkeys a a' r r' Ha Ha' Hr Hr' Heq) as [<- <-].
      rewrite lookup_insert_eq. symmetry. exact Hp0.
    + rewrite lookup_insert_ne by exact Hne. rewrite <- Hwritten.
      unfold entryOf. rewrite Hm. reflexivity.
  - unfold written. rewrite Hentry, lookup_insert_eq. symmetry. exact Hp0.
Qed.

(** A task that runs alone comes to its end and writes the entries of
    its accounts. *)
Lemma loop_reads r pending : forall s,
  goodFor role s -> pending ⊆ accounts -> r ∈ regions ->
  exists s',
    loadRegionLzaResources_loop fuel r partition prefix pending s = (Some (Ok tt), s') /\
    goodFor role s' /\ grows' s s' /\
    forall a, a ∈ pending -> written' s' a r.
Proof.
  induction pending as [|a rest IH]; intros s Hgood Hsub Hr; simpl.
  - exists s. split; [reflexivity|]. split; [exact Hgood|]. split; [apply grows_refl|].
    intros a Ha. inversion Ha.
  - assert (Ha : a ∈ accounts) by (apply Hsub; left).
    destruct (reconcileAccount_reads a r s Hgood Ha Hr) as (s1 & -> & Hgood1 & Hg1 & Hw1).
    destruct (IH s1 Hgood1) as (s' & Hrun & Hgood' & Hg' & Hw');
      [intros x Hx; apply Hsub; right; exact Hx|exact Hr|].
    exists s'. split; [exact Hrun|]. split; [exact Hgood'|].
    split; [eapply grows_trans; eassumption|].
    intros x Hx. apply elem_of_cons in Hx as [->|Hx]; [|apply Hw'; exact Hx].
    apply (proj2 Hg'); assumption.
Qed.

(** A turn of a task writes an entry and leaves every pair covered. *)
Lemma turn_reads i tasks s :
  goodFor role s -> poolOk regions accounts tasks -> covered' tasks s ->
  exists tasks' s',
    turn fuel partition prefix i tasks s = (None, tasks', s') /\
    goodFor role s' /\ grows' s s' /\
    poolOk regions accounts tasks' /\ covered' tasks' s'.
Proof.
  intros Hgood Hpool Hcov. unfold turn.
  destruct (tasks !! i) as [[r [|a rest]]|] eqn:Hi;
    [exists tasks, s; split; [reflexivity|];
       split; [assumption|split; [apply grows_refl|split; assumption]]| |
     exists tasks, s; split; [reflexivity|];
       split; [assumption|split; [apply grows_refl|split; assumption]]].
  pose proof (Forall_lookup_1 _ _ _ _ Hpool Hi) as [Hreg Hsub]. simpl in Hreg, Hsub.
  assert (Ha : a ∈ accounts) by (apply Hsub; left).
  destruct (reconcileAccount_reads a r s Hgood Ha Hreg) as (s1 & -> & Hgood1 & Hg1 & Hw1).
  eexists _, s1. split; [reflexivity|]. split; [exact Hgood1|]. split; [exact Hg1|].
  split.
  - apply Forall_insert; [exact Hpool|]. simpl.
    split; [exact Hreg|intros x Hx; apply Hsub; right; exact Hx].
  - intros a' r' Ha' Hr'.
    destruct (Hcov a' r' Ha' Hr') as [Hw|(t & Ht & Htr & Hpend)].
    + left. apply (proj2 Hg1); assumption.
    + apply list_elem_of_lookup in Ht as [j Hj].
      destruct (decide (j = i)) as [->|Hne].
      * rewrite Hi in Hj. injection Hj as <-. simpl in Htr, Hpend. subst r'.
        apply elem_of_cons in Hpend as [->|Hpend]; [left; exact Hw1|].
        right. exists {| taskRegion := r; pending := rest |}.
        split; [|split; [reflexivity|exact Hpend]].
        apply list_elem_of_lookup. exists i. apply list_lookup_insert_eq.
        eapply lookup_lt_Some; exact Hi.
      * right. exists t. split; [|split; assumption].
        apply list_elem_of_lookup. exists j.
        rewrite list_lookup_insert_ne by congruence. exact Hj.
Qed.

(** When the tasks run to their ends, every pair is written. *)
Lemma finish_reads tasks : forall s,
  goodFor role s -> poolOk regions accounts tasks -> covered' tasks s ->
  exists s',
    finish fuel partition prefix false tasks s = (Resolved, s') /\
    goodFor role s' /\ grows' s s' /\ covered' [] s'.
Proof.
  induction tasks as [|t tasks IH]; intros s Hgood Hpool Hcov; simpl.
  - exists s. split; [reflexivity|]. split; [exact Hgood|]. split; [apply grows_refl|].
    exact Hcov.
  - apply Forall_cons in Hpool as [[Hreg Hsub] Hpool].
    destruct (loop_reads (taskRegion t) (pending t) s Hgood Hsub Hreg)
      as (s1 & -> & Hgood1 & Hg1 & Hw1).
    destruct (IH s1 Hgood1 Hpool) as (s' & Hrun & Hgood' & Hg' & Hcov').
    { intros a r Ha Hr. destruct (Hcov a r Ha Hr) as [Hw|(t' & Ht' & Htr & Hpend)].
      - left. apply (proj2 Hg1); assumption.
      - apply elem_of_cons in Ht' as [->|Ht'].
        + left. subst r. apply Hw1. exact Hpend.
        + right. exists t'. repeat split; assumption. }
    exists s'. split; [exact Hrun|]. split; [exact Hgood'|].
    split; [eapply grows_trans; eassumption|exact Hcov'].
Qed.

(** Under every schedule, every pair is written when the call is over. *)
Lemma awaitAll_reads schedule : forall tasks s,
  goodFor role s -> poolOk regions accounts tasks -> covered' tasks s ->
  exists s',
    awaitAll fuel partition prefix schedule tasks s = (Resolved, s') /\
    goodFor role s' /\ grows' s s' /\ covered' [] s'.
Proof.
  induction schedule as [|i schedule IH]; intros tasks s Hgood Hpool Hcov; simpl.
  - apply finish_reads; assumption.
  - destruct (turn_reads i tasks s Hgood Hpool Hcov)
      as (tasks' & s1 & -> & Hgood1 & Hg1 & Hpool1 & Hcov1).
    destruct (IH tasks' s1 Hgood1 Hpool1 Hcov1) as (s' & Hrun & Hgood' & Hg' & Hcov').
    exists s'. split; [exact Hrun|]. split; [exact Hgood'|].
    split; [eapply grows_trans; eassumption|exact Hcov'].
Qed.

End Resolved.

Section Outcomes.
Context `{CommonTypes} `{Libraries} `{Aws}.

(** X12: when the parameters of every externally deployed account can be
    read in every enabled region, and the keys of the pairs are pairwise
    different, [loadLzaResources] is fulfilled under every schedule of its
    tasks, with the same result: the entry [<accountId>-<region>] of every
    pair holds the parameters read for the pair, and every other key of
    [resourceParameters] is bound as it was before the call. *)
Theorem loadLzaResources_resolves_with_every_entry
    (fuel : nat) (schedule : list nat) (partition prefix : string) (s : System) :
  importEnabled (this s) = true ->
  let accounts :=
    default [] (externalLandingZoneResources (this s) ≫= accountsDeployedExternally) in
  let regions := enabledRegions (this s) in
  let role := managementAccountAccessRole (this s) in
  (forall a r, a ∈ accounts -> r ∈ regions ->
     is_Some (parametersRead fuel partition prefix role a r)) ->
  distinctKeys accounts regions ->
  exists s' m',
    loadLzaResources fuel schedule partition prefix s = (Resolved, s') /\
    parametersOf s' = Some m' /\
    (forall a r, a ∈ accounts -> r ∈ regions ->
       m' !! (a +:+ "-" +:+ r) = parametersRead fuel partition prefix role a r) /\
    (forall key : string,
       (forall a r, a ∈ accounts -> r ∈ regions -> key <> a +:+ "-" +:+ r) ->
       m' !! key = default ∅ (parametersOf s) !! key).
Proof.
  intros Hi accounts regions role Hread Hkeys.
  destruct (ensureResourceParameters_ready s Hi) as (Hready & Hsame & Haccounts).
  unfold loadLzaResources. rewrite Hi. cbn [negb]. cbv zeta. rewrite Haccounts.
  set (s0 := updateExternal ensureResourceParameters s) in *.
  fold accounts.
  change (enabledRegions (this s0)) with regions.
  assert (Hi0 : importEnabled (this s0) = true) by apply Hready.
  assert (Hgood : goodFor role s0) by (split; [exact Hready|reflexivity]).
  assert (Hpool : poolOk regions accounts (map (startTask accounts s0) regions)).
  { apply Forall_forall. intros t Ht. apply list_elem_of_In, in_map_iff in Ht
      as (r & <- & Hr). apply list_elem_of_In in Hr.
    unfold startTask. rewrite Hi0. simpl. split; [exact Hr|reflexivity]. }
  assert (Hcov : covered fuel partition prefix role regions accounts
                   (map (startTask accounts s0) regions) s0).
  { intros a r Ha Hr. right. exists (startTask accounts s0 r).
    split; [apply list_elem_of_In, in_map, list_elem_of_In; exact Hr|].
    unfold startTask. rewrite Hi0. simpl. split; [reflexivity|exact Ha]. }
  destruct (awaitAll_reads fuel partition prefix role regions accounts Hread Hkeys
              schedule _ s0 Hgood Hpool Hcov) as (s' & Hrun & [Hready' _] & [Hkept _] & Hcov').
  destruct Hready' as [_ [m' Hm']].
  exists s', m'. split; [exact Hrun|]. split; [exact Hm'|]. split.
  - intros a r Ha Hr. destruct (Hcov' a r Ha Hr) as [Hw|(t & Ht & _)]; [|inversion Ht].
    unfold written, entryOf in Hw. rewrite Hm' in Hw. exact Hw.
  - intros key Hkey. destruct Hkept as (_ & _ & Hk).
    destruct Hready as [_ [m0 Hm0]].
    destruct (Hk m0 Hm0) as (m'' & Hm'' & _ & Hkeys').
    rewrite Hm' in Hm''. injection Hm'' as <-. rewrite (Hkeys' key Hkey).
    destruct (parametersOf s) as [m|] eqn:Hm.
    + rewrite (Hsame m eq_refl) in Hm0. injection Hm0 as <-. reflexivity.
    + simpl. unfold parametersOf in Hm, Hm0. unfold s0 in Hm0. simpl in Hm0.
      destruct (externalLandingZoneResources (this s)) as [e|]; [|discriminate].
      simpl in Hm, Hm0. unfold ensureResourceParameters in Hm0. rewrite Hm in Hm0.
      simpl in Hm0. injection Hm0 as <-. reflexivity.
Qed.

Lemma turn_kept fuel (regions accounts : list string) partition prefix i tasks s :
  ready s -> poolOk regions accounts tasks ->
  kept regions accounts s (snd (turn fuel partition prefix i tasks s)) /\
  ready (snd (turn fuel partition prefix i tasks s)) /\
  poolOk regions accounts (snd (fst (turn fuel partition prefix i tasks s))).
Proof.
  intros Hready Hpool. unfold turn.
  destruct (tasks !! i) as [[region [|a rest]]|] eqn:Hi; simpl;
    [split; [apply kept_refl|split; assumption]| |
     split; [apply kept_refl|split; assumption]].
  pose proof (Forall_lookup_1 _ _ _ _ Hpool Hi) as [Hreg Hsub]. simpl in Hreg, Hsub.
  assert (Ha : a ∈ accounts) by (apply Hsub; left).
  destruct (reconcileAccount_kept fuel regions accounts region partition prefix a s
              Hready Ha Hreg) as [Hk Hrd].
  destruct (reconcileAccount fuel region partition prefix a s) as [[[[]|e]|] s1];
    simpl in *; (split; [exact Hk|split; [exact Hrd|]]); try exact Hpool.
  apply Forall_insert; [exact Hpool|]. simpl.
  split; [exact Hreg|intros x Hx; apply Hsub; right; exact Hx].
Qed.

Lemma finish_kept fuel (regions accounts : list string) partition prefix tasks :
  forall stuck s,
  ready s -> poolOk regions accounts tasks ->
  kept regions accounts s (snd (finish fuel partition prefix stuck tasks s)) /\
  ready (snd (finish fuel partition prefix stuck tasks s)).
Proof.
  induction tasks as [|t tasks IH]; intros stuck s Hready Hpool; simpl.
  - split; [apply kept_refl|exact Hready].
  - apply Forall_cons in Hpool as [[Hreg Hsub] Hpool].
    destruct (loop_kept fuel regions accounts (taskRegion t) partition prefix (pending t) s
                Hready Hsub Hreg) as [Hk Hrd].
    destruct (loadRegionLzaResources_loop fuel (taskRegion t) partition prefix (pending t) s)
      as [[[[]|e]|] s1]; simpl in Hk, Hrd.
    + destruct (IH stuck s1 Hrd Hpool) as [Hk' Hrd'].
      split; [eapply kept_trans; eassumption|exact Hrd'].
    + split; assumption.
    + destruct (IH true s1 Hrd Hpool) as [Hk' Hrd'].
      split; [eapply kept_trans; eassumption|exact Hrd'].
Qed.

Lemma awaitAll_kept fuel (regions accounts : list string) partition prefix schedule :
  forall tasks s,
  ready s -> poolOk regions accounts tasks ->
  kept regions accounts s (snd (awaitAll fuel partition prefix schedule tasks s)) /\
  ready (snd (awaitAll fuel partition prefix schedule tasks s)).
Proof.
  induction schedule as [|i schedule IH]; intros tasks s Hready Hpool; simpl.
  - apply finish_kept; assumption.
  - destruct (turn_kept fuel regions accounts partition prefix i tasks s Hready Hpool)
      as (Hk & Hrd & Hpool').
    destruct (turn fuel partition prefix i tasks s) as [[[e|] tasks'] s1];
      simpl in Hk, Hrd, Hpool'.
    + split; assumption.
    + destruct (IH tasks' s1 Hrd Hpool') as [Hk' Hrd'].
      split; [eapply kept_trans; eassumption|exact Hrd'].
Qed.

(** X13: whatever the schedule and whatever the outcome, fulfilled,
    rejected or never settled, [loadLzaResources] removes no entry of
    [resourceParameters] and writes none under a key that is not
    [<accountId>-<region>] for an externally deployed account and an enabled
    region; the role and the import setting stay as they are. *)
Theorem loadLzaResources_touches_pair_entries_only
    (fuel : nat) (schedule : list nat) (partition prefix : string) (s : System) :
  importEnabled (this s) = true ->
  let s' := snd (loadLzaResources fuel schedule partition prefix s) in
  managementAccountAccessRole (this s') = managementAccountAccessRole (this s) /\
  importEnabled (this s') = true /\
  exists m',
    parametersOf s' = Some m' /\
    dom (default ∅ (parametersOf s)) ⊆ dom m' /\
    forall key : string,
      (forall a r,
         a ∈ default [] (externalLandingZoneResources (this s) ≫= accountsDeployedExternally) ->
         r ∈ enabledRegions (this s) -> key <> a +:+ "-" +:+ r) ->
      m' !! key = default ∅ (parametersOf s) !! key.
Proof.
  intros Hi. cbv zeta.
  destruct (ensureResourceParameters_ready s Hi) as (Hready & Hsame & Haccounts).
  unfold loadLzaResources. rewrite Hi. cbn [negb]. cbv zeta. rewrite Haccounts.
  set (s0 := updateExternal ensureResourceParameters s) in *.
  set (accounts := default [] (externalLandingZoneResources (this s)
                                 ≫= accountsDeployedExternally)) in *.
  assert (Hi0 : importEnabled (this s0) = true) by apply Hready.
  assert (Hpool : poolOk (enabledRegions (this s)) accounts
                    (map (startTask accounts s0) (enabledRegions (this s0)))).
  { apply Forall_forall. intros t Ht. apply list_elem_of_In, in_map_iff in Ht
      as (r & <- & Hr). apply list_elem_of_In in Hr.
    unfold startTask. rewrite Hi0. simpl. split; [exact Hr|reflexivity]. }
  destruct (awaitAll_kept fuel (enabledRegions (this s)) accounts partition prefix
              schedule _ s0 Hready Hpool) as [(Hrole & Himp & Hk) [Hi' [m' Hm']]].
  split; [exact Hrole|]. split; [exact Hi'|].
  exists m'. split; [exact Hm'|].
  destruct Hready as [_ [m0 Hm0]].
  destruct (Hk m0 Hm0) as (m'' & Hm'' & Hdom & Hkeys).
  rewrite Hm' in Hm''. injection Hm'' as <-.
  assert (Hm : m0 = default ∅ (parametersOf s)).
  { destruct (parametersOf s) as [m|] eqn:Hm.
    - rewrite (Hsame m eq_refl) in Hm0. injection Hm0 as <-. reflexivity.
    - simpl. unfold parametersOf in Hm, Hm0. unfold s0 in Hm0. simpl in Hm0.
      destruct (externalLandingZoneResources (this s)) as [e|]; [|discriminate].
      simpl in Hm, Hm0. unfold ensureResourceParameters in Hm0. rewrite Hm in Hm0.
      simpl in Hm0. injection Hm0 as <-. reflexivity. }
  rewrite <- Hm. split; [exact Hdom|exact Hkeys].
Qed.

End Outcomes.

(** ** The names of the topics *)

Lemma firstError_indexed {A} (check : string -> A -> option exn) (l : list A) : forall n,
  firstError (fun '(i, x) => check i x) (indexed n l) = None ->
  Forall (fun x => exists i, check i x = None) l.
Proof.
  induction l as [|x l IH]; intros n Hl; [constructor|].
  simpl in Hl. destruct (check (pretty n) x) eqn:Hx; [discriminate|].
  constructor; [eauto|]. eapply IH. exact Hl.
Qed.

Lemma validate_optional path item v :
  validate path (TOptional item) v = None -> v <> VUndefined -> validate path item v = None.
Proof. destruct v; simpl; auto. intros _ Hne. contradiction. Qed.

Lemma flatMap_names items :
  Forall (fun x => exists p, validate p GlobalConfigTypes.snsTopicConfig x = None) items ->
  flatMap (fun item => get item "name") items = Ok (map (fun item => field item "name") items) /\
  Forall (fun item => exists n, field item "name" = VString n /\ n <> "") items.
Proof.
  induction 1 as [|item items [p Hitem] _ [IH1 IH2]]; [split; [reflexivity|constructor]|].
  destruct (validate_interface _ _ _ "name" TNonEmptyString Hitem (or_introl eq_refl))
    as [[fields ->] Hname].
  apply validate_nonEmptyString in Hname as (n & Hn & Hne).
  split.
  - cbn [flatMap map]. unfold get at 1. rewrite IH1, Hn. reflexivity.
  - constructor; [eauto|exact IH2].
Qed.

Lemma lookupProp_absent k props : k ∉ map fst props -> lookupProp k props = VUndefined.
Proof.
  induction props as [|[k0 v0] props IH]; simpl; [reflexivity|].
  intros Hk. destruct (String.eqb_spec k k0) as [->|_]; [exfalso; apply Hk; left|].
  apply IH. intros Hin. apply Hk. right. exact Hin.
Qed.

Section Topics.
Context `{CommonTypes} `{Libraries}.

(** The section [snsTopics] of a document that conforms. *)
Lemma conforms_snsTopics D :
  conforms D ->
  validate ["snsTopics"] (TOptional GlobalConfigTypes.snsConfig) (field D "snsTopics") = None.
Proof.
  intros HD. unfold conforms, GlobalConfigTypes.globalConfig in HD.
  apply (validate_interface _ _ _ "snsTopics" (TOptional GlobalConfigTypes.snsConfig) HD).
  unfold GlobalConfigTypes.globalConfigProps. simpl. auto 20.
Qed.

Lemma assignedFrom_snsTopics D :
  field (assignedFrom D) "snsTopics" = field D "snsTopics".
Proof.
  unfold assignedFrom, field at 1, Object_assign. rewrite assign_keys_lookup.
  destruct (bool_decide _) eqn:Hin; [reflexivity|].
  apply bool_decide_eq_false_1 in Hin.
  change (lookupProp "snsTopics" GlobalConfig.fieldDefaults) with VUndefined.
  destruct D; try reflexivity. simpl in *. symmetry. apply lookupProp_absent. exact Hin.
Qed.

(** X4: on a configuration that [fromObject] has made of a document with
    topics, [getSnsTopicNames] returns the names of the topics of the
    document, in order; each of them is a non-empty string. *)
Theorem getSnsTopicNames_lists_topic_names D cfg items :
  GlobalConfig.fromObject D = Ok cfg ->
  field (field D "snsTopics") "topics" = VArray items ->
  getSnsTopicNames cfg = Ok (VArray (map (fun item => field item "name") items)) /\
  Forall (fun item => exists n, field item "name" = VString n /\ n <> "") items.
Proof.
  intros Hrun Htopics. pose proof (fromObject_ok _ _ Hrun) as HD.
  rewrite (fromObject_conforming D HD) in Hrun. injection Hrun as <-.
  pose proof (conforms_snsTopics D HD) as Hsns.
  assert (Hdef : field D "snsTopics" <> VUndefined)
    by (intros Hu; rewrite Hu in Htopics; discriminate).
  apply validate_optional in Hsns; [|exact Hdef].
  destruct (validate_interface _ _ _ "topics"
              (TOptional (TArray GlobalConfigTypes.snsTopicConfig)) Hsns
              (or_intror (or_introl eq_refl))) as [[fields Hfields] Hitems].
  rewrite Htopics in Hitems. simpl validate in Hitems.
  apply (firstError_indexed
           (fun i x => validate ((["snsTopics"] ++ ["topics"]) ++ [i])
                         GlobalConfigTypes.snsTopicConfig x)) in Hitems.
  assert (Hall : Forall (fun x => exists p,
                           validate p GlobalConfigTypes.snsTopicConfig x = None) items).
  { eapply Forall_impl; [exact Hitems|]. intros x [i Hi]. eauto. }
  destruct (flatMap_names items Hall) as [Hflat Hnames].
  split; [|exact Hnames].
  unfold getSnsTopicNames. rewrite assignedFrom_snsTopics, Hfields.
  rewrite Hfields in Htopics. rewrite Htopics, Hflat. reflexivity.
Qed.

(** X5: the schema lets a document give [snsTopics] without [topics]; on
    the configuration that [fromObject] makes of such a document,
    [getSnsTopicNames] throws a [TypeError]. *)
Theorem getSnsTopicNames_throws_without_topics D cfg :
  GlobalConfig.fromObject D = Ok cfg ->
  field D "snsTopics" <> VUndefined ->
  field (field D "snsTopics") "topics" = VUndefined ->
  getSnsTopicNames cfg
    = Throw (TypeError "Cannot read properties of undefined (reading 'flatMap')").
Proof.
  intros Hrun Hdef Htopics. pose proof (fromObject_ok _ _ Hrun) as HD.
  rewrite (fromObject_conforming D HD) in Hrun. injection Hrun as <-.
  pose proof (conforms_snsTopics D HD) as Hsns.
  apply validate_optional in Hsns; [|exact Hdef].
  destruct (validate_interface _ _ _ "topics"
              (TOptional (TArray GlobalConfigTypes.snsTopicConfig)) Hsns
              (or_intror (or_introl eq_refl))) as [[fields Hfields] _].
  unfold getSnsTopicNames. rewrite assignedFrom_snsTopics, Hfields.
  rewrite Hfields in Htopics. rewrite Htopics. reflexivity.
Qed.

(** X6: a configuration that [loadFromString] returns has no topics,
    whatever the document says: [getSnsTopicNames] returns the empty
    list. *)
Theorem getSnsTopicNames_empty_after_loadFromString content w cfg w' :
  GlobalConfig.loadFromString content w = (Ok cfg, w') ->
  getSnsTopicNames cfg = Ok (VArray []).
Proof.
  intros Hrun. destruct (loadFromString_ok _ _ _ _ Hrun) as (D & _ & _ & -> & _).
  reflexivity.
Qed.

End Topics.

(** ** [Object.assign] of an object over what it was made from *)

Lemma setProp_keys k v t :
  map fst (setProp k v t) =
    if bool_decide (k ∈ map fst t) then map fst t else map fst t ++ [k].
Proof.
  induction t as [|[k0 v0] t IH]; cbn [setProp map fst].
  - rewrite bool_decide_eq_false_2 by apply not_elem_of_nil. reflexivity.
  - destruct (String.eqb_spec k k0) as [->|Hne]; cbn [map fst].
    + rewrite bool_decide_eq_true_2 by left. reflexivity.
    + rewrite IH. destruct (bool_decide (k ∈ map fst t)) eqn:Hin.
      * apply bool_decide_eq_true_1 in Hin.
        rewrite bool_decide_eq_true_2 by (right; exact Hin). reflexivity.
      * apply bool_decide_eq_false_1 in Hin.
        rewrite bool_decide_eq_false_2; [reflexivity|].
        intros Hk. apply elem_of_cons in Hk as [Heq|Hk]; [congruence|contradiction].
Qed.

Lemma setProp_app_fresh k v l1 l2 :
  k ∉ map fst l1 -> setProp k v (l1 ++ l2) = l1 ++ setProp k v l2.
Proof.
  induction l1 as [|[k0 v0] l1 IH]; intros Hk; simpl; [reflexivity|].
  destruct (String.eqb_spec k k0) as [->|Hne]; [exfalso; apply Hk; left|].
  f_equal. apply IH. intros Hin. apply Hk. right. exact Hin.
Qed.

Lemma lookupProp_app_fresh k l1 l2 :
  k ∉ map fst l1 -> lookupProp k (l1 ++ l2) = lookupProp k l2.
Proof.
  induction l1 as [|[k0 v0] l1 IH]; intros Hk; simpl; [reflexivity|].
  destruct (String.eqb_spec k k0) as [->|Hne]; [exfalso; apply Hk; left|].
  apply IH. intros Hin. apply Hk. right. exact Hin.
Qed.

(** Assigning the properties of [P] to a target whose keys are the first
    keys of [P] gives [P]. *)
Lemma assign_self_from P : forall rest done T,
  P = done ++ rest -> NoDup (map fst P) -> map fst T `prefix_of` map fst rest ->
  fold_left (fun t k => setProp k (lookupProp k P) t) (map fst rest) (done ++ T) = P.
Proof.
  induction rest as [|[k v] rest IH]; intros done T HP Hnd Hpre; simpl.
  - destruct T as [|x T]; [symmetry; exact HP|].
    destruct Hpre as [l Hl]. discriminate.
  - assert (Hfresh : k ∉ map fst done).
    { rewrite HP, map_app in Hnd. apply NoDup_app in Hnd as (_ & Hdis & _).
      intros Hin. apply (Hdis k Hin). left. }
    assert (Hv : lookupProp k P = v).
    { rewrite HP, lookupProp_app_fresh by exact Hfresh. simpl.
      rewrite String.eqb_refl. reflexivity. }
    rewrite Hv, setProp_app_fresh by exact Hfresh.
    assert (Hstep : exists T', setProp k v T = (k, v) :: T' /\
                               map fst T' `prefix_of` map fst rest).
    { destruct T as [|[k0 v0] T]; simpl.
      - exists []. split; [reflexivity|]. apply prefix_nil.
      - simpl in Hpre. destruct Hpre as [l Hl]. simpl in Hl. injection Hl as <- Hl.
        rewrite String.eqb_refl. exists T. split; [reflexivity|]. exists l. exact Hl. }
    destruct Hstep as (T' & -> & Hpre').
    replace (done ++ (k, v) :: T') with ((done ++ [(k, v)]) ++ T')
      by (rewrite <- app_assoc; reflexivity).
    apply IH; [rewrite <- app_assoc; exact HP|exact Hnd|exact Hpre'].
Qed.

Lemma assign_keys_shape source (keys : list string) : forall target,
  NoDup (map fst target) ->
  NoDup (map fst (fold_left (fun t k => setProp k (field source k) t) keys target)) /\
  map fst target `prefix_of`
    map fst (fold_left (fun t k => setProp k (field source k) t) keys target).
Proof.
  induction keys as [|k keys IH]; intros target Hnd; simpl; [split; [exact Hnd|reflexivity]|].
  assert (Hstep : NoDup (map fst (setProp k (field source k) target)) /\
                  map fst target `prefix_of` map fst (setProp k (field source k) target)).
  { rewrite setProp_keys. destruct (bool_decide (k ∈ map fst target)) eqn:Hin.
    - split; [exact Hnd|reflexivity].
    - apply bool_decide_eq_false_1 in Hin. split; [|apply prefix_app_r; reflexivity].
      apply NoDup_app. split; [exact Hnd|]. split; [|apply NoDup_singleton].
      intros x Hx Hk. apply list_elem_of_singleton in Hk. subst. contradiction. }
  destruct Hstep as [Hnd' Hpre']. destruct (IH _ Hnd') as [Hnd'' Hpre''].
  split; [exact Hnd''|]. etransitivity; eassumption.
Qed.

Lemma fieldDefaults_NoDup : NoDup (map fst GlobalConfig.fieldDefaults).
Proof. apply (bool_decide_unpack _). vm_compute. reflexivity. Qed.

(** The object that the constructor builds by [Object.assign] is not
    changed when it is assigned to the defaults once more. *)
Lemma assignedFrom_again D : assignedFrom (assignedFrom D) = assignedFrom D.
Proof.
  unfold assignedFrom. f_equal.
  set (P := Object_assign GlobalConfig.fieldDefaults D).
  unfold Object_assign. cbn [ownProps field].
  destruct (assign_keys_shape D (map fst (ownProps D)) GlobalConfig.fieldDefaults
              fieldDefaults_NoDup) as [Hnd Hpre].
  apply (assign_self_from P P [] GlobalConfig.fieldDefaults); [reflexivity|exact Hnd|exact Hpre].
Qed.

Lemma firstError_all {A} (check : A -> option exn) l :
  (forall x, In x l -> check x = None) -> firstError check l = None.
Proof.
  induction l as [|x l IH]; intros Hl; simpl; [reflexivity|].
  rewrite (Hl x (or_introl eq_refl)). apply IH. intros y Hy. apply Hl. right. exact Hy.
Qed.

(** Whether a value passes a schema node does not depend on the path at
    which it is checked. *)
Lemma validate_path : forall s p q v, validate p s v = None -> validate q s v = None.
Proof.
  fix IH 1. intros s p q v. destruct s as [| | | |name literals|props|item|item].
  - destruct v; simpl; intros Hv; try discriminate; reflexivity.
  - destruct v; simpl; try discriminate. destruct (String.eqb s ""); [discriminate|reflexivity].
  - destruct v; simpl; intros Hv; try discriminate; reflexivity.
  - destruct v; simpl; intros Hv; try discriminate; reflexivity.
  - destruct v; simpl; try discriminate.
    destruct (existsb (String.eqb s) literals); [reflexivity|discriminate].
  - destruct v as [| | | | |items|fields]; simpl; try discriminate.
    revert props. fix IHp 1. intros [|[k sk] props]; simpl; [reflexivity|].
    destruct (validate (p ++ [k]) sk (lookupProp k fields)) eqn:Hk; [discriminate|].
    rewrite (IH sk _ (q ++ [k]) _ Hk). apply IHp.
  - destruct v as [| | | | |items|fields]; simpl; try discriminate.
    generalize 0%nat. induction items as [|x items IHi]; intros n; simpl; [reflexivity|].
    destruct (validate (p ++ [pretty n]) item x) eqn:Hx; [discriminate|].
    rewrite (IH item _ (q ++ [pretty n]) _ Hx). apply IHi.
  - destruct v; simpl; try reflexivity; apply IH.
Qed.

Section Defaults.
Context `{CommonTypes} `{Libraries}.

(** The configuration that [fromObject] makes of a document that
    conforms is a document that conforms: where the document has a
    property the schema has checked it, and where it has none the default
    of the class passes. *)
Lemma assignedFrom_conforms D : conforms D -> conforms (assignedFrom D).
Proof.
  intros HD. unfold conforms, GlobalConfigTypes.globalConfig in *.
  assert (Hfield : forall k sk, In (k, sk) GlobalConfigTypes.globalConfigProps ->
                                validate ([] ++ [k]) sk (field D k) = None).
  { intros k sk Hin. exact (proj2 (validate_interface _ _ _ _ _ HD Hin)). }
  unfold assignedFrom. cbn [validate]. apply firstError_all. intros [k sk] Hin.
  unfold field, Object_assign. rewrite assign_keys_lookup.
  destruct (bool_decide (k ∈ map fst (ownProps D))) eqn:Hown; [apply Hfield; exact Hin|].
  apply bool_decide_eq_false_1 in Hown.
  assert (Habsent : field D k = VUndefined).
  { destruct D; try reflexivity. apply lookupProp_absent. exact Hown. }
  pose proof (Hfield k sk Hin) as Hk. rewrite Habsent in Hk.
  unfold GlobalConfigTypes.globalConfigProps in Hin. simpl in Hin.
  repeat (destruct Hin as [Heq|Hin];
          [injection Heq as <- <-; first [reflexivity|discriminate Hk]|]).
  contradiction.
Qed.

(** X2: the configuration that [fromObject] returns goes through
    [fromObject] once more and comes out as it is. *)
Theorem fromObject_round_trip D cfg :
  GlobalConfig.fromObject D = Ok cfg -> GlobalConfig.fromObject cfg = Ok cfg.
Proof.
  intros Hrun. pose proof (fromObject_ok _ _ Hrun) as HD.
  rewrite (fromObject_conforming D HD) in Hrun. injection Hrun as <-.
  rewrite (fromObject_conforming _ (assignedFrom_conforms D HD)).
  rewrite assignedFrom_again. reflexivity.
Qed.

Lemma builtFrom_conforms D :
  conforms D ->
  validate [] t_region (field D "homeRegion") = None ->
  conforms (builtFrom D).
Proof.
  intros HD Hregion.
  destruct (conforms_required D HD)
    as (_ & (r & Hr & Hne) & (role & Hrole & Hne') & (ct & Hct) & (b & Hb) & _).
  unfold conforms, GlobalConfigTypes.globalConfig in *.
  unfold builtFrom. cbn [validate]. apply firstError_all. intros [k sk] Hin.
  unfold GlobalConfigTypes.globalConfigProps in Hin. simpl in Hin.
  repeat (destruct Hin as [Heq|Hin]; [injection Heq as <- <-|]); try contradiction;
    try reflexivity.
  - cbn. rewrite Hr. simpl. destruct (String.eqb_spec r ""); [contradiction|reflexivity].
  - cbn. rewrite (validate_path _ _ ["enabledRegions"; pretty 0%nat] _ Hregion).
    reflexivity.
  - cbn. rewrite Hrole. simpl. destruct (String.eqb_spec role ""); [contradiction|reflexivity].
  - change (field (VObject _) "controlTower")
      with (spreadWith (field D "controlTower") "controls" (VArray [])).
    unfold spreadWith, GlobalConfigTypes.controlTowerConfig. cbn [validate].
    apply firstError_all. intros [k sk] [Heq|[Heq|[]]]; injection Heq as <- <-.
    + unfold field at 1. rewrite lookupProp_setProp.
      change (String.eqb "enable" "controls") with false. cbv iota.
      rewrite Object_assign_defined by (rewrite Hb; discriminate). rewrite Hb. reflexivity.
    + unfold field at 1. rewrite lookupProp_setProp. reflexivity.
Qed.

(** X3: [loadFromString] makes the list of the enabled regions of the
    home region of the document, which the schema has checked as a
    non-empty string only: the configuration that it returns conforms to
    the root schema if and only if the home region is a region. *)
Theorem loadFromString_conforms_iff_home_is_region content w cfg w' :
  GlobalConfig.loadFromString content w = (Ok cfg, w') ->
  (conforms cfg <-> validate [] t_region (field cfg "homeRegion") = None).
Proof.
  intros Hrun. destruct (loadFromString_ok _ _ _ _ Hrun) as (D & _ & HD & -> & _).
  change (field (builtFrom D) "homeRegion") with (field D "homeRegion"). split.
  - intros Hcfg. unfold conforms, GlobalConfigTypes.globalConfig in Hcfg.
    destruct (validate_interface _ _ _ "enabledRegions" (TArray t_region) Hcfg)
      as [_ Hregions]; [unfold GlobalConfigTypes.globalConfigProps; simpl; auto|].
    change (field (builtFrom D) "enabledRegions") with (VArray [field D "homeRegion"])
      in Hregions. cbn in Hregions.
    destruct (validate _ t_region (field D "homeRegion")) eqn:Hv in Hregions;
      [discriminate|].
    eapply validate_path. exact Hv.
  - apply builtFrom_conforms. exact HD.
Qed.

End Defaults.

(** ** The credentials and the saved resource list *)

Section Credentials.
Context `{Libraries} `{Aws}.

(** X22: [getCrossAccountCredentials] does not touch the instance. When it
    returns, it returns the answer of the security token service and has
    changed nothing. When it is rejected, the exception is a plain
    [Error]: it has no [code], its name is ["Error"], and one line has gone
    to the console; a failure of the service comes out with its message
    alone. *)
Theorem getCrossAccountCredentials_rejects_with_plain_error
    accountId region partition role s :
  let request := {| RoleArn := "arn:" +:+ partition +:+ ":iam::" +:+ accountId +:+ ":role/"
                                 +:+ role;
                    RoleSessionName := "acceleratorResourceMapping";
                    DurationSeconds := 900 |} in
  let run := getCrossAccountCredentials accountId region partition role s in
  this (snd run) = this s /\
  (forall output, fst run = Ok output ->
     sts_send region request = Ok (Some output) /\ snd run = s) /\
  (forall e, fst run = Throw e ->
     code e = None /\ name e = "Error" /\
     exists line, console (world (snd run)) = console (world s) ++ [line]) /\
  (forall e, sts_send region request = Throw e -> fst run = Throw (Error (message e))).
Proof.
  cbv zeta. unfold getCrossAccountCredentials, try_catch, bind, lift, throttlingBackOff.
  destruct (sts_send region _) as [[output|]|e]; simpl.
  - split; [reflexivity|]. split; [intros o Ho; injection Ho as <-; split; reflexivity|].
    split; [intros e He; discriminate|intros e He; discriminate].
  - split; [reflexivity|]. split; [intros o Ho; discriminate|].
    split; [|intros e He; discriminate].
    intros e He. injection He as <-. repeat split. eauto.
  - split; [reflexivity|]. split; [intros o Ho; discriminate|]. split.
    + intros e' He. injection He as <-. repeat split. eauto.
    + intros e' He. injection He as <-. reflexivity.
Qed.

End Credentials.

Section SavedList.
Context `{Libraries} `{Aws} `{S3Writer}.

(** X7: [saveAseaResourceMapping] and [readJsonFromExternalS3] refuse to
    run under the same condition, without the import or without a bucket,
    and send nothing then. Otherwise [saveAseaResourceMapping] sends one
    [putObject] with the resources as JSON, through a client of the home
    region, and its outcome is the answer of the bucket; and
    [readJsonFromExternalS3] reads the resource list where it was put:
    it asks for the bucket and the key of the [putObject], and what it
    returns is made of the answer that a client of the home region gets
    for this bucket and key. *)
Theorem saveAseaResourceMapping_writes_what_is_read resources s log :
  let save := saveAseaResourceMapping resources (this s) log in
  let read := readJsonFromExternalS3 "aseaResources.json" None s in
  (importEnabled (this s) && truthy (configuredBucket (this s)) = false ->
   snd save = log /\ (exists m, fst save = Throw (Error m)) /\
   s3Requests (world (snd read)) = s3Requests (world s) /\
   (exists m, fst read = Throw (Error m))) /\
  (importEnabled (this s) && truthy (configuredBucket (this s)) = true ->
   exists put,
     snd save = log ++ [({| s3Region := homeRegion (this s) |}, put)] /\
     fst save = s3_putObject {| s3Region := homeRegion (this s) |} put /\
     putBody put = JSON_stringify resources /\
     ServerSideEncryption put = "AES256" /\
     s3Requests (world (snd read)) =
       s3Requests (world s) ++ [ {| Bucket := putBucket put; Key := putKey put |} ] /\
     fst read =
       match s3_getObject {| s3Region := homeRegion (this s) |}
               {| Bucket := putBucket put; Key := putKey put |} with
       | Throw e => if bool_decide (code e = Some "NoSuchKey") then Ok None else Throw e
       | Ok response =>
           match Body response with
           | None => Ok None
           | Some body =>
               match JSON_parse body with
               | Ok v => Ok (Some v)
               | Throw e =>
                   if bool_decide (code e = Some "NoSuchKey") then Ok None else Throw e
               end
           end
       end).
Proof.
  cbv zeta. split.
  - unfold saveAseaResourceMapping, readJsonFromExternalS3.
    rewrite bind_gets. unfold importEnabled, configuredBucket.
    destruct (externalLandingZoneResources (this s)) as [e|]; simpl;
      [|intros _; repeat split; eauto].
    intros ->. repeat split; eauto.
  - intros Hg.
    assert (Hi : importEnabled (this s) = true)
      by (apply andb_true_iff in Hg as [Hi _]; exact Hi).
    assert (Hb : exists bucket, configuredBucket (this s) = Some bucket /\ bucket <> "").
    { apply andb_true_iff in Hg as [_ Hb].
      destruct (configuredBucket (this s)) as [bucket|]; [|discriminate].
      exists bucket. split; [reflexivity|]. intros ->. discriminate. }
    destruct Hb as (bucket & Hb & Hne).
    destruct (configured_bucket _ _ Hi Hb Hne) as (e & He & Hguard & Hbucket).
    exists {| putBucket := bucket; putKey := "aseaResources.json";
              putBody := JSON_stringify resources; ServerSideEncryption := "AES256" |}.
    unfold saveAseaResourceMapping. rewrite He, Hguard, Hbucket. simpl.
    split; [reflexivity|]. split; [reflexivity|]. split; [reflexivity|].
    split; [reflexivity|].
    change (readJsonFromExternalS3 "aseaResources.json" None s)
      with (readJsonFromExternalS3 "aseaResources.json"
              (Some {| s3Region := homeRegion (this s) |}) s).
    destruct (readJsonFromExternalS3 _ _ s) as [r5 s5] eqn:E5.
    apply (readJsonFromExternalS3_asks _ _ _ bucket) in E5
      as ((_ & _ & _ & _ & Hreq) & Hr5); [|assumption..].
    split; [exact Hreq|exact Hr5].
Qed.

End SavedList.

(** ** The further statements on the sample deployment *)

Lemma flaky_refused :
  @refusedAfter Cases.flakyAws Sample.ssmClient "/ASEA/iam/" None 1
    (AWSError "ThrottlingException" "Rate exceeded").
Proof.
  eapply refused_later; [reflexivity|reflexivity|]. apply refused_now. reflexivity.
Qed.

Lemma getParametersByPath_rejects_on_failed_page_witness :
  @refusedAfter Cases.flakyAws Sample.ssmClient "/ASEA/iam/" None 1
    (AWSError "ThrottlingException" "Rate exceeded") /\
  (1 < 5)%nat /\
  @getParametersByPath Cases.flakyAws 5 "/ASEA/iam/" Sample.ssmClient
    = Some (Throw (AWSError "ThrottlingException" "Rate exceeded")).
Proof.
  assert (Hfuel : (1 < 5)%nat) by lia.
  split; [exact flaky_refused|]. split; [exact Hfuel|].
  exact (@getParametersByPath_rejects_on_failed_page Cases.flakyAws Sample.ssmClient
           "/ASEA/iam/" 1 _ 5 flaky_refused Hfuel).
Defined.

Lemma endless_tokens :
  forall token, exists page,
    @ssm_send Cases.endlessAws Sample.ssmClient
        {| Path := "/ASEA/iam/"; MaxResults := 10; NextToken := token; Recursive := true |}
      = Ok page /\
    truthy (outNextToken page) = true.
Proof. intros token. eexists. split; reflexivity. Qed.

Lemma getParametersByPath_unsettled_while_tokens_come_witness :
  (forall token, exists page,
     @ssm_send Cases.endlessAws Sample.ssmClient
         {| Path := "/ASEA/iam/"; MaxResults := 10; NextToken := token; Recursive := true |}
       = Ok page /\
     truthy (outNextToken page) = true) /\
  @getParametersByPath Cases.endlessAws 1000 "/ASEA/iam/" Sample.ssmClient = None.
Proof.
  split; [exact endless_tokens|].
  exact (@getParametersByPath_unsettled_while_tokens_come Cases.endlessAws Sample.ssmClient
           "/ASEA/iam/" endless_tokens 1000%nat).
Defined.

(** The manifest with two regions: the run of [setTemplateMap] returns. *)
Lemma twoRegionRun_returns : exists stacks, twoRegionRun = (Ok stacks, snd twoRegionRun).
Proof.
  destruct twoRegionRun as [r s'] eqn:Hrun.
  assert (Hr : fst twoRegionRun = r) by (rewrite Hrun; reflexivity).
  vm_compute in Hr. subst r. eexists. reflexivity.
Qed.

Lemma twoRegionManifest_writable :
  Forall writable (manifestStacks Sample.twoRegionManifest).
Proof. repeat constructor; discriminate. Qed.

Lemma setTemplateMap_marks_only_nested_stacks_witness :
  exists stacks d stack,
    twoRegionRun = (Ok stacks, snd twoRegionRun) /\
    stacks !! 1%nat = Some d /\
    manifestStacks Sample.twoRegionManifest !! 1%nat = Some stack /\
    AseaStackInfo.nestedStack d = true /\
    (truthy (parentStack stack) = true \/ markedBy Sample.twoRegionManifest 1).
Proof.
  destruct twoRegionRun_returns as [stacks Hrun].
  assert (Hfst : fst twoRegionRun = Ok stacks) by (rewrite Hrun; reflexivity).
  vm_compute in Hfst. injection Hfst as <-.
  eexists _, _, _. split; [exact Hrun|].
  split; [reflexivity|]. split; [reflexivity|]. split; [reflexivity|].
  exact (@setTemplateMap_marks_only_nested_stacks Sample.libraries _ _ _ _ Hrun
           1%nat _ _ eq_refl eq_refl eq_refl).
Defined.

Lemma setTemplateMap_copies_manifest_witness :
  Forall writable (manifestStacks Sample.twoRegionManifest) /\
  exists stacks,
    twoRegionRun = (Ok stacks, snd twoRegionRun) /\
    Forall2
      (fun d entry =>
         AseaStackInfo.accountId d = accountId (fst entry) /\
         AseaStackInfo.accountKey d = accountKey (fst entry) /\
         AseaStackInfo.region d = region (snd entry) /\
         AseaStackInfo.stackName d = stackName (snd entry) /\
         AseaStackInfo.resources d = resourceMap (snd entry) /\
         AseaStackInfo.phase d = derivePhase (stackName (snd entry)) /\
         basename (AseaStackInfo.templatePath d) = stackName (snd entry) +:+ ".json")
      stacks (manifestEntries Sample.twoRegionManifest).
Proof.
  split; [exact twoRegionManifest_writable|].
  destruct twoRegionRun_returns as [stacks Hrun].
  exists stacks. split; [exact Hrun|].
  exact (@setTemplateMap_copies_manifest Sample.libraries _ _ _ _
           twoRegionManifest_writable Hrun).
Defined.

Lemma setTemplateMap_writes_each_template_witness :
  Forall writable (manifestStacks Sample.twoRegionManifest) /\
  exists stacks,
    twoRegionRun = (Ok stacks, snd twoRegionRun) /\
    NoDup (dirname ∘ AseaStackInfo.templatePath <$> stacks) /\
    forall (i : nat) d stack,
      stacks !! i = Some d -> manifestStacks Sample.twoRegionManifest !! i = Some stack ->
      files (world reset) !! dirname (AseaStackInfo.templatePath d) = None /\
      readFileSync (AseaStackInfo.templatePath d) (world (snd twoRegionRun))
        = (Ok (@JSON_stringify Sample.libraries (template stack)), world (snd twoRegionRun)).
Proof.
  split; [exact twoRegionManifest_writable|].
  destruct twoRegionRun_returns as [stacks Hrun].
  exists stacks. split; [exact Hrun|].
  exact (@setTemplateMap_writes_each_template Sample.libraries _ _ _ _
           twoRegionManifest_writable Hrun).
Defined.

Lemma setTemplateMap_only_adds_directories_witness :
  Forall writable (manifestStacks (default [] (Some Sample.twoRegionManifest))) /\
  onlyAddsFiles reset (snd twoRegionRun).
Proof.
  split; [exact twoRegionManifest_writable|].
  exact (@setTemplateMap_only_adds_directories Sample.libraries
           (Some Sample.twoRegionManifest) reset twoRegionManifest_writable).
Defined.

(** The first run of [loadExternalMapping] on the sample returns. *)
Lemma first_run_returns :
  @loadExternalMapping Sample.libraries Sample.aws false Sample.start = (Ok tt, afterFirstRun).
Proof.
  assert (Hfst : fst (@loadExternalMapping Sample.libraries Sample.aws false Sample.start)
                 = Ok tt) by (vm_compute; reflexivity).
  rewrite <- Hfst. apply surjective_pairing.
Qed.

Lemma manifest_writable : Forall writable (manifestStacks Sample.manifest).
Proof. repeat constructor; discriminate. Qed.

Lemma loadExternalMapping_sets_three_fields_witness :
  importEnabled (this Sample.start) = true /\
  configuredBucket (this Sample.start) = Some Sample.bucket /\
  Sample.bucket <> "" /\
  @s3_getObject Sample.aws {| s3Region := homeRegion (this Sample.start) |}
      {| Bucket := Sample.bucket; Key := "mapping.json" |}
    = Ok {| Body := Some Sample.manifestText |} /\
  @JSON_parse_mapping Sample.libraries Sample.manifestText = Ok Sample.manifest /\
  Forall writable (manifestStacks Sample.manifest) /\
  @loadExternalMapping Sample.libraries Sample.aws false Sample.start = (Ok tt, afterFirstRun) /\
  (exists stacks s2 s3,
     @setTemplateMap Sample.libraries (Some Sample.manifest) s2 = (Ok stacks, s3) /\
     this afterFirstRun =
       this (updateExternal
               (setMapping (accountId <$> Sample.manifest) stacks (VArray [])) Sample.start)) /\
  s3Requests (world afterFirstRun) =
    s3Requests (world Sample.start) ++
      [ {| Bucket := Sample.bucket; Key := "mapping.json" |};
        {| Bucket := Sample.bucket; Key := "aseaResources.json" |} ].
Proof.
  assert (Hne : Sample.bucket <> "") by discriminate.
  split; [reflexivity|]. split; [reflexivity|]. split; [exact Hne|].
  split; [reflexivity|]. split; [reflexivity|]. split; [exact manifest_writable|].
  split; [exact first_run_returns|].
  exact (@loadExternalMapping_sets_three_fields Sample.libraries Sample.aws false
           Sample.start Sample.bucket afterFirstRun Sample.manifestText Sample.manifest
           eq_refl eq_refl Hne eq_refl eq_refl manifest_writable first_run_returns).
Defined.

Lemma loadExternalMapping_writes_cache_witness :
  importEnabled (this Sample.start) = true /\
  configuredBucket (this Sample.start) = Some Sample.bucket /\
  Sample.bucket <> "" /\
  @s3_getObject Sample.aws {| s3Region := homeRegion (this Sample.start) |}
      {| Bucket := Sample.bucket; Key := "mapping.json" |}
    = Ok {| Body := Some Sample.manifestText |} /\
  @JSON_parse_mapping Sample.libraries Sample.manifestText = Ok Sample.manifest /\
  Forall writable (manifestStacks Sample.manifest) /\
  @loadExternalMapping Sample.libraries Sample.aws false Sample.start = (Ok tt, afterFirstRun) /\
  (exists suffix,
     let dir := joinNames (tmpdir (world Sample.start)) "asea-assets" +:+ suffix in
     files (world Sample.start) !! dir = None /\
     files (world afterFirstRun) !! dir =
       Some {[ "aseaMapping.json" := @JSON_stringify_mapping Sample.libraries Sample.manifest;
               "aseaResources.json" := @JSON_stringify Sample.libraries (VArray []) ]}) /\
  files (world Sample.start) ⊆ files (world afterFirstRun).
Proof.
  assert (Hne : Sample.bucket <> "") by discriminate.
  split; [reflexivity|]. split; [reflexivity|]. split; [exact Hne|].
  split; [reflexivity|]. split; [reflexivity|]. split; [exact manifest_writable|].
  split; [exact first_run_returns|].
  exact (@loadExternalMapping_writes_cache Sample.libraries Sample.aws false
           Sample.start Sample.bucket afterFirstRun Sample.manifestText Sample.manifest
           eq_refl eq_refl Hne eq_refl eq_refl manifest_writable first_run_returns).
Defined.

Lemma loadExternalMapping_without_bucket_witness :
  importEnabled (this Cases.noBucket) = true /\
  truthy (configuredBucket (this Cases.noBucket)) = false /\
  fst (@loadExternalMapping Sample.libraries Sample.aws false Cases.noBucket)
    = Throw (TypeError "mappingJson is not iterable") /\
  s3Requests (world (snd (@loadExternalMapping Sample.libraries Sample.aws false Cases.noBucket)))
    = s3Requests (world Cases.noBucket) /\
  this (snd (@loadExternalMapping Sample.libraries Sample.aws false Cases.noBucket))
    = this (updateExternal (setAccountsDeployedExternally []) Cases.noBucket).
Proof.
  split; [reflexivity|]. split; [reflexivity|].
  split; [vm_compute; reflexivity|].
  exact (proj2 (@loadExternalMapping_without_bucket Sample.libraries Sample.aws false
                  Cases.noBucket _ _ eq_refl eq_refl (surjective_pairing _))).
Defined.

(** In the sample with two regions the parameters of every pair can be
    read, and the keys of the pairs differ. *)
Lemma twoRegions_read a r :
  a ∈ ["111111111111"; "333333333333"] -> r ∈ ["ca-central-1"; "us-east-1"] ->
  is_Some (@parametersRead Sample.commonTypes Sample.aws 5 "aws" "ASEA"
             "OrganizationAccountAccessRole" a r).
Proof.
  intros Ha Hr.
  repeat (apply elem_of_cons in Ha as [->|Ha]); [| |inversion Ha];
    (repeat (apply elem_of_cons in Hr as [->|Hr]); [| |inversion Hr]);
    apply (bool_decide_unpack _); vm_compute; reflexivity.
Qed.

Lemma twoRegions_keys :
  distinctKeys ["111111111111"; "333333333333"] ["ca-central-1"; "us-east-1"].
Proof.
  intros a a' r r' Ha Ha' Hr Hr' Heq.
  repeat (apply elem_of_cons in Ha as [->|Ha]); [| |inversion Ha];
    (repeat (apply elem_of_cons in Ha' as [->|Ha']); [| |inversion Ha']);
    (repeat (apply elem_of_cons in Hr as [->|Hr]); [| |inversion Hr]);
    (repeat (apply elem_of_cons in Hr' as [->|Hr']); [| |inversion Hr']);
    first [split; reflexivity|vm_compute in Heq; discriminate Heq].
Qed.

Lemma loadLzaResources_resolves_with_every_entry_witness :
  importEnabled (this Cases.twoRegions) = true /\
  (forall a r,
     a ∈ ["111111111111"; "333333333333"] -> r ∈ ["ca-central-1"; "us-east-1"] ->
     is_Some (@parametersRead Sample.commonTypes Sample.aws 5 "aws" "ASEA"
                "OrganizationAccountAccessRole" a r)) /\
  distinctKeys ["111111111111"; "333333333333"] ["ca-central-1"; "us-east-1"] /\
  exists s' m',
    @loadLzaResources Sample.commonTypes Sample.libraries Sample.aws
        5 [1%nat; 0%nat; 1%nat] "aws" "ASEA" Cases.twoRegions = (Resolved, s') /\
    parametersOf s' = Some m' /\
    (forall a r,
       a ∈ ["111111111111"; "333333333333"] -> r ∈ ["ca-central-1"; "us-east-1"] ->
       m' !! (a +:+ "-" +:+ r) =
         @parametersRead Sample.commonTypes Sample.aws 5 "aws" "ASEA"
           "OrganizationAccountAccessRole" a r) /\
    (forall key : string,
       (forall a r,
          a ∈ ["111111111111"; "333333333333"] -> r ∈ ["ca-central-1"; "us-east-1"] ->
          key <> a +:+ "-" +:+ r) ->
       m' !! key = default ∅ (parametersOf Cases.twoRegions) !! key).
Proof.
  split; [reflexivity|]. split; [exact twoRegions_read|]. split; [exact twoRegions_keys|].
  exact (@loadLzaResources_resolves_with_every_entry Sample.commonTypes Sample.libraries
           Sample.aws 5 [1%nat; 0%nat; 1%nat] "aws" "ASEA" Cases.twoRegions
           eq_refl twoRegions_read twoRegions_keys).
Defined.

Lemma loadLzaResources_touches_pair_entries_only_witness :
  importEnabled (this Sample.twoAccounts) = true /\
  let s' := snd (@loadLzaResources Sample.commonTypes Sample.libraries Sample.aws
                   5 [0%nat; 0%nat] "aws" "ASEA" Sample.twoAccounts) in
  managementAccountAccessRole (this s') = managementAccountAccessRole (this Sample.twoAccounts) /\
  importEnabled (this s') = true /\
  exists m',
    parametersOf s' = Some m' /\
    dom (default ∅ (parametersOf Sample.twoAccounts)) ⊆ dom m' /\
    forall key : string,
      (forall a r,
         a ∈ default [] (externalLandingZoneResources (this Sample.twoAccounts)
                           ≫= accountsDeployedExternally) ->
         r ∈ enabledRegions (this Sample.twoAccounts) -> key <> a +:+ "-" +:+ r) ->
      m' !! key = default ∅ (parametersOf Sample.twoAccounts) !! key.
Proof.
  split; [reflexivity|].
  exact (@loadLzaResources_touches_pair_entries_only Sample.commonTypes Sample.libraries
           Sample.aws 5 [0%nat; 0%nat] "aws" "ASEA" Sample.twoAccounts eq_refl).
Defined.

(** The sample documents with topics conform. *)
Lemma topicsDocument_loads :
  @GlobalConfig.fromObject Sample.commonTypes Cases.topicsDocument
    = Ok (assignedFrom Cases.topicsDocument).
Proof. vm_compute. reflexivity. Qed.

Lemma bareTopicsDocument_loads :
  @GlobalConfig.fromObject Sample.commonTypes Cases.bareTopicsDocument
    = Ok (assignedFrom Cases.bareTopicsDocument).
Proof. vm_compute. reflexivity. Qed.

Lemma getSnsTopicNames_lists_topic_names_witness :
  @GlobalConfig.fromObject Sample.commonTypes Cases.topicsDocument
    = Ok (assignedFrom Cases.topicsDocument) /\
  field (field Cases.topicsDocument "snsTopics") "topics" = VArray Cases.topics /\
  getSnsTopicNames (assignedFrom Cases.topicsDocument)
    = Ok (VArray [VString "Security"; VString "Operations"]) /\
  Forall (fun item => exists n, field item "name" = VString n /\ n <> "") Cases.topics.
Proof.
  split; [exact topicsDocument_loads|]. split; [reflexivity|].
  exact (@getSnsTopicNames_lists_topic_names Sample.commonTypes Cases.topicsDocument
           _ Cases.topics topicsDocument_loads eq_refl).
Defined.

Lemma getSnsTopicNames_throws_without_topics_witness :
  @GlobalConfig.fromObject Sample.commonTypes Cases.bareTopicsDocument
    = Ok (assignedFrom Cases.bareTopicsDocument) /\
  field Cases.bareTopicsDocument "snsTopics" <> VUndefined /\
  field (field Cases.bareTopicsDocument "snsTopics") "topics" = VUndefined /\
  getSnsTopicNames (assignedFrom Cases.bareTopicsDocument)
    = Throw (TypeError "Cannot read properties of undefined (reading 'flatMap')").
Proof.
  assert (Hdef : field Cases.bareTopicsDocument "snsTopics" <> VUndefined) by discriminate.
  split; [exact bareTopicsDocument_loads|]. split; [exact Hdef|]. split; [reflexivity|].
  exact (@getSnsTopicNames_throws_without_topics Sample.commonTypes Cases.bareTopicsDocument
           _ bareTopicsDocument_loads Hdef eq_refl).
Defined.

Lemma configText_loads :
  @GlobalConfig.loadFromString Sample.commonTypes Sample.libraries
      Sample.configText Sample.earth
    = (Ok (builtFrom Sample.configDocument), Sample.earth).
Proof. vm_compute. reflexivity. Qed.

Lemma getSnsTopicNames_empty_after_loadFromString_witness :
  @GlobalConfig.loadFromString Sample.commonTypes Sample.libraries
      Sample.configText Sample.earth
    = (Ok (builtFrom Sample.configDocument), Sample.earth) /\
  getSnsTopicNames (builtFrom Sample.configDocument) = Ok (VArray []).
Proof.
  split; [exact configText_loads|].
  exact (@getSnsTopicNames_empty_after_loadFromString Sample.commonTypes Sample.libraries
           _ _ _ _ configText_loads).
Defined.

Lemma configDocument_loads :
  @GlobalConfig.fromObject Sample.commonTypes Sample.configDocument
    = Ok (assignedFrom Sample.configDocument).
Proof. vm_compute. reflexivity. Qed.

Lemma fromObject_round_trip_witness :
  @GlobalConfig.fromObject Sample.commonTypes Sample.configDocument
    = Ok (assignedFrom Sample.configDocument) /\
  @GlobalConfig.fromObject Sample.commonTypes (assignedFrom Sample.configDocument)
    = Ok (assignedFrom Sample.configDocument).
Proof.
  split; [exact configDocument_loads|].
  exact (@fromObject_round_trip Sample.commonTypes _ _ configDocument_loads).
Defined.

Lemma saveAseaResourceMapping_writes_what_is_read_witness :
  importEnabled (this Sample.start) && truthy (configuredBucket (this Sample.start)) = true /\
  exists put,
    snd (@saveAseaResourceMapping Sample.libraries Cases.writer
           (VArray []) (this Sample.start) [])
      = [] ++ [({| s3Region := homeRegion (this Sample.start) |}, put)] /\
    fst (@saveAseaResourceMapping Sample.libraries Cases.writer
           (VArray []) (this Sample.start) [])
      = @s3_putObject Cases.writer {| s3Region := homeRegion (this Sample.start) |} put /\
    putBody put = @JSON_stringify Sample.libraries (VArray []) /\
    ServerSideEncryption put = "AES256" /\
    s3Requests (world (snd (@readJsonFromExternalS3 Sample.libraries Sample.aws
                              "aseaResources.json" None Sample.start))) =
      s3Requests (world Sample.start) ++ [ {| Bucket := putBucket put; Key := putKey put |} ] /\
    fst (@readJsonFromExternalS3 Sample.libraries Sample.aws
           "aseaResources.json" None Sample.start) =
      match @s3_getObject Sample.aws {| s3Region := homeRegion (this Sample.start) |}
              {| Bucket := putBucket put; Key := putKey put |} with
      | Throw e => if bool_decide (code e = Some "NoSuchKey") then Ok None else Throw e
      | Ok response =>
          match Body response with
          | None => Ok None
          | Some body =>
              match @JSON_parse Sample.libraries body with
              | Ok v => Ok (Some v)
              | Throw e =>
                  if bool_decide (code e = Some "NoSuchKey") then Ok None else Throw e
              end
          end
      end.
Proof.
  split; [reflexivity|].
  exact (proj2 (@saveAseaResourceMapping_writes_what_is_read Sample.libraries Sample.aws
                  Cases.writer (VArray []) Sample.start []) eq_refl).
Defined.

Lemma start_has_room : roomFor Sample.manifest (world Sample.start).
Proof. apply (bool_decide_unpack _). vm_compute. reflexivity. Qed.

Lemma loadExternalMapping_absorbs_only_missing_list_witness :
  importEnabled (this Sample.start) = true /\
  configuredBucket (this Sample.start) = Some Sample.bucket /\
  Sample.bucket <> "" /\
  roomFor Sample.manifest (world Sample.start) /\
  @s3_getObject Sample.aws {| s3Region := homeRegion (this Sample.start) |}
      {| Bucket := Sample.bucket; Key := "aseaResources.json" |}
    = Throw (AWSError "NoSuchKey" "The specified key does not exist.") /\
  fst (@loadExternalMapping Sample.libraries Sample.aws false Sample.start) = Ok tt /\
  externalLandingZoneResources (this afterFirstRun) ≫= resourceList = Some (VArray []).
Proof.
  assert (Hne : Sample.bucket <> "") by discriminate.
  pose proof start_has_room as Hroom.
  split; [reflexivity|]. split; [reflexivity|]. split; [exact Hne|].
  split; [exact Hroom|]. split; [reflexivity|].
  destruct (@loadExternalMapping_absorbs_only_missing_list Sample.libraries Sample.aws
              false Sample.start Sample.bucket _ _ eq_refl eq_refl Hne
              (roomFor_nil _ _ Hroom) (surjective_pairing _))
    as (_ & _ & _ & Hlist).
  exact (proj1 (Hlist Sample.manifestText Sample.manifest _ eq_refl eq_refl
                  manifest_writable Hroom eq_refl) eq_refl).
Defined.

Lemma loadExternalMapping_rejected_keeps_writes_witness :
  importEnabled (this Sample.start) = true /\
  configuredBucket (this Sample.start) = Some Sample.bucket /\
  Sample.bucket <> "" /\
  @s3_getObject Cases.deniedAws {| s3Region := homeRegion (this Sample.start) |}
      {| Bucket := Sample.bucket; Key := "mapping.json" |}
    = Ok {| Body := Some Sample.manifestText |} /\
  @JSON_parse_mapping Sample.libraries Sample.manifestText = Ok Sample.manifest /\
  Forall writable (manifestStacks Sample.manifest) /\
  roomFor Sample.manifest (world Sample.start) /\
  @s3_getObject Cases.deniedAws {| s3Region := homeRegion (this Sample.start) |}
      {| Bucket := Sample.bucket; Key := "aseaResources.json" |}
    = Throw (AWSError "AccessDenied" "Access Denied") /\
  code (AWSError "AccessDenied" "Access Denied") <> Some "NoSuchKey" /\
  fst (@loadExternalMapping Sample.libraries Cases.deniedAws false Sample.start)
    = Throw (AWSError "AccessDenied" "Access Denied") /\
  s3Requests (world (snd (@loadExternalMapping Sample.libraries Cases.deniedAws
                            false Sample.start))) =
    s3Requests (world Sample.start) ++
      [ {| Bucket := Sample.bucket; Key := "mapping.json" |};
        {| Bucket := Sample.bucket; Key := "aseaResources.json" |} ] /\
  exists stacks s2 s3,
    @setTemplateMap Sample.libraries (Some Sample.manifest) s2 = (Ok stacks, s3) /\
    this (snd (@loadExternalMapping Sample.libraries Cases.deniedAws false Sample.start)) =
      this (updateExternal
              (fun e => setTemplateMapField stacks
                          (setAccountsDeployedExternally (accountId <$> Sample.manifest) e))
              Sample.start).
Proof.
  assert (Hne : Sample.bucket <> "") by discriminate.
  assert (Hcode : code (AWSError "AccessDenied" "Access Denied") <> Some "NoSuchKey")
    by discriminate.
  split; [reflexivity|]. split; [reflexivity|]. split; [exact Hne|].
  split; [reflexivity|]. split; [reflexivity|]. split; [exact manifest_writable|].
  split; [exact start_has_room|]. split; [reflexivity|]. split; [exact Hcode|].
  exact (@loadExternalMapping_rejected_keeps_writes Sample.libraries Cases.deniedAws false
           Sample.start Sample.bucket _ _ Sample.manifestText Sample.manifest _
           eq_refl eq_refl Hne eq_refl eq_refl manifest_writable start_has_room eq_refl Hcode
           (surjective_pairing _)).
Defined.

Lemma loadFromString_conforms_iff_home_is_region_witness :
  @GlobalConfig.loadFromString Sample.commonTypes Sample.libraries
      Sample.configText Sample.earth
    = (Ok (builtFrom Sample.configDocument), Sample.earth) /\
  (@conforms Sample.commonTypes (builtFrom Sample.configDocument) <->
   validate [] (@t_region Sample.commonTypes)
     (field (builtFrom Sample.configDocument) "homeRegion") = None).
Proof.
  split; [exact configText_loads|].
  exact (@loadFromString_conforms_iff_home_is_region Sample.commonTypes Sample.libraries
           _ _ _ _ configText_loads).
Defined.

(** In the sample, the role is refused in the account [222222222222]:
    the error that comes out has lost the code of the service. *)
Example refused_role_loses_its_code :
  fst (@getCrossAccountCredentials Sample.libraries Sample.aws "222222222222" "ca-central-1"
         "aws" "OrganizationAccountAccessRole" Sample.start)
    = Throw (Error "User is not authorized to perform sts:AssumeRole").
Proof. reflexivity. Qed.
